(** * Habbo-Bot networking core: a shallow embedding and its properties

    The development follows the repository file by file:
    - [ArcFour]      : src/ArcFour.py, the asymmetric RC4-like stream cipher;
    - [Py]           : Python's [str], UTF-8 codec, [int()], indexing and slicing;
    - [Struct]       : the big-endian [struct.pack]/[struct.unpack] formats used;
    - [HabboPacket], [Buffer] : src/habbo_packet.py, frame builder and reader;
    - [Rsa]          : the RSA pad/unpad helpers of src/habbo_client.py and src/crypto.py;
    - [Room]         : src/room_map.py and the geometry parsers of src/parsers.py;
    - [Parsers]      : the other parsers of src/parsers.py;
    - [Client]       : the session state, the send path and the dispatcher of
                       src/habbo_client.py.
    The definitions come first, the properties after them, component by
    component.

    Bytes are integers in [0, 256) carried as [Z]; a [bytes] object is a [list Z].
    Python exceptions are modelled by [option] ([None] is the raised exception)
    or by an explicit outcome where the kind of exception matters. *)

From Stdlib Require Import ZArith List Lia Bool String Ascii QArith.
From Bignums Require Import BigZ.
From stdpp Require Import base tactics option list list_numbers gmap strings.

Local Open Scope Z_scope.

(** * src/ArcFour.py *)

Module ArcFour.

(** The instance attributes [_s], [_i], [_j]. *)
Record t := mk { _s : list Z; _i : Z; _j : Z }.

(** [s[i]] on the S-box.  Every index the class computes is reduced
    [% 256] and the S-box has 256 entries (lemmas [ksa_length],
    [cipher_byte_length]), so the read never raises. *)
Definition get (s : list Z) (i : Z) : Z := s !!! Z.to_nat i.

(** [s[i], s[j] = s[j], s[i]]: both right-hand reads happen first, then
    [s[i]] is stored, then [s[j]]. *)
Definition swap (s : list Z) (i j : Z) : list Z :=
  let si := get s i in
  let sj := get s j in
  <[Z.to_nat j := si]> (<[Z.to_nat i := sj]> s).

(** One iteration of the key-scheduling loop, on the pair (S, j). *)
Definition ksa_step (key : list Z) (st : list Z * Z) (i : Z) : list Z * Z :=
  let '(s, j) := st in
  let j' := (j + get s i + get key (i mod Z.of_nat (length key))) mod 256 in
  (swap s i j', j').

Definition ksa (key : list Z) : list Z * Z :=
  fold_left (ksa_step key) (seqZ 0 256) (seqZ 0 256, 0).

(** [ArcFour.__init__]: [i % len(key)] raises [ZeroDivisionError] on an
    empty key. *)
Definition init (key : list Z) : option t :=
  match key with
  | [] => None
  | _ => Some {| _s := (ksa key).1; _i := 0; _j := 0 |}
  end.

(** The body of the [for byte in data] loop of [_apply_cipher]. *)
Definition cipher_byte (is_decrypt : bool) (st : t) (byte : Z) : t * Z :=
  let i := (_i st + 1) mod 256 in
  let j := (_j st + get (_s st) i) mod 256 in
  let s := swap (_s st) i j in
  let index1 := (get s i + get s j) mod 256 in
  let keystream_byte :=
    if is_decrypt then
      let index2 := get s index1 in get s index2
    else get s index1 in
  ({| _s := s; _i := i; _j := j |}, Z.lxor byte keystream_byte).

Fixpoint _apply_cipher (st : t) (data : list Z) (is_decrypt : bool) : t * list Z :=
  match data with
  | [] => (st, [])
  | byte :: rest =>
      let '(st1, out) := cipher_byte is_decrypt st byte in
      let '(st2, outs) := _apply_cipher st1 rest is_decrypt in
      (st2, out :: outs)
  end.

Definition encrypt (st : t) (data : list Z) : t * list Z := _apply_cipher st data false.
Definition decrypt (st : t) (data : list Z) : t * list Z := _apply_cipher st data true.

(** The keystream a state would apply to the next [n] bytes: what the
    cipher outputs on [n] zero bytes. *)
Definition keystream (is_decrypt : bool) (st : t) (n : nat) : list Z :=
  (_apply_cipher st (replicate n 0) is_decrypt).2.

Definition xor_bytes (a b : list Z) : list Z := zip_with Z.lxor a b.

(** The two-party experiment of the cipher scenario: one instance encrypts,
    a second instance keyed alike processes the ciphertext. *)
Definition enc_then (is_decrypt : bool) (key data : list Z) : option (list Z) :=
  e ← init key;
  d ← init key;
  Some (_apply_cipher d (encrypt e data).2 is_decrypt).2.

(** The invariant of the S-box: 256 entries, a permutation of 0..255. *)
Definition sbox_ok (s : list Z) : Prop :=
  length s = 256%nat ∧ s ≡ₚ seqZ 0 256.

Definition HELLO : list Z := [72; 69; 76; 76; 79].
Definition key12345 : list Z := [1; 2; 3; 4; 5].

End ArcFour.


(** * Python [str], UTF-8 and the built-in conversions the sources call *)

Module Py.

(** A Python [str] is its sequence of Unicode code points. *)
Abbreviation str := (list Z) (only parsing).

(** A literal of the sources, written as a Rocq string (ASCII only). *)
Definition lit (s : string) : str :=
  (fun a : ascii => Z.of_N (N_of_ascii a)) <$> list_ascii_of_string s.

(** [s.encode('utf-8')] for one code point; surrogates and values past
    U+10FFFF make the encoder raise. *)
Definition utf8_encode_cp (c : Z) : option (list Z) :=
  if (c <? 0) then None
  else if c <? 128 then Some [c]
  else if c <? 2048 then Some [192 + c / 64; 128 + c mod 64]
  else if c <? 65536 then
    if (55296 <=? c) && (c <=? 57343) then None
    else Some [224 + c / 4096; 128 + (c / 64) mod 64; 128 + c mod 64]
  else if c <? 1114112 then
    Some [240 + c / 262144; 128 + (c / 4096) mod 64; 128 + (c / 64) mod 64; 128 + c mod 64]
  else None.

Fixpoint utf8_encode (s : str) : option (list Z) :=
  match s with
  | [] => Some []
  | c :: s' =>
      b ← utf8_encode_cp c;
      bs ← utf8_encode s';
      Some (b ++ bs)
  end.

Definition in_range (lo hi b : Z) : bool := (lo <=? b) && (b <=? hi).
Definition is_cont (b : Z) : bool := in_range 128 191 b.

(** Admissible range of the second byte after lead byte [b0] of a
    three- or four-byte sequence. *)
Definition second_lo (b0 : Z) : Z :=
  if b0 =? 224 then 160 else if b0 =? 240 then 144 else 128.
Definition second_hi (b0 : Z) : Z :=
  if b0 =? 237 then 159 else if b0 =? 244 then 143 else 191.

Definition REPLACEMENT : Z := 65533.

(** [raw.decode('utf-8', errors='replace')]: every maximal ill-formed
    subsequence becomes one U+FFFD.  On well-formed input this is the
    strict decoder, so it is also the value of the source's
    try-strict-then-replace idiom. *)
Fixpoint utf8_decode (bs : list Z) : str :=
  match bs with
  | [] => []
  | b0 :: r =>
      if in_range 0 127 b0 then b0 :: utf8_decode r
      else if in_range 194 223 b0 then
        match r with
        | b1 :: r1 =>
            if is_cont b1 then ((b0 - 192) * 64 + (b1 - 128)) :: utf8_decode r1
            else REPLACEMENT :: utf8_decode r
        | [] => [REPLACEMENT]
        end
      else if in_range 224 239 b0 then
        match r with
        | b1 :: r1 =>
            if in_range (second_lo b0) (second_hi b0) b1 then
              match r1 with
              | b2 :: r2 =>
                  if is_cont b2 then
                    ((b0 - 224) * 4096 + (b1 - 128) * 64 + (b2 - 128)) :: utf8_decode r2
                  else REPLACEMENT :: utf8_decode r1
              | [] => [REPLACEMENT]
              end
            else REPLACEMENT :: utf8_decode r
        | [] => [REPLACEMENT]
        end
      else if in_range 240 244 b0 then
        match r with
        | b1 :: r1 =>
            if in_range (second_lo b0) (second_hi b0) b1 then
              match r1 with
              | b2 :: r2 =>
                  if is_cont b2 then
                    match r2 with
                    | b3 :: r3 =>
                        if is_cont b3 then
                          ((b0 - 240) * 262144 + (b1 - 128) * 4096
                           + (b2 - 128) * 64 + (b3 - 128)) :: utf8_decode r3
                        else REPLACEMENT :: utf8_decode r2
                    | [] => [REPLACEMENT]
                    end
                  else REPLACEMENT :: utf8_decode r1
              | [] => [REPLACEMENT]
              end
            else REPLACEMENT :: utf8_decode r
        | [] => [REPLACEMENT]
        end
      else REPLACEMENT :: utf8_decode r
  end.

(** [raw.decode('ascii')]: raises on any byte above 127. *)
Definition ascii_decode (bs : list Z) : option str :=
  if forallb (in_range 0 127) bs then Some bs else None.

(** [s.lower()], as far as ASCII text can tell.  The code points whose
    lower case is ASCII text are the capitals A-Z and U+212A (KELVIN
    SIGN, lowered to [k]); the lower case of every other code point
    outside ASCII has a code point outside ASCII, and such a code point
    is left as it is here.  The sources only compare the result with
    ASCII text ([== 'x'], [== admin.lower()] for the ASCII names of
    [ADMINS], ["habb" in ...]), and for these tests the result is the
    same as with [str.lower]. *)
Definition KELVIN_SIGN : Z := 8490.
Definition lower_cp (c : Z) : Z :=
  if in_range 65 90 c then c + 32
  else if c =? KELVIN_SIGN then 107
  else c.
Definition lower (s : str) : str := lower_cp <$> s.

Definition eqb (a b : str) : bool := bool_decide (a = b).

Fixpoint startswith (s prefix : str) : bool :=
  match prefix, s with
  | [], _ => true
  | p :: ps, c :: cs => (c =? p) && startswith cs ps
  | _ :: _, [] => false
  end.

(** [needle in s]. *)
Fixpoint contains (s needle : str) : bool :=
  startswith s needle ||
  match s with
  | [] => false
  | _ :: s' => contains s' needle
  end.

(** [str.isspace] on one code point. *)
Definition is_space (c : Z) : bool :=
  in_range 9 13 c || in_range 28 32 c || (c =? 133) || (c =? 160) || (c =? 5760)
  || in_range 8192 8202 c || (c =? 8232) || (c =? 8233) || (c =? 8239)
  || (c =? 8287) || (c =? 12288).

Fixpoint lstrip (s : str) : str :=
  match s with
  | c :: s' => if is_space c then lstrip s' else s
  | [] => []
  end.

(** [s.strip()]. *)
Definition strip (s : str) : str := reverse (lstrip (reverse (lstrip s))).

(** [s.split(sep)] for a one-character separator: always at least one
    piece. *)
Fixpoint split (sep : Z) (s : str) : list str :=
  match s with
  | [] => [[]]
  | c :: s' =>
      if c =? sep then [] :: split sep s'
      else match split sep s' with
           | piece :: pieces => (c :: piece) :: pieces
           | [] => [[c]]
           end
  end.

(** Value of a digit character in a base up to 36. *)
Definition digit_value (c : Z) : option Z :=
  if in_range 48 57 c then Some (c - 48)
  else if in_range 97 122 c then Some (c - 97 + 10)
  else if in_range 65 90 c then Some (c - 65 + 10)
  else None.

(** The digit loop of [int(s, base)]: digits of the base, single
    underscores only between digits.  [prev_us] tells that the previous
    character was an underscore. *)
Fixpoint int_digits (base : Z) (acc : Z) (prev_us : bool) (s : str) : option Z :=
  match s with
  | [] => if prev_us then None else Some acc
  | c :: s' =>
      if c =? 95 then
        if prev_us then None else int_digits base acc true s'
      else
        match digit_value c with
        | Some d => if d <? base then int_digits base (acc * base + d) false s' else None
        | None => None
        end
  end.

(** [int(s, base)] for base 10 and 16, as CPython 3.11 computes it.
    The string is first brought to ASCII: a code point from U+007F on
    becomes a blank if it is white space, the ASCII digit of its value if
    it is a decimal digit, and the invalid [?] otherwise.  Then blanks in
    the sense of C ([Py_ISSPACE]: 9-13 and 32, not U+001C..U+001F) are
    skipped at both ends, then come an optional sign and the digits.
    [None] is [ValueError]. *)
Definition int_space (c : Z) : bool := in_range 9 13 c || (c =? 32).

(** The zero digits of the decimal digit runs outside ASCII (Unicode
    14.0): each is followed by its digits 1 to 9. *)
Definition DECIMAL_ZEROS : list Z :=
  [1632; 1776; 1984; 2406; 2534; 2662; 2790; 2918; 3046; 3174; 3302; 3430; 3558;
   3664; 3792; 3872; 4160; 4240; 6112; 6160; 6470; 6608; 6784; 6800; 6992; 7088;
   7232; 7248; 42528; 43216; 43264; 43472; 43504; 43600; 44016; 65296; 66720;
   68912; 69734; 69872; 69942; 70096; 70384; 70736; 70864; 71248; 71360; 71472;
   71904; 72016; 72784; 73040; 73120; 92768; 92864; 93008; 120782; 120792;
   120802; 120812; 120822; 123200; 123632; 125264; 130032].

(** [Py_UNICODE_TODECIMAL] outside ASCII. *)
Definition decimal (c : Z) : option Z :=
  (fun zero => c - zero) <$> List.find (fun zero => in_range zero (zero + 9) c) DECIMAL_ZEROS.

Definition int_ascii_cp (c : Z) : Z :=
  if c <? 127 then c
  else if is_space c then 32
  else match decimal c with
       | Some d => 48 + d
       | None => 63
       end.

Fixpoint int_lstrip (s : str) : str :=
  match s with
  | c :: s' => if int_space c then int_lstrip s' else s
  | [] => []
  end.

Definition int_strip (s : str) : str := reverse (int_lstrip (reverse (int_lstrip s))).

(** [sys.get_int_max_str_digits()]: a literal in a base that is not a
    power of two may have at most this many digits, underscores not
    counted. *)
Definition int_max_str_digits : Z := 4300.

Definition int_body (base : Z) (s : str) : option Z :=
  match s with
  | [] => None
  | c :: _ =>
      if c =? 95 then None
      else if (base =? 10)
              && (int_max_str_digits
                  <? Z.of_nat (length (List.filter (fun c => negb (c =? 95)) s)))
      then None
      else int_digits base 0 false s
  end.

(** After the sign, base 16 admits a [0x]/[0X] prefix and one underscore
    behind it. *)
Definition int_prefix (base : Z) (s : str) : str :=
  match s with
  | c0 :: c1 :: s' =>
      if (c0 =? 48) && (base =? 16) && ((c1 =? 120) || (c1 =? 88)) then
        match s' with
        | c2 :: s'' => if c2 =? 95 then s'' else s'
        | [] => s'
        end
      else s
  | _ => s
  end.

Definition int (base : Z) (s : str) : option Z :=
  match int_strip (int_ascii_cp <$> s) with
  | c :: s' =>
      if c =? 43 then int_body base (int_prefix base s')
      else if c =? 45 then Z.opp <$> int_body base (int_prefix base s')
      else int_body base (int_prefix base (c :: s'))
  | [] => None
  end.

Definition hex_digit (d : Z) : Z := if d <? 10 then 48 + d else 87 + d.

(** [bs.hex()]: two lower-case digits per byte. *)
Definition hex (bs : list Z) : str :=
  bs ≫= (fun b => [hex_digit (b / 16); hex_digit (b mod 16)]).

(** Slices [l[a:b]] and [l[a:]] with Python's clamping; a negative bound
    counts from the end. *)
Definition norm_bound (len i : Z) : Z :=
  if i <? 0 then Z.max 0 (len + i) else Z.min i len.

Definition slice {A} (l : list A) (a b : Z) : list A :=
  let len := Z.of_nat (length l) in
  let a' := norm_bound len a in
  let b' := norm_bound len b in
  take (Z.to_nat (b' - a')) (drop (Z.to_nat a') l).

Definition slice_from {A} (l : list A) (a : Z) : list A :=
  drop (Z.to_nat (norm_bound (Z.of_nat (length l)) a)) l.

Definition len {A} (l : list A) : Z := Z.of_nat (length l).

(** [l[i]]: a negative index counts from the end, an index outside
    [-len, len) raises [IndexError]. *)
Definition index {A} (l : list A) (i : Z) : option A :=
  if 0 <=? i then l !! Z.to_nat i
  else if 0 <=? len l + i then l !! Z.to_nat (len l + i)
  else None.

(** [l[i] = v]: same index rule as [l[i]]. *)
Definition setitem {A} (l : list A) (i : Z) (v : A) : option (list A) :=
  if 0 <=? i then
    if i <? len l then Some (<[Z.to_nat i := v]> l) else None
  else if 0 <=? len l + i then Some (<[Z.to_nat (len l + i) := v]> l)
  else None.

(** [g[y][x]] and [g[y][x] = v] on a list of rows. *)
Definition index2 {A} (g : list (list A)) (y x : Z) : option A :=
  row ← index g y; index row x.

Definition setitem2 {A} (g : list (list A)) (y x : Z) (v : A) : option (list (list A)) :=
  row ← index g y;
  row' ← setitem row x v;
  setitem g y row'.

(** [range(n)]. *)
Definition range (n : Z) : list Z := seqZ 0 n.

(** [bs.index(b, start)] for a single byte and [start >= 0]: position of
    the first occurrence at or after [start]; [None] is [ValueError]. *)
Fixpoint find_from (b : Z) (bs : list Z) (pos : Z) : option Z :=
  match bs with
  | [] => None
  | c :: bs' => if c =? b then Some pos else find_from b bs' (pos + 1)
  end.

Definition bytes_index (bs : list Z) (b : Z) (start : Z) : option Z :=
  find_from b (drop (Z.to_nat start) bs) start.

End Py.

(** * [struct.pack] / [struct.unpack], big-endian formats *)

Module Struct.

(** Value of a big-endian byte string. *)
Definition be_decode (bs : list Z) : Z :=
  fold_left (fun acc b => acc * 256 + b) bs 0.

(** The [n] low-order bytes of [v], most significant first; on a
    negative [v] this is the two's-complement pattern. *)
Fixpoint be_encode (n : nat) (v : Z) : list Z :=
  match n with
  | O => []
  | S n' => be_encode n' (v / 256) ++ [v mod 256]
  end.

(** A byte value. *)
Definition is_byte (b : Z) : Prop := 0 <= b < 256.

(** [struct.pack] raises [struct.error] when the value does not fit. *)
Definition pack_H (v : Z) : option (list Z) :=
  if Py.in_range 0 65535 v then Some (be_encode 2 v) else None.
Definition pack_I (v : Z) : option (list Z) :=
  if Py.in_range 0 4294967295 v then Some (be_encode 4 v) else None.
Definition pack_i (v : Z) : option (list Z) :=
  if Py.in_range (-2147483648) 2147483647 v then Some (be_encode 4 v) else None.
Definition pack_B (v : Z) : option (list Z) :=
  if Py.in_range 0 255 v then Some (be_encode 1 v) else None.
Definition pack_bool (v : bool) : list Z := [if v then 1 else 0].

(** [struct.unpack] raises [struct.error] unless the buffer has exactly
    the size of the format. *)
Definition unpack_H (bs : list Z) : option Z :=
  if Py.len bs =? 2 then Some (be_decode bs) else None.
Definition unpack_I (bs : list Z) : option Z :=
  if Py.len bs =? 4 then Some (be_decode bs) else None.
Definition unpack_i (bs : list Z) : option Z :=
  if Py.len bs =? 4 then
    let u := be_decode bs in
    Some (if u <? 2147483648 then u else u - 4294967296)
  else None.
Definition unpack_h (bs : list Z) : option Z :=
  if Py.len bs =? 2 then
    let u := be_decode bs in
    Some (if u <? 32768 then u else u - 65536)
  else None.
Definition unpack_bool (bs : list Z) : option bool :=
  match bs with
  | [b] => Some (negb (b =? 0))
  | _ => None
  end.

End Struct.

(** * src/habbo_packet.py *)

Module HabboPacket.

Record t := mk { _id : Z; _buffer : list Z }.

(** Every writer extends [_buffer]; [None] is the [struct.error] (or
    the encoder's error) raised before the buffer is touched. *)
Definition write_short (p : t) (val : Z) : option t :=
  bs ← Struct.pack_H val;
  Some {| _id := _id p; _buffer := _buffer p ++ bs |}.

Definition write_integer (p : t) (val : Z) : option t :=
  bs ← Struct.pack_i val;
  Some {| _id := _id p; _buffer := _buffer p ++ bs |}.

Definition write_boolean (p : t) (val : bool) : option t :=
  Some {| _id := _id p; _buffer := _buffer p ++ Struct.pack_bool val |}.

Definition write_byte (p : t) (val : Z) : option t :=
  bs ← Struct.pack_B val;
  Some {| _id := _id p; _buffer := _buffer p ++ bs |}.

Definition write_string (p : t) (s : Py.str) : option t :=
  encoded ← Py.utf8_encode s;
  p' ← write_short p (Py.len encoded);
  Some {| _id := _id p'; _buffer := _buffer p' ++ encoded |}.

(** An argument of the variadic constructor.  [isinstance(arg, int)] is
    tested before [isinstance(arg, bool)] and holds for every [bool], so
    a boolean argument is written as a 4-byte integer. *)
Inductive arg := ArgStr (s : Py.str) | ArgInt (v : Z) | ArgBool (b : bool).

Definition _write_arg (p : t) (a : arg) : option t :=
  match a with
  | ArgStr s => write_string p s
  | ArgInt v => write_integer p v
  | ArgBool b => write_integer p (if b then 1 else 0)
  end.

Fixpoint write_args (p : t) (args : list arg) : option t :=
  match args with
  | [] => Some p
  | a :: args' => p' ← _write_arg p a; write_args p' args'
  end.

(** [HabboPacket(packet_id, *args)]. *)
Definition new (packet_id : Z) (args : list arg) : option t :=
  p ← write_short {| _id := packet_id; _buffer := [] |} packet_id;
  write_args p args.

(** [get_bytes]: [None] when the buffer is too long for ['>I']. *)
Definition get_bytes (p : t) : option (list Z) :=
  hdr ← Struct.pack_I (Py.len (_buffer p));
  Some (hdr ++ _buffer p).

(** One call of a typed writer, for sequences of writes. *)
Inductive field :=
| FString (s : Py.str)
| FShort (v : Z)
| FInteger (v : Z)
| FBoolean (b : bool)
| FByte (v : Z).

Definition write_field (p : t) (f : field) : option t :=
  match f with
  | FString s => write_string p s
  | FShort v => write_short p v
  | FInteger v => write_integer p v
  | FBoolean b => write_boolean p b
  | FByte v => write_byte p v
  end.

Fixpoint write_fields (p : t) (fs : list field) : option t :=
  match fs with
  | [] => Some p
  | f :: fs' => p' ← write_field p f; write_fields p' fs'
  end.

(** Build a frame: constructor, then the writes, then [get_bytes]. *)
Definition build (packet_id : Z) (fs : list field) : option (list Z) :=
  p ← new packet_id [];
  p' ← write_fields p fs;
  get_bytes p'.

End HabboPacket.

Module Buffer.

Record t := mk { buffer : list Z; pos : Z }.

(** [Buffer(data)]. *)
Definition new (data : list Z) : t := {| buffer := data; pos := 0 |}.

(** The readers return the value and the advanced reader.  The slices
    have exactly the format's size once the guard has passed, so
    [struct.unpack] cannot raise: [default] is never taken. *)
Definition read_short (b : t) : Z * t :=
  if pos b + 2 >? Py.len (buffer b) then (0, b)
  else
    let val := default 0 (Struct.unpack_H (Py.slice (buffer b) (pos b) (pos b + 2))) in
    (val, {| buffer := buffer b; pos := pos b + 2 |}).

Definition read_integer (b : t) : Z * t :=
  if pos b + 4 >? Py.len (buffer b) then (0, b)
  else
    let val := default 0 (Struct.unpack_I (Py.slice (buffer b) (pos b) (pos b + 4))) in
    (val, {| buffer := buffer b; pos := pos b + 4 |}).

Definition read_string (b : t) : Py.str * t :=
  let '(length, b1) := read_short b in
  let end_pos := pos b1 + length in
  let end_pos := if end_pos >? Py.len (buffer b1) then Py.len (buffer b1) else end_pos in
  let raw := Py.slice (buffer b1) (pos b1) end_pos in
  (Py.utf8_decode raw, {| buffer := buffer b1; pos := end_pos |}).

Definition read_boolean (b : t) : bool * t :=
  if pos b + 1 >? Py.len (buffer b) then (false, b)
  else
    let val := default false (Struct.unpack_bool (Py.slice (buffer b) (pos b) (pos b + 1))) in
    (val, {| buffer := buffer b; pos := pos b + 1 |}).

Definition read_bytes (b : t) (length : Z) : list Z * t :=
  (Py.slice (buffer b) (pos b) (pos b + length),
   {| buffer := buffer b; pos := pos b + length |}).

Definition get_remaining_bytes (b : t) : list Z := Py.slice_from (buffer b) (pos b).

(** What a reader hands back for one field. *)
Inductive value :=
| VString (s : Py.str)
| VShort (v : Z)
| VInteger (v : Z)
| VBoolean (b : bool)
| VBytes (bs : list Z).

(** The reader that corresponds to each writer; a [write_byte] field
    has no reader of its own and is read back with [read_bytes(1)]. *)
Definition read_field (b : t) (f : HabboPacket.field) : value * t :=
  match f with
  | HabboPacket.FString _ => let '(s, b') := read_string b in (VString s, b')
  | HabboPacket.FShort _ => let '(v, b') := read_short b in (VShort v, b')
  | HabboPacket.FInteger _ => let '(v, b') := read_integer b in (VInteger v, b')
  | HabboPacket.FBoolean _ => let '(v, b') := read_boolean b in (VBoolean v, b')
  | HabboPacket.FByte _ => let '(bs, b') := read_bytes b 1 in (VBytes bs, b')
  end.

Fixpoint read_fields (b : t) (fs : list HabboPacket.field) : list value :=
  match fs with
  | [] => []
  | f :: fs' => let '(v, b') := read_field b f in v :: read_fields b' fs'
  end.

(** The value a field was written with, in the reader's vocabulary. *)
Definition written (f : HabboPacket.field) : value :=
  match f with
  | HabboPacket.FString s => VString s
  | HabboPacket.FShort v => VShort v
  | HabboPacket.FInteger v => VInteger v
  | HabboPacket.FBoolean b => VBoolean b
  | HabboPacket.FByte v => VBytes [v]
  end.

(** What [read_integer] makes of a signed value: its residue modulo
    [2^32]. *)
Definition read_back (f : HabboPacket.field) : value :=
  match f with
  | HabboPacket.FInteger v => VInteger (v mod 4294967296)
  | _ => written f
  end.

(** The bytes one writer appends. *)
Definition field_bytes (f : HabboPacket.field) : option (list Z) :=
  match f with
  | HabboPacket.FString s =>
      encoded ← Py.utf8_encode s;
      hdr ← Struct.pack_H (Py.len encoded);
      Some (hdr ++ encoded)
  | HabboPacket.FShort v => Struct.pack_H v
  | HabboPacket.FInteger v => Struct.pack_i v
  | HabboPacket.FBoolean b => Some (Struct.pack_bool b)
  | HabboPacket.FByte v => Struct.pack_B v
  end.

Definition nonneg_integer (f : HabboPacket.field) : Prop :=
  match f with
  | HabboPacket.FInteger v => 0 <= v
  | _ => True
  end.

End Buffer.

(** [_receive_packet] once the [length] bytes of a frame are in [data]:
    [packet_id = struct.unpack('>H', data[:2])], [payload = data[2:]]. *)
Definition split_frame (data : list Z) : option (Z * list Z) :=
  packet_id ← Struct.unpack_H (Py.slice data 0 2);
  Some (packet_id, Py.slice_from data 2).

(** Parse what the builder emitted, minus the 4-byte length prefix, as
    [{id, body}] and read the fields back in the order written. *)
Definition parse_frame (emitted : list Z) (fs : list HabboPacket.field)
  : option (Z * list Buffer.value) :=
  '(packet_id, payload) ← split_frame (Py.slice_from emitted 4);
  Some (packet_id, Buffer.read_fields (Buffer.new payload) fs).

Definition round_trip (packet_id : Z) (fs : list HabboPacket.field)
  : option (Z * list Buffer.value) :=
  emitted ← HabboPacket.build packet_id fs;
  parse_frame emitted fs.

(** * RSA helpers: src/habbo_client.py and src/crypto.py *)

Module Rsa.

(** The public key object: [RSA.construct((n, e))] admits positive
    components only. *)
Record key := mk { n : positive; e : positive }.

(** [v.bit_length()]. *)
Definition bit_length (v : Z) : Z :=
  if v =? 0 then 0 else Z.log2 (Z.abs v) + 1.

(** [(rsa_key.n.bit_length() + 7) // 8]. *)
Definition rsa_key_size (k : key) : Z := (bit_length (Z.pos (n k)) + 7) / 8.

(** [pow(b, e, n)] by square and multiply (lemma [pow_mod_spec] relates
    it to [b ^ e mod n]). *)
Fixpoint pow_mod (b : Z) (e : positive) (n : Z) : Z :=
  match e with
  | xH => b mod n
  | xO e' => let r := pow_mod b e' n in (r * r) mod n
  | xI e' => let r := pow_mod b e' n in ((r * r) mod n * b) mod n
  end.

(** [v.to_bytes(size, 'big')]: [OverflowError] when [v] is negative or
    does not fit. *)
Definition to_bytes (v : Z) (size : Z) : option (list Z) :=
  if (0 <=? v) && (v <? 256 ^ size) then Some (Struct.be_encode (Z.to_nat size) v)
  else None.

(** [int.from_bytes(bs, 'big')]. *)
Definition from_bytes (bs : list Z) : Z := Struct.be_decode bs.

(** The padding loop of [_rsa_pad_and_encrypt].  [rand] is the sequence
    of bytes that successive [secrets.token_bytes(1)] calls return; the
    loop keeps the non-zero ones until [ps_len] are collected.  [None]
    only means that the given sequence was too short to finish the loop. *)
Fixpoint fill_padding (rand : list Z) (padding_string : list Z) (ps_len : Z)
  : option (list Z) :=
  if Py.len padding_string <? ps_len then
    match rand with
    | [] => None
    | rand_byte :: rand' =>
        if rand_byte =? 0 then fill_padding rand' padding_string ps_len
        else fill_padding rand' (padding_string ++ [rand_byte]) ps_len
    end
  else Some padding_string.

(** The padded block [00 02 PS 00 m]. *)
Definition padded_message (padding_string message_bytes : list Z) : list Z :=
  [0; 2] ++ padding_string ++ [0] ++ message_bytes.

(** [HabboClientGUI._rsa_pad_and_encrypt]; [None] is the [ValueError]
    for a message that is too long. *)
Definition _rsa_pad_and_encrypt (k : key) (message_bytes : list Z) (rand : list Z)
  : option Py.str :=
  let ps_len := rsa_key_size k - Py.len message_bytes - 3 in
  if ps_len <? 8 then None
  else
    padding_string ← fill_padding rand [] ps_len;
    let padded_message_int := from_bytes (padded_message padding_string message_bytes) in
    let encrypted_int := pow_mod padded_message_int (e k) (Z.pos (n k)) in
    Py.hex <$> to_bytes encrypted_int (rsa_key_size k).

(** The [try] block of [_rsa_verify_and_unpad], on the decrypted block:
    any exception in it becomes [ValueError("RSA Error")]. *)
Definition unpad_block (padded_block : list Z) : option Z :=
  separator_idx ← Py.bytes_index padded_block 0 2;
  let message_bytes := Py.slice_from padded_block (separator_idx + 1) in
  s ← Py.ascii_decode message_bytes;
  Py.int 10 s.

(** [HabboClientGUI._rsa_verify_and_unpad]; [None] is a [ValueError]. *)
Definition _rsa_verify_and_unpad (k : key) (encrypted_hex : Py.str) : option Z :=
  encrypted_int ← Py.int 16 encrypted_hex;
  let decrypted_int := pow_mod encrypted_int (e k) (Z.pos (n k)) in
  padded_block ← to_bytes decrypted_int (rsa_key_size k);
  unpad_block padded_block.

(** src/crypto.py, the prefix test of
    [rsa_pkcs1_v1_5_verify_and_unpad]: where the separator search starts. *)
Definition prefix_offset (padded_block : list Z) : option Z :=
  if Py.startswith padded_block [0; 1] then Some 2
  else if Py.startswith padded_block [1] then Some 1
  else None.

Definition unpad_block_checked (padded_block : list Z) : option (Z * list Z) :=
  offset ← prefix_offset padded_block;
  separator_idx ← Py.bytes_index padded_block 0 offset;
  let message_bytes := Py.slice_from padded_block (separator_idx + 1) in
  s ← Py.ascii_decode message_bytes;
  final_int ← Py.int 10 s;
  Some (final_int, message_bytes).

(** src/crypto.py [rsa_pkcs1_v1_5_verify_and_unpad]: returns
    [(final_int, decrypted_int, message_bytes)]; [None] is a raised
    exception. *)
Definition rsa_pkcs1_v1_5_verify_and_unpad (encrypted_hex : Py.str) (rsa_key : key)
  : option (Z * Z * list Z) :=
  encrypted_int ← Py.int 16 encrypted_hex;
  let rsa_key_size := (bit_length (Z.pos (n rsa_key)) + 7) / 8 in
  let decrypted_int := pow_mod encrypted_int (e rsa_key) (Z.pos (n rsa_key)) in
  padded_block ← to_bytes decrypted_int rsa_key_size;
  '(final_int, message_bytes) ← unpad_block_checked padded_block;
  Some (final_int, decrypted_int, message_bytes).

(** src/constants.py *)
Definition RSA_MODULUS_HEX : Py.str := Py.lit
  "C5DFF029848CD5CF4A84ADEFB2DA6685704920D5EBE8850B82C419A97B95302DE3B8021F37719FEBD4B3516E04D1E4702E74C468C9FF4BBBB5DD44A1E3A08687EDBEF7C30A176F7C8C83226A77F7982F7442D884D8149E924C486F43035C07B9167EA998416919DA4116D5E0598C11BA1542B4160136F04135C06EDF80170245E73C0DAD63895F52DCED3735582C5852744C8EC40AF576F26A9C8DC5B64ED3DAD40EFAAC6A76A1F5C2A422A8A4691F8991356467BDA61E1D34D0F35531058C8F741E4661ACFCB15C806A996AC312A8D33BF45079B89E11787537B37364749B883BDBFDE51A1A55086CF16159F5DEBCC76342AC2EF6950DA0C70C5845C97DFD49".
Definition RSA_EXPONENT_HEX : Py.str := Py.lit "10001".

(** [self.rsa_key] as built in [HabboClientGUI.__init__]. *)
Definition rsa_key : key :=
  Eval vm_compute in
  {| n := Z.to_pos (default 1 (Py.int 16 RSA_MODULUS_HEX));
     e := Z.to_pos (default 1 (Py.int 16 RSA_EXPONENT_HEX)) |}.

(** The round trip of the RSA scenario: pad and encrypt, then verify and
    unpad what came out, both under the same public key. *)
Definition round_trip (k : key) (message_bytes rand : list Z) : option Z :=
  encrypted_hex ← _rsa_pad_and_encrypt k message_bytes rand;
  _rsa_verify_and_unpad k encrypted_hex.

(** Value of a string of decimal digits. *)
Definition digits_value (s : Py.str) : Z :=
  fold_left (fun acc c => acc * 10 + (c - 48)) s 0.

Definition is_digits (s : Py.str) : Prop :=
  s ≠ [] ∧ Forall (fun c => 48 <= c <= 57) s.

Definition is_bytes (bs : list Z) : Prop := Forall (fun b => 0 <= b < 256) bs.

(** [pow_mod] on machine-word integers, for running it on 2048-bit
    operands (lemma [pow_mod_by_big]). *)
Fixpoint pow_mod_big (b : bigZ) (e : positive) (n : bigZ) : bigZ :=
  match e with
  | xH => BigZ.modulo b n
  | xO e' => let r := pow_mod_big b e' n in BigZ.modulo (BigZ.mul r r) n
  | xI e' =>
      let r := pow_mod_big b e' n in
      BigZ.modulo (BigZ.mul (BigZ.modulo (BigZ.mul r r) n) b) n
  end.

(** Data of the examples.  A small key pair whose private exponent is
    known (n = (2^61 - 1)(2^89 - 1), 19 bytes), to play the peer. *)
Definition toy_key : key :=
  {| n := 1427247692705959880439315947500961989719490561; e := 65537 |}.
Definition toy_private_exponent : positive :=
  740443132154395775117746638826656402702473.

(** What the peer sends for the block [b0 b1 FF..FF 00 digits]: the
    block under the private exponent, as hex. *)
Definition peer_hex (b0 b1 : Z) (digits : Py.str) : Py.str :=
  let size := rsa_key_size toy_key in
  let block := [b0; b1] ++ replicate (Z.to_nat (size - Py.len digits - 3)) 255
               ++ [0] ++ digits in
  Py.hex (Struct.be_encode (Z.to_nat size)
            (pow_mod (from_bytes block) toy_private_exponent (Z.pos (n toy_key)))).

Definition msg_12345 : list Z := Py.lit "12345".
Definition rand_ff : list Z := replicate 300 255.


(** The scenario under the configured key: message "12345", padding
    bytes all FF.  [ce_cipher] is the padded block raised to [e], and
    [ce_image] is [ce_cipher] raised to [e] again (lemmas [ce_encrypt],
    [ce_decrypt]). *)
Definition ce_cipher : Z :=
  22502511857695146048723733404141433650584236340141668729095080719745401355092051993409354168148837784148390662089791038116019745116416368864959749228986148316304419826764016793843094006337612740178649838092488886403891799797149843550438138348907642951713647043281239594729238148174004248783661667495889687864972320272442074039644469616380257511999244446212603057884053100100085545755779554792020150758245010976725326386782806618645343468298354797123396715687713681466121207366968948911922389587150050430746273231356429861849976913819500983886325704153565220180639250061127689731735562272737628460781591002544870602219.
Definition ce_image : Z :=
  4772111604063148947428301850051600742020642227670205110613146730155300631859200691889342559041232469955445513402984664963932028750811449593287127998597491134009751170144504331992222538121102601819623786581121039451417098203840741664872218118938277573291821909776725440120963214884978289207361555685408056452155440841338915886065664656768605678117067968256668425513111227169144379054484773213641038398061823924523823933185294689575536042034139098624999462493517887996170887789766031010660729169672188593864340933029450504790467310696413860559438841947581163000679280450135262082421133066373376191513445777613418381389.

End Rsa.

(** * src/room_map.py and the geometry parsers of src/parsers.py *)

(** Exceptions the modelled code raises or lets escape. *)
Inductive exn :=
| BanDetectedException
| ConnectionError
| IndexError
| OtherException.

Module Room.

(** [RoomMap]; the legacy attribute [map] is never read or written
    again and is left out.  A height is [(v & 0x3FFF) / 256.0], a
    multiple of 1/256 below 64 and so exact in binary floating point:
    it is kept as that rational. *)
Record RoomMap := mk {
  width : Z;
  height : Z;
  floor_map : list (list Py.str);
  tile_heights : list (list Q);
  stacking_blocked : list (list bool);
  is_room_tile : list (list bool);
  door_x : Z;
  door_y : Z
}.

(** [RoomMap()]. *)
Definition new : RoomMap :=
  {| width := 0; height := 0; floor_map := []; tile_heights := [];
     stacking_blocked := []; is_room_tile := []; door_x := -1; door_y := -1 |}.

Definition set_stacking_blocked (rm : RoomMap) (g : list (list bool)) : RoomMap :=
  {| width := width rm; height := height rm; floor_map := floor_map rm;
     tile_heights := tile_heights rm; stacking_blocked := g;
     is_room_tile := is_room_tile rm; door_x := door_x rm; door_y := door_y rm |}.

Definition set_is_room_tile (rm : RoomMap) (g : list (list bool)) : RoomMap :=
  {| width := width rm; height := height rm; floor_map := floor_map rm;
     tile_heights := tile_heights rm; stacking_blocked := stacking_blocked rm;
     is_room_tile := g; door_x := door_x rm; door_y := door_y rm |}.

Definition set_tile_heights (rm : RoomMap) (g : list (list Q)) : RoomMap :=
  {| width := width rm; height := height rm; floor_map := floor_map rm;
     tile_heights := g; stacking_blocked := stacking_blocked rm;
     is_room_tile := is_room_tile rm; door_x := door_x rm; door_y := door_y rm |}.

(** [[[v for _ in range(w)] for _ in range(h)]]. *)
Definition grid {A} (w h : Z) (v : A) : list (list A) :=
  replicate (Z.to_nat h) (replicate (Z.to_nat w) v).

Definition CR : Z := 13.
Definition x_char : Z := 120.

(** The nested [enumerate] loops that copy the rows into [floor_map];
    [floor_map[y][x] = tile_char] raises when a row is longer than row 0.
    The flag tells whether the loop ran to its end. *)
Fixpoint fill_row (fm : list (list Py.str)) (y x : Z) (row_str : Py.str)
  : list (list Py.str) * bool :=
  match row_str with
  | [] => (fm, true)
  | tile_char :: rest =>
      match Py.setitem2 fm y x [tile_char] with
      | Some fm' => fill_row fm' y (x + 1) rest
      | None => (fm, false)
      end
  end.

Fixpoint fill_rows (fm : list (list Py.str)) (y : Z) (rows : list Py.str)
  : list (list Py.str) * bool :=
  match rows with
  | [] => (fm, true)
  | row_str :: rest =>
      match fill_row fm y 0 row_str with
      | (fm', true) => fill_rows fm' (y + 1) rest
      | (fm', false) => (fm', false)
      end
  end.

(** [rows[y][x] == 'x']; [None] is [IndexError]. *)
Definition is_x (rows : list Py.str) (y x : Z) : option bool :=
  c ← Py.index2 rows y x; Some (c =? x_char).

(** [a and b and c] over tests that may raise: the later ones are only
    evaluated when the earlier ones hold. *)
Definition and3 (a b c : option bool) : option bool :=
  match a with
  | None => None
  | Some false => Some false
  | Some true =>
      match b with
      | None => None
      | Some false => Some false
      | Some true => c
      end
  end.

(** The [try] block of the door scan at cell [(x, y)]: [Some dir] when
    a pattern matches, [None] when neither does or when an access
    raised [IndexError] (the handler just continues). *)
Definition door_check (rows : list Py.str) (y x : Z) : option Z :=
  match and3 (is_x rows (y - 1) x) (is_x rows y (x - 1)) (is_x rows (y + 1) x) with
  | None => None
  | Some true => Some 90
  | Some false =>
      match and3 (is_x rows (y - 1) x) (is_x rows y (x - 1)) (is_x rows y (x + 1)) with
      | None => None
      | Some true => Some 180
      | Some false => None
      end
  end.

(** [floor_map[y][x]] inside the grid that was just built. *)
Definition cell (fm : list (list Py.str)) (y x : Z) : Py.str :=
  default [] (Py.index2 fm y x).

(** The inner [for x] loop: the first matching cell of row [y]. *)
Fixpoint scan_row (rows : list Py.str) (fm : list (list Py.str)) (y : Z) (xs : list Z)
  : option (Z * Z * Z) :=
  match xs with
  | [] => None
  | x :: xs' =>
      if Py.eqb (Py.lower (cell fm y x)) [x_char] then scan_row rows fm y xs'
      else
        match door_check rows y x with
        | Some door_dir => Some (x, y, door_dir)
        | None => scan_row rows fm y xs'
        end
  end.

(** What the body of the inner loop tests at [(x, y)] before it sets the
    door: the cell of the character grid is not 'x' (in either case) and
    one of the two gap patterns matches without raising. *)
Definition door_candidate (rows : list Py.str) (fm : list (list Py.str)) (y x : Z) : bool :=
  negb (Py.eqb (Py.lower (cell fm y x)) [x_char]) &&
  match door_check rows y x with Some _ => true | None => false end.

(** The outer [for y] loop, left as soon as a row produced a door. *)
Fixpoint scan_rows (rows : list Py.str) (fm : list (list Py.str)) (w : Z) (ys : list Z)
  : Z * Z * Z :=
  match ys with
  | [] => (-1, -1, 0)
  | y :: ys' =>
      match scan_row rows fm y (Py.range w) with
      | Some d => d
      | None => scan_rows rows fm w ys'
      end
  end.

(** The head of [parse_floor_height_map]: read the three fields and
    split the stripped map text at carriage returns. *)
Definition read_rows (payload : list Z) : list Py.str :=
  let buf := Buffer.new payload in
  let '(_use_legacy_parser, buf) := Buffer.read_boolean buf in
  let '(_wall_height, buf) := Buffer.read_integer buf in
  let '(map_string, buf) := Buffer.read_string buf in
  Py.split CR (Py.strip map_string).

(** [parse_floor_height_map(payload, room_map)]: the map as the call
    leaves it and the exception that escaped, if any. *)
Definition parse_floor_height_map (payload : list Z) (room_map : RoomMap)
  : RoomMap * option exn :=
  let rows := read_rows payload in
  let h := Py.len rows in
  let w := if h >? 0 then Py.len (default [] (Py.index rows 0)) else 0 in
  match fill_rows (grid w h []) 0 rows with
  | (fm, false) =>
      ({| width := w; height := h; floor_map := fm;
          tile_heights := tile_heights room_map;
          stacking_blocked := stacking_blocked room_map;
          is_room_tile := is_room_tile room_map;
          door_x := door_x room_map; door_y := door_y room_map |},
       Some IndexError)
  | (fm, true) =>
      let door := scan_rows rows fm w (Py.range h) in
      ({| width := w; height := h; floor_map := fm;
          tile_heights := grid w h (0 # 1)%Q;
          stacking_blocked := grid w h false;
          is_room_tile := grid w h false;
          door_x := door.1.1; door_y := door.1.2 |},
       None)
  end.

Definition STACKING_BLOCKED_MASK : Z := Z.shiftl 1 14.
Definition ROOM_TILE_MASK : Z := Z.shiftl 1 9.

(** How one iteration of the inner loop of [parse_height_map] ends. *)
Inductive step := Next | Break | Raise.

(** The body of the inner loop at [(x, y)]; the three grid stores
    happen in the source's order, each may raise [IndexError]. *)
Definition height_cell (raw_map_data : list Z) (w : Z) (rm : RoomMap) (y x : Z)
  : RoomMap * step :=
  let index := (y * w + x) * 2 in
  if index + 2 >? Py.len raw_map_data then (rm, Break)
  else
    match Struct.unpack_h (Py.slice raw_map_data index (index + 2)) with
    | None => (rm, Raise)
    | Some tile_value =>
        match Py.setitem2 (stacking_blocked rm) y x
                (negb (Z.land tile_value STACKING_BLOCKED_MASK =? 0)) with
        | None => (rm, Raise)
        | Some sb =>
            let rm := set_stacking_blocked rm sb in
            match Py.setitem2 (is_room_tile rm) y x
                    (Z.land tile_value ROOM_TILE_MASK =? 0) with
            | None => (rm, Raise)
            | Some rt =>
                let rm := set_is_room_tile rm rt in
                match Py.setitem2 (tile_heights rm) y x
                        (Z.land tile_value 16383 # 256)%Q with
                | None => (rm, Raise)
                | Some th => (set_tile_heights rm th, Next)
                end
            end
        end
    end.

(** Inner loop: [true] when it ended normally or by [break]. *)
Fixpoint height_row (raw_map_data : list Z) (w : Z) (rm : RoomMap) (y : Z) (xs : list Z)
  : RoomMap * bool :=
  match xs with
  | [] => (rm, true)
  | x :: xs' =>
      match height_cell raw_map_data w rm y x with
      | (rm', Next) => height_row raw_map_data w rm' y xs'
      | (rm', Break) => (rm', true)
      | (rm', Raise) => (rm', false)
      end
  end.

Fixpoint height_rows (raw_map_data : list Z) (w : Z) (rm : RoomMap) (ys : list Z)
  : RoomMap * bool :=
  match ys with
  | [] => (rm, true)
  | y :: ys' =>
      match height_row raw_map_data w rm y (Py.range w) with
      | (rm', true) => height_rows raw_map_data w rm' ys'
      | (rm', false) => (rm', false)
      end
  end.

(** [parse_height_map(payload, room_map)]. *)
Definition parse_height_map (payload : list Z) (room_map : RoomMap)
  : RoomMap * option exn :=
  let w := width room_map in
  let h := height room_map in
  if (w =? 0) || (h =? 0) then (room_map, None)
  else
    let expected_size := w * h * 2 in
    let raw_map_data :=
      if negb (Py.len payload =? expected_size) then Py.slice payload 0 expected_size
      else payload in
    match height_rows raw_map_data w room_map (Py.range h) with
    | (rm, true) => (rm, None)
    | (rm, false) => (rm, Some IndexError)
    end.

(** A grid of [h] rows of [w] cells. *)
Definition dims_ok {A} (w h : Z) (g : list (list A)) : Prop :=
  Py.len g = h ∧ Forall (fun r => Py.len r = w) g.

(** The three grids the height map writes have the map's dimensions. *)
Definition grids_ok (rm : RoomMap) : Prop :=
  dims_ok (width rm) (height rm) (stacking_blocked rm) ∧
  dims_ok (width rm) (height rm) (is_room_tile rm) ∧
  dims_ok (width rm) (height rm) (tile_heights rm).

(** What the height-map loops keep: dimensions, floor map and door. *)
Definition same_frame (rm rm' : RoomMap) : Prop :=
  width rm' = width rm ∧ height rm' = height rm ∧ floor_map rm' = floor_map rm ∧
  door_x rm' = door_x rm ∧ door_y rm' = door_y rm.

(** [RoomMap.is_walkable(x, y)]; [None] is the [IndexError] of a grid
    access. *)
Definition is_walkable (rm : RoomMap) (x y : Z) : option bool :=
  if negb ((0 <=? x) && (x <? width rm) && ((0 <=? y) && (y <? height rm))) then Some false
  else
    tile ← Py.index2 (floor_map rm) y x;
    if Py.eqb (Py.lower tile) [x_char] then Some false
    else
      blocked ← Py.index2 (stacking_blocked rm) y x;
      if (blocked : bool) then Some false else Some true.

(** [RoomMap.is_valid()]. *)
Definition is_valid (rm : RoomMap) : bool := (width rm >? 0) && (height rm >? 0).

(** [RoomMap.get_tile_height(x, y)]. *)
Definition get_tile_height (rm : RoomMap) (x y : Z) : option Q :=
  if negb ((0 <=? x) && (x <? width rm) && ((0 <=? y) && (y <? height rm)))
  then Some (0 # 1)%Q
  else Py.index2 (tile_heights rm) y x.

(** The two loops of [get_walkable_tiles], appending to
    [walkable_tiles]. *)
Fixpoint walkable_row (rm : RoomMap) (y : Z) (xs : list Z) (walkable_tiles : list (Z * Z))
  : option (list (Z * Z)) :=
  match xs with
  | [] => Some walkable_tiles
  | x :: xs' =>
      match is_walkable rm x y with
      | None => None
      | Some true => walkable_row rm y xs' (walkable_tiles ++ [(x, y)])
      | Some false => walkable_row rm y xs' walkable_tiles
      end
  end.

Fixpoint walkable_rows (rm : RoomMap) (ys : list Z) (walkable_tiles : list (Z * Z))
  : option (list (Z * Z)) :=
  match ys with
  | [] => Some walkable_tiles
  | y :: ys' =>
      match walkable_row rm y (Py.range (width rm)) walkable_tiles with
      | None => None
      | Some walkable_tiles => walkable_rows rm ys' walkable_tiles
      end
  end.

(** [RoomMap.get_walkable_tiles()]. *)
Definition get_walkable_tiles (rm : RoomMap) : option (list (Z * Z)) :=
  match floor_map rm, stacking_blocked rm with
  | [], _ | _, [] => Some []
  | _, _ => walkable_rows rm (Py.range (height rm)) []
  end.

(** A map whose floor grid and height-map grids all have its
    dimensions. *)
Definition map_ok (rm : RoomMap) : Prop :=
  dims_ok (width rm) (height rm) (floor_map rm) ∧ grids_ok rm.

(** The 16-bit value of tile [(x, y)] in height-map data for a map [w]
    tiles wide: the signed big-endian integer at offset
    [(y * w + x) * 2]. *)
Definition tile_value (raw_map_data : list Z) (w y x : Z) : option Z :=
  Struct.unpack_h (Py.slice raw_map_data ((y * w + x) * 2) ((y * w + x) * 2 + 2)).

(** The entries of the three height-map grids at [(x, y)]. *)
Definition tile_at (rm : RoomMap) (y x : Z) : option bool * option bool * option Q :=
  (Py.index2 (stacking_blocked rm) y x, Py.index2 (is_room_tile rm) y x,
   Py.index2 (tile_heights rm) y x).

(** What the inner loop of [parse_height_map] stores for a tile value. *)
Definition tile_flags (tile_value : Z) : option bool * option bool * option Q :=
  (Some (negb (Z.land tile_value STACKING_BLOCKED_MASK =? 0)),
   Some (Z.land tile_value ROOM_TILE_MASK =? 0),
   Some (Z.land tile_value 16383 # 256)%Q).

Definition decoded_tile (raw_map_data : list Z) (w y x : Z)
  : option bool * option bool * option Q :=
  match tile_value raw_map_data w y x with
  | Some v => tile_flags v
  | None => (None, None, None)
  end.

(** The floor-height-map body [{bool}{i32}{string map_text}] for a map
    text, as a server would frame it. *)
Definition floor_payload (map_text : Py.str) : list Z :=
  [0] ++ Struct.be_encode 4 0
  ++ Struct.be_encode 2 (Py.len (default [] (Py.utf8_encode map_text)))
  ++ default [] (Py.utf8_encode map_text).

Definition scenario_map : Py.str :=
  Py.lit "xxxxx" ++ [CR] ++ Py.lit "x0000" ++ [CR] ++ Py.lit "x000x" ++ [CR] ++ Py.lit "xxxxx".

End Room.

(** * The remaining parsers of src/parsers.py *)

Module Parsers.

Record NavigatorRoom := mkNavigatorRoom {
  flat_id : Z;
  room_name : Py.str;
  owner_name : Py.str;
  user_count : Z;
  max_user_count : Z;
  description : Py.str
}.

Record HabboUser := mkHabboUser {
  web_id : Z;
  name : Py.str;
  motto : Py.str;
  figure : Py.str;
  room_index : Z;
  x : Z;
  y : Z;
  z : Py.str;
  gender : Py.str;
  group_name : Py.str;
  achievement_score : Z
}.

Record UserObject := mkUserObject {
  user_id : Z;
  uo_name : Py.str;
  last_access_date : Py.str;
  name_change_allowed : bool
}.

(** [for _ in range(count): body], threading the reader and an
    accumulator. *)
Fixpoint repeat_read {A} (count : nat) (body : Buffer.t -> A -> Buffer.t * A)
  (buf : Buffer.t) (acc : A) : Buffer.t * A :=
  match count with
  | O => (buf, acc)
  | S count' => let '(buf, acc) := body buf acc in repeat_read count' body buf acc
  end.

Definition skip_string (buf : Buffer.t) (acc : unit) : Buffer.t * unit :=
  ((Buffer.read_string buf).2, acc).

(** One room entry of a navigator block. *)
Definition parse_navigator_room (buf : Buffer.t) (results : list NavigatorRoom)
  : Buffer.t * list NavigatorRoom :=
  let '(flat_id, buf) := Buffer.read_integer buf in
  let '(room_name, buf) := Buffer.read_string buf in
  let '(owner_id, buf) := Buffer.read_integer buf in
  let '(owner_name, buf) := Buffer.read_string buf in
  let '(door_mode, buf) := Buffer.read_integer buf in
  let '(user_count, buf) := Buffer.read_integer buf in
  let '(max_user_count, buf) := Buffer.read_integer buf in
  let '(description, buf) := Buffer.read_string buf in
  let '(trade_mode, buf) := Buffer.read_integer buf in
  let '(score, buf) := Buffer.read_integer buf in
  let '(ranking, buf) := Buffer.read_integer buf in
  let '(category_id, buf) := Buffer.read_integer buf in
  let '(tag_count, buf) := Buffer.read_integer buf in
  let '(buf, _) := repeat_read (Z.to_nat tag_count) skip_string buf () in
  let '(bitmask, buf) := Buffer.read_integer buf in
  let buf := if Z.land bitmask 1 >? 0 then (Buffer.read_string buf).2 else buf in
  let buf :=
    if Z.land bitmask 2 >? 0 then
      let '(_, buf) := Buffer.read_integer buf in
      let '(_, buf) := Buffer.read_string buf in
      (Buffer.read_string buf).2
    else buf in
  let buf :=
    if Z.land bitmask 4 >? 0 then
      let '(_, buf) := Buffer.read_string buf in
      let '(_, buf) := Buffer.read_string buf in
      (Buffer.read_integer buf).2
    else buf in
  (buf, results ++ [mkNavigatorRoom flat_id room_name owner_name user_count
                      max_user_count description]).

Definition parse_navigator_block (buf : Buffer.t) (results : list NavigatorRoom)
  : Buffer.t * list NavigatorRoom :=
  let '(_category_code, buf) := Buffer.read_string buf in
  let '(_category_text, buf) := Buffer.read_string buf in
  let '(_action_allowed, buf) := Buffer.read_integer buf in
  let '(_is_collapsed, buf) := Buffer.read_boolean buf in
  let '(_view_mode, buf) := Buffer.read_integer buf in
  let '(room_count, buf) := Buffer.read_integer buf in
  repeat_read (Z.to_nat room_count) parse_navigator_room buf results.

Definition parse_navigator_search_result (payload : list Z) : list NavigatorRoom :=
  let buf := Buffer.new payload in
  let '(_search_code, buf) := Buffer.read_string buf in
  let '(_search_text, buf) := Buffer.read_string buf in
  let '(block_count, buf) := Buffer.read_integer buf in
  (repeat_read (Z.to_nat block_count) parse_navigator_block buf []).2.

Definition parse_user_object (payload : list Z) : UserObject :=
  let buf := Buffer.new payload in
  let '(user_id, buf) := Buffer.read_integer buf in
  let '(name, buf) := Buffer.read_string buf in
  let '(_, buf) := Buffer.read_string buf in
  let '(_, buf) := Buffer.read_string buf in
  let '(_, buf) := Buffer.read_integer buf in
  let '(_, buf) := Buffer.read_integer buf in
  let '(_, buf) := Buffer.read_boolean buf in
  let '(_, buf) := Buffer.read_integer buf in
  let '(_, buf) := Buffer.read_integer buf in
  let '(_, buf) := Buffer.read_boolean buf in
  let '(last_access_date, buf) := Buffer.read_string buf in
  let '(name_change_allowed, buf) := Buffer.read_boolean buf in
  mkUserObject user_id name last_access_date name_change_allowed.

Definition parse_flat_created (payload : list Z) : Z :=
  let buf := Buffer.new payload in
  let '(room_id, buf) := Buffer.read_integer buf in
  let '(_, buf) := Buffer.read_string buf in
  room_id.

Definition parse_user (buf : Buffer.t) (users : list HabboUser)
  : Buffer.t * list HabboUser :=
  let '(web_id, buf) := Buffer.read_integer buf in
  let '(name, buf) := Buffer.read_string buf in
  let '(motto, buf) := Buffer.read_string buf in
  let '(figure, buf) := Buffer.read_string buf in
  let '(room_index, buf) := Buffer.read_integer buf in
  let '(x, buf) := Buffer.read_integer buf in
  let '(y, buf) := Buffer.read_integer buf in
  let '(z, buf) := Buffer.read_string buf in
  let '(_body_direction, buf) := Buffer.read_integer buf in
  let '(user_type, buf) := Buffer.read_integer buf in
  if user_type =? 1 then
    let '(gender, buf) := Buffer.read_string buf in
    let '(_group_id, buf) := Buffer.read_integer buf in
    let '(_group_status, buf) := Buffer.read_integer buf in
    let '(group_name, buf) := Buffer.read_string buf in
    let '(_marker, buf) := Buffer.read_string buf in
    let '(achievement_score, buf) := Buffer.read_integer buf in
    let '(_is_moderator, buf) := Buffer.read_boolean buf in
    (buf, users ++ [mkHabboUser web_id name motto figure room_index x y z
                      gender group_name achievement_score])
  else
    (buf, users ++ [mkHabboUser web_id name motto figure room_index x y z [] [] 0]).

Definition parse_users (payload : list Z) : list HabboUser :=
  let buf := Buffer.new payload in
  let '(count, buf) := Buffer.read_integer buf in
  (repeat_read (Z.to_nat count) parse_user buf []).2.

Definition parse_user_remove (payload : list Z) : Py.str :=
  (Buffer.read_string (Buffer.new payload)).1.

Definition parse_flood_control (payload : list Z) : Z :=
  (Buffer.read_integer (Buffer.new payload)).1.

End Parsers.

(** * src/constants.py and src/composers.py, as far as the dispatcher
      uses them *)

Module Incoming.
Definition SERVER_INIT_DIFFIE_HANDSHAKE : Z := 503.
Definition SERVER_COMPLETE_DIFFIE_HANDSHAKE : Z := 3722.
Definition AUTHENTICATION_OK : Z := 115.
Definition PING : Z := 2829.
Definition FLOOD_CONTROL : Z := 1475.
Definition USERS : Z := 2887.
Definition USER_REMOVE : Z := 1069.
Definition FLOOR_HEIGHT_MAP : Z := 590.
Definition HEIGHT_MAP : Z := 3055.
Definition NAVIGATOR_SEARCH_RESULT_BLOCKS : Z := 537.
Definition FLAT_CREATED : Z := 379.
Definition USER_OBJECT : Z := 1157.
End Incoming.

Module Outgoing.
Definition PONG : Z := 2418.
Definition UPDATE_HOME_ROOM : Z := 763.
Definition AVATAR_EFFECT_SELECTED : Z := 2538.
Definition MOVE_AVATAR : Z := 1551.
End Outgoing.

Definition ADMINS : list Py.str :=
  Py.lit <$> ["noodlesoup"; "knitty"; "GentleTeapot"; "TheWeatherFrog"; "Alyx_Staff";
              "Amaiazing"; "WaltzMatilda"; "sparkaro"; "Guaja"; "Truculencia"; "istanbul";
              "Olsoweir"; "Natunen"; "-LittleMin"; "PrincessTwinkle"]%string.

Definition compose_pong : option HabboPacket.t := HabboPacket.new Outgoing.PONG [].

Definition compose_update_home_room (room_id : Z) : option HabboPacket.t :=
  packet ← HabboPacket.new Outgoing.UPDATE_HOME_ROOM [];
  HabboPacket.write_integer packet room_id.

Definition compose_move_avatar (x y : Z) : option HabboPacket.t :=
  packet ← HabboPacket.new Outgoing.MOVE_AVATAR [];
  packet ← HabboPacket.write_integer packet x;
  HabboPacket.write_integer packet y.

(** * src/habbo_client.py: session state, send path and dispatcher *)

Module Client.

Import Parsers.

(** Threads the dispatcher starts with [threading.Thread(...).start()]. *)
Inductive thread := NuxFlowThread | QuitRoomThread.

(** What the session does to its surroundings, in order: calls of the
    logger, of the status observer and of the navigator callback, and
    thread starts. *)
Inductive event :=
| Log (msg : string)
| LogDisconnect (reason_id : Z) (reason_str : string)
| LogFlood (seconds : Z)
| Status (s : string)
| Navigator (rooms : list NavigatorRoom)
| Spawn (t : thread).

(** The socket object: [broken] tells that a write on it raises, and
    [accepts] bounds the bytes of that write which went out before it
    raised ([sendall] gives no way to tell how many did). *)
Record Socket := mkSocket { broken : bool; accepts : nat }.

Definition DISCONNECT_REASONS : gmap Z string :=
  list_to_map
    [(-2, "Maintenance Break"); (0, "Logged Out"); (1, "Banned (Just Banned)");
     (10, "Banned (Still Banned)"); (2, "Concurrent Login"); (13, "Concurrent Login");
     (11, "Concurrent Login"); (18, "Concurrent Login"); (12, "Hotel Closed");
     (19, "Hotel Closed"); (20, "Incorrect Password"); (112, "Idle Timeout");
     (122, "Incompatible Client Version")]%string.

(** The attributes of [HabboClientGUI] that the listener, the send path
    and [disconnect] read or write, the bytes handed to the socket so
    far ([wire]) and the effects so far ([events]). *)
Record Session := mk {
  sock : option Socket;
  wire : list Z;
  outgoing_cipher : option ArcFour.t;
  incoming_cipher : option ArcFour.t;
  connected : bool;
  is_banned : bool;
  room_map : Room.RoomMap;
  pending_height_map_payload : option (list Z);
  users_in_room : gmap Z HabboUser;
  username : Py.str;
  _left_due_to_admin : bool;
  admin_auto_leave_enabled : bool;
  _nux_running : bool;
  _in_room_event : bool;
  last_chat_user_name : option Py.str;
  last_chat_message : option Py.str;
  last_chat_time : Z;
  events : list event
}.

Definition set_sock v (s : Session) : Session :=
  let 'mk _ a2 a3 a4 a5 a6 a7 a8 a9 a10 a11 a12 a13 a14 a15 a16 a17 a18 := s in
  mk v a2 a3 a4 a5 a6 a7 a8 a9 a10 a11 a12 a13 a14 a15 a16 a17 a18.
Definition set_wire v (s : Session) : Session :=
  let 'mk a1 _ a3 a4 a5 a6 a7 a8 a9 a10 a11 a12 a13 a14 a15 a16 a17 a18 := s in
  mk a1 v a3 a4 a5 a6 a7 a8 a9 a10 a11 a12 a13 a14 a15 a16 a17 a18.
Definition set_outgoing_cipher v (s : Session) : Session :=
  let 'mk a1 a2 _ a4 a5 a6 a7 a8 a9 a10 a11 a12 a13 a14 a15 a16 a17 a18 := s in
  mk a1 a2 v a4 a5 a6 a7 a8 a9 a10 a11 a12 a13 a14 a15 a16 a17 a18.
Definition set_connected v (s : Session) : Session :=
  let 'mk a1 a2 a3 a4 _ a6 a7 a8 a9 a10 a11 a12 a13 a14 a15 a16 a17 a18 := s in
  mk a1 a2 a3 a4 v a6 a7 a8 a9 a10 a11 a12 a13 a14 a15 a16 a17 a18.
Definition set_is_banned v (s : Session) : Session :=
  let 'mk a1 a2 a3 a4 a5 _ a7 a8 a9 a10 a11 a12 a13 a14 a15 a16 a17 a18 := s in
  mk a1 a2 a3 a4 a5 v a7 a8 a9 a10 a11 a12 a13 a14 a15 a16 a17 a18.
Definition set_room_map v (s : Session) : Session :=
  let 'mk a1 a2 a3 a4 a5 a6 _ a8 a9 a10 a11 a12 a13 a14 a15 a16 a17 a18 := s in
  mk a1 a2 a3 a4 a5 a6 v a8 a9 a10 a11 a12 a13 a14 a15 a16 a17 a18.
Definition set_pending_height_map_payload v (s : Session) : Session :=
  let 'mk a1 a2 a3 a4 a5 a6 a7 _ a9 a10 a11 a12 a13 a14 a15 a16 a17 a18 := s in
  mk a1 a2 a3 a4 a5 a6 a7 v a9 a10 a11 a12 a13 a14 a15 a16 a17 a18.
Definition set_users_in_room v (s : Session) : Session :=
  let 'mk a1 a2 a3 a4 a5 a6 a7 a8 _ a10 a11 a12 a13 a14 a15 a16 a17 a18 := s in
  mk a1 a2 a3 a4 a5 a6 a7 a8 v a10 a11 a12 a13 a14 a15 a16 a17 a18.
Definition set_username v (s : Session) : Session :=
  let 'mk a1 a2 a3 a4 a5 a6 a7 a8 a9 _ a11 a12 a13 a14 a15 a16 a17 a18 := s in
  mk a1 a2 a3 a4 a5 a6 a7 a8 a9 v a11 a12 a13 a14 a15 a16 a17 a18.
Definition set_left_due_to_admin v (s : Session) : Session :=
  let 'mk a1 a2 a3 a4 a5 a6 a7 a8 a9 a10 _ a12 a13 a14 a15 a16 a17 a18 := s in
  mk a1 a2 a3 a4 a5 a6 a7 a8 a9 a10 v a12 a13 a14 a15 a16 a17 a18.
(** [set_admin_auto_leave(b)], with [b] already a [bool]. *)
Definition set_admin_auto_leave (b : bool) (s : Session) : Session :=
  let 'mk a1 a2 a3 a4 a5 a6 a7 a8 a9 a10 a11 _ a13 a14 a15 a16 a17 a18 := s in
  mk a1 a2 a3 a4 a5 a6 a7 a8 a9 a10 a11 b a13 a14 a15 a16 a17 a18.
Definition set_nux_running v (s : Session) : Session :=
  let 'mk a1 a2 a3 a4 a5 a6 a7 a8 a9 a10 a11 a12 _ a14 a15 a16 a17 a18 := s in
  mk a1 a2 a3 a4 a5 a6 a7 a8 a9 a10 a11 a12 v a14 a15 a16 a17 a18.
Definition set_in_room_event v (s : Session) : Session :=
  let 'mk a1 a2 a3 a4 a5 a6 a7 a8 a9 a10 a11 a12 a13 _ a15 a16 a17 a18 := s in
  mk a1 a2 a3 a4 a5 a6 a7 a8 a9 a10 a11 a12 a13 v a15 a16 a17 a18.
Definition set_last_chat (n m : option Py.str) (t : Z) (s : Session) : Session :=
  let 'mk a1 a2 a3 a4 a5 a6 a7 a8 a9 a10 a11 a12 a13 a14 _ _ _ a18 := s in
  mk a1 a2 a3 a4 a5 a6 a7 a8 a9 a10 a11 a12 a13 a14 n m t a18.
Definition emit (ev : event) (s : Session) : Session :=
  let 'mk a1 a2 a3 a4 a5 a6 a7 a8 a9 a10 a11 a12 a13 a14 a15 a16 a17 a18 := s in
  mk a1 a2 a3 a4 a5 a6 a7 a8 a9 a10 a11 a12 a13 a14 a15 a16 a17 (a18 ++ [ev]).

(** [status_updater("Banned")] or [status_updater("Disconnected")]. *)
Definition report_status (s : Session) : Session :=
  emit (Status (if is_banned s then "Banned" else "Disconnected")%string) s.

(** [disconnect()]; [in_listener] tells whether the calling thread is
    the listener thread.  Errors of [shutdown] and [close] are
    swallowed. *)
Definition disconnect (in_listener : bool) (s : Session) : Session :=
  let was_connected := connected s in
  let s := set_connected false s in
  let s := match sock s with Some _ => set_sock None s | None => s end in
  if was_connected && negb in_listener then report_status s else s.

(** [sock.sendall(data)]: the session with what went out on the wire,
    and [false] when the write raised. *)
Definition sendall (sk : Socket) (data : list Z) (s : Session) : Session * bool :=
  if broken sk then (set_wire (wire s ++ take (accepts sk) data) s, false)
  else (set_wire (wire s ++ data) s, true).

(** The [except Exception] handler of [send_packet]. *)
Definition send_failed (in_listener : bool) (s : Session) : Session :=
  disconnect in_listener (set_connected false s).

(** [send_packet(packet)]. *)
Definition send_packet (in_listener : bool) (packet : HabboPacket.t) (s : Session)
  : Session :=
  match connected s, sock s with
  | true, Some sk =>
      match HabboPacket.get_bytes packet with
      | None => send_failed in_listener s
      | Some raw_data =>
          match outgoing_cipher s with
          | Some cipher =>
              let '(cipher', encrypted_data) := ArcFour.encrypt cipher raw_data in
              let s := set_outgoing_cipher (Some cipher') s in
              match sendall sk encrypted_data s with
              | (s', true) => s'
              | (s', false) => send_failed in_listener s'
              end
          | None =>
              match sendall sk raw_data s with
              | (s', true) => s'
              | (s', false) => send_failed in_listener s'
              end
          end
      end
  | _, _ => s
  end.

(** [_handle_disconnect_reason(payload)]: a payload that is not four
    bytes makes [struct.unpack] raise, which the handler swallows. *)
Definition _handle_disconnect_reason (payload : list Z) (s : Session)
  : Session * option exn :=
  match Struct.unpack_i payload with
  | None => (s, None)
  | Some reason_id =>
      let reason_str := default "Generic/Unknown"%string (DISCONNECT_REASONS !! reason_id) in
      let s := emit (LogDisconnect reason_id reason_str) s in
      if (reason_id =? 1) || (reason_id =? 10) then
        let s := emit (Log "BAN CONFIRMED via Packet 4000") s in
        (set_is_banned true s, Some BanDetectedException)
      else (s, None)
  end.

(** One entry of a position-update frame (id 1030). *)
Definition movement_entry (buf : Buffer.t) (users : gmap Z HabboUser)
  : Buffer.t * gmap Z HabboUser :=
  let '(index, buf) := Buffer.read_integer buf in
  let '(x, buf) := Buffer.read_integer buf in
  let '(y, buf) := Buffer.read_integer buf in
  let '(z, buf) := Buffer.read_string buf in
  let '(head, buf) := Buffer.read_integer buf in
  let '(body, buf) := Buffer.read_integer buf in
  let '(action, buf) := Buffer.read_string buf in
  (buf, alter (fun u => mkHabboUser (web_id u) (name u) (motto u) (figure u)
                          (room_index u) x y (Parsers.z u) (gender u) (group_name u)
                          (achievement_score u)) index users).

Definition is_admin (user_name : Py.str) : bool :=
  existsb (fun admin => Py.eqb (Py.lower admin) (Py.lower user_name)) ADMINS.

(** The loop body of the users-list branch. *)
Definition add_user (s : Session) (user : HabboUser) : Session :=
  let s := set_users_in_room (<[room_index user := user]> (users_in_room s)) s in
  if admin_auto_leave_enabled s && is_admin (name user) then
    if negb (_left_due_to_admin s) then
      set_left_due_to_admin true (emit (Spawn QuitRoomThread) s)
    else s
  else s.

Definition habb : Py.str := Py.lit "habb".

(** The user-object branch. *)
Definition on_user_object (payload : list Z) (s : Session) : Session :=
  let user_obj := parse_user_object payload in
  let s := set_username (uo_name user_obj) s in
  if Py.contains (Py.lower (username s)) habb && negb (_nux_running s) then
    emit (Spawn NuxFlowThread) s
  else s.

(** The floor-height-map branch. *)
Definition on_floor_height_map (payload : list Z) (s : Session) : Session * option exn :=
  let s := set_in_room_event true s in
  match Room.parse_floor_height_map payload (room_map s) with
  | (rm, Some ex) => (set_room_map rm s, Some ex)
  | (rm, None) =>
      let s := set_room_map rm s in
      match pending_height_map_payload s with
      | Some (b :: bs) =>
          match Room.parse_height_map (b :: bs) (room_map s) with
          | (rm', Some ex) => (set_room_map rm' s, Some ex)
          | (rm', None) =>
              (set_pending_height_map_payload None (set_room_map rm' s), None)
          end
      | _ => (s, None)
      end
  end.

(** The height-map branch. *)
Definition on_height_map (payload : list Z) (s : Session) : Session * option exn :=
  if Room.width (room_map s) >? 0 then
    match Room.parse_height_map payload (room_map s) with
    | (rm, ex) => (set_room_map rm s, ex)
    end
  else (set_pending_height_map_payload (Some payload) s, None).

(** The body of the [while self.connected] loop of
    [_listen_for_packets] for one received frame; [now] is the reading
    of the clock ([time.time()]) when the frame is handled, kept as an
    integer tick.  The result carries the exception that leaves the
    loop, if any.  In the user-remove branch [int()] is applied to a
    decoded string; [Py.int] follows it on ASCII digits. *)
Definition handle_packet (now : Z) (packet_id : Z) (payload : list Z) (s : Session)
  : Session * option exn :=
  if packet_id =? 1030 then
    let buf := Buffer.new payload in
    let '(count, buf) := Buffer.read_integer buf in
    let '(_, users) := repeat_read (Z.to_nat count) movement_entry buf (users_in_room s) in
    (set_users_in_room users s, None)
  else if packet_id =? 3423 then
    let buf := Buffer.new payload in
    let '(user_index, buf) := Buffer.read_integer buf in
    let '(message, buf) := Buffer.read_string buf in
    match users_in_room s !! user_index with
    | Some u => (set_last_chat (Some (name u)) (Some message) now s, None)
    | None => (s, None)
    end
  else if packet_id =? 4000 then _handle_disconnect_reason payload s
  else if packet_id =? 1510 then
    (set_is_banned true (emit (Log "BAN DETECTED via Packet 1510") s),
     Some BanDetectedException)
  else if packet_id =? Incoming.PING then
    match compose_pong with
    | Some packet => (send_packet true packet s, None)
    | None => (s, Some OtherException)
    end
  else if packet_id =? Incoming.FLOOD_CONTROL then
    (emit (LogFlood (parse_flood_control payload)) s, None)
  else if packet_id =? Incoming.USERS then
    (fold_left add_user (parse_users payload) s, None)
  else if packet_id =? Incoming.USER_OBJECT then (on_user_object payload s, None)
  else if packet_id =? Incoming.FLAT_CREATED then
    match compose_update_home_room (parse_flat_created payload) with
    | Some packet => (send_packet true packet s, None)
    | None => (s, None)
    end
  else if packet_id =? Incoming.NAVIGATOR_SEARCH_RESULT_BLOCKS then
    (emit (Navigator (parse_navigator_search_result payload)) s, None)
  else if packet_id =? Incoming.FLOOR_HEIGHT_MAP then on_floor_height_map payload s
  else if packet_id =? Incoming.HEIGHT_MAP then on_height_map payload s
  else if packet_id =? Incoming.USER_REMOVE then
    match Py.int 10 (parse_user_remove payload) with
    | Some room_index => (set_users_in_room (delete room_index (users_in_room s)) s, None)
    | None => (s, None)
    end
  else (s, None).

(** What [_receive_packet] yields to the listener: a frame, the
    [ConnectionError] of [_recv_all] (closed socket, timeout), or the
    [struct.error] of a frame too short to hold a packet id. *)
Inductive received :=
| Frame (now : Z) (packet_id : Z) (payload : list Z)
| RecvError
| RecvMalformed.

(** The [except]/[finally] part of [_listen_for_packets]. *)
Definition listener_exit (ex : option exn) (s : Session) : Session :=
  let s := match ex with
           | Some BanDetectedException => set_is_banned true s
           | Some ConnectionError => emit (Log "Socket Disconnected/Timeout") s
           | _ => s
           end in
  let s := set_connected false s in
  report_status (disconnect true s).

(** [_listen_for_packets] over the frames the socket delivers.  The
    flag is [true] when the listener has left its loop, [false] when it
    is still waiting for the next frame. *)
Fixpoint _listen_for_packets (incoming : list received) (s : Session) : Session * bool :=
  if connected s then
    match incoming with
    | [] => (s, false)
    | RecvError :: _ => (listener_exit (Some ConnectionError) s, true)
    | RecvMalformed :: _ => (listener_exit (Some OtherException) s, true)
    | Frame now packet_id payload :: rest =>
        match handle_packet now packet_id payload s with
        | (s', None) => _listen_for_packets rest s'
        | (s', Some ex) => (listener_exit (Some ex) s', true)
        end
    end
  else (listener_exit None s, true).

Definition set_incoming_cipher v (s : Session) : Session :=
  let 'mk a1 a2 a3 _ a5 a6 a7 a8 a9 a10 a11 a12 a13 a14 a15 a16 a17 a18 := s in
  mk a1 a2 a3 v a5 a6 a7 a8 a9 a10 a11 a12 a13 a14 a15 a16 a17 a18.

(** [_recv_all(n)] against [inbound], the bytes the peer has sent and
    the socket has not delivered yet: the [n] bytes read, or [None] for
    the [ConnectionError], and what is left of the stream.  The error is
    raised when the socket is gone, or when the stream ends before [n]
    bytes came ([recv] returns nothing, or times out, which is an
    [OSError]); the bytes that did come are consumed by then.  For
    [n <= 0] the loop is not entered. *)
Definition _recv_all (n : Z) (s : Session) (inbound : list Z)
  : option (list Z) * list Z :=
  if n <=? 0 then (Some [], inbound)
  else
    match sock s with
    | None => (None, inbound)
    | Some _ =>
        if n <=? Py.len inbound
        then (Some (take (Z.to_nat n) inbound), drop (Z.to_nat n) inbound)
        else (None, [])
    end.

(** [_send_plaintext_packet(packet)]: no guard on [connected], no
    cipher; a missing socket raises inside the [try] like a failed
    write. *)
Definition _send_plaintext_packet (packet : HabboPacket.t) (s : Session) : option Session :=
  data ← HabboPacket.get_bytes packet;
  Some match sock s with
       | Some sk =>
           match sendall sk data s with
           | (s', true) => s'
           | (s', false) => send_failed false s'
           end
       | None => send_failed false s
       end.

(** [_receive_packet()]: the session (its incoming cipher advances), the
    rest of the stream, and the frame [(packet_id, payload)] or the
    exception raised: [ConnectionError] from [_recv_all],
    [struct.error] (here [OtherException]) for a body shorter than its
    two-byte id. *)
Definition _receive_packet (s : Session) (inbound : list Z)
  : Session * list Z * (Z * list Z + exn) :=
  match incoming_cipher s with
  | Some cipher =>
      match _recv_all 4 s inbound with
      | (None, inbound) => (s, inbound, inr ConnectionError)
      | (Some header_enc, inbound) =>
          let '(cipher, header_dec) := ArcFour.decrypt cipher header_enc in
          let s := set_incoming_cipher (Some cipher) s in
          match Struct.unpack_I header_dec with
          | None => (s, inbound, inr OtherException)
          | Some length =>
              match _recv_all length s inbound with
              | (None, inbound) => (s, inbound, inr ConnectionError)
              | (Some body_enc, inbound) =>
                  let '(cipher, body_dec) := ArcFour.decrypt cipher body_enc in
                  let s := set_incoming_cipher (Some cipher) s in
                  match split_frame body_dec with
                  | None => (s, inbound, inr OtherException)
                  | Some frame => (s, inbound, inl frame)
                  end
              end
          end
      end
  | None =>
      match _recv_all 4 s inbound with
      | (None, inbound) => (s, inbound, inr ConnectionError)
      | (Some header, inbound) =>
          match Struct.unpack_I header with
          | None => (s, inbound, inr OtherException)
          | Some length =>
              match _recv_all length s inbound with
              | (None, inbound) => (s, inbound, inr ConnectionError)
              | (Some data, inbound) =>
                  match split_frame data with
                  | None => (s, inbound, inr OtherException)
                  | Some frame => (s, inbound, inl frame)
                  end
              end
          end
      end
  end.

(** What [_receive_packet] makes of a frame body once all of it has
    arrived. *)
Definition delivered (body : list Z) : Z * list Z + exn :=
  match split_frame body with
  | Some frame => inl frame
  | None => inr OtherException
  end.

(** [u'] is [u] at other coordinates: what a position update may do to
    a cached user. *)
Definition moved (u u' : HabboUser) : Prop :=
  ∃ x' y',
    u' = mkHabboUser (web_id u) (name u) (motto u) (figure u) (room_index u) x' y'
           (Parsers.z u) (gender u) (group_name u) (achievement_score u).

(** One pass through the [try] block of [_rand_walk]; the walker runs on
    a thread of its own.  [rx], [ry] are what the two
    [random.randint(0, 49)] calls return and [pick] is the index
    [random.choice] draws, reduced below the length of its argument.  Any
    exception is swallowed by the bare [except]. *)
Definition _rand_walk_step (walk_room_aware : bool) (rx ry : Z) (pick : nat) (s : Session)
  : Session :=
  if negb walk_room_aware then
    match compose_move_avatar rx ry with
    | Some packet => send_packet false packet s
    | None => s
    end
  else if Room.is_valid (room_map s) then
    match Room.get_walkable_tiles (room_map s) with
    | Some (tile :: tiles) =>
        match (tile :: tiles) !! (pick mod length (tile :: tiles))%nat with
        | Some (x, y) =>
            match compose_move_avatar x y with
            | Some packet => send_packet false packet s
            | None => s
            end
        | None => s
        end
    | _ => s
    end
  else s.

(** How a run of bytes looks on the inbound stream of a session: as it
    is, or XORed with the decrypt-direction keystream of the incoming
    cipher; and the incoming cipher once the run has been decrypted. *)
Definition on_wire (cipher : option ArcFour.t) (data : list Z) : list Z :=
  match cipher with
  | Some c => ArcFour.xor_bytes data (ArcFour.keystream true c (length data))
  | None => data
  end.

Definition after_run (cipher : option ArcFour.t) (data : list Z) : option ArcFour.t :=
  (fun c => (ArcFour.decrypt c data).1) <$> cipher.

(** The first statement of [_run_nux_flow], run by the started thread. *)
Definition _run_nux_flow_begin (s : Session) : Session :=
  emit (Log "Starting NUX (New User) Flow...") (set_nux_running true s).

(** The session right after authentication: attributes as
    [__init__] sets them, socket connected, [cipher] installed for
    sending. *)
Definition authenticated (cipher : option ArcFour.t) : Session :=
  {| sock := Some (mkSocket false 0); wire := []; outgoing_cipher := cipher;
     incoming_cipher := None; connected := true; is_banned := false;
     room_map := Room.new; pending_height_map_payload := None;
     users_in_room := ∅; username := Py.lit "Bot 0";
     _left_due_to_admin := false; admin_auto_leave_enabled := false;
     _nux_running := false; _in_room_event := false;
     last_chat_user_name := None; last_chat_message := None; last_chat_time := 0;
     events := [] |}.

(** A user-object body that carries the id and the name and ends
    there (the lenient readers fill in the rest). *)
Definition user_object_payload (user_id : Z) (name : Py.str) : list Z :=
  Struct.be_encode 4 user_id
  ++ Struct.be_encode 2 (Py.len (default [] (Py.utf8_encode name)))
  ++ default [] (Py.utf8_encode name).

End Client.

(** * Properties of the byte codecs *)

Section ByteFacts.

Import Struct.


Lemma be_decode_acc (bs : list Z) (acc : Z) :
  fold_left (fun a b => a * 256 + b) bs acc
  = acc * 256 ^ Z.of_nat (length bs) + be_decode bs.
Proof.
  unfold be_decode. revert acc. induction bs as [|b bs IH]; intros acc.
  - cbn. lia.
  - cbn [fold_left length]. rewrite IH, (IH (0 * 256 + b)).
    rewrite Nat2Z.inj_succ, Z.pow_succ_r by lia. lia.
Qed.

Lemma be_decode_snoc bs b : be_decode (bs ++ [b]) = be_decode bs * 256 + b.
Proof. unfold be_decode. by rewrite fold_left_app. Qed.

Lemma be_decode_cons b bs :
  be_decode (b :: bs) = b * 256 ^ Z.of_nat (length bs) + be_decode bs.
Proof.
  unfold be_decode at 1. cbn [fold_left]. rewrite be_decode_acc. lia.
Qed.

Lemma be_decode_app xs ys :
  be_decode (xs ++ ys) = be_decode xs * 256 ^ Z.of_nat (length ys) + be_decode ys.
Proof. unfold be_decode at 1. rewrite fold_left_app. apply be_decode_acc. Qed.

Lemma be_decode_bound bs :
  Forall is_byte bs -> 0 <= be_decode bs < 256 ^ Z.of_nat (length bs).
Proof.
  induction bs as [|b bs IH] using rev_ind; intros Hb.
  - cbn. lia.
  - apply Forall_app in Hb as [Hbs Hb]. rewrite Forall_singleton in Hb.
    specialize (IH Hbs). rewrite be_decode_snoc, length_app. cbn [length].
    rewrite Nat2Z.inj_add, Z.pow_add_r by lia. unfold is_byte in Hb.
    change (256 ^ Z.of_nat 1) with 256. nia.
Qed.

Lemma be_encode_length n v : length (be_encode n v) = n.
Proof.
  revert v. induction n as [|n IH]; intros v; [done|].
  cbn [be_encode]. rewrite length_app, IH. cbn. lia.
Qed.

Lemma be_encode_bytes n v : Forall is_byte (be_encode n v).
Proof.
  revert v. induction n as [|n IH]; intros v; [constructor|].
  cbn [be_encode]. apply Forall_app. split; [apply IH|].
  apply Forall_singleton. unfold is_byte. apply Z.mod_pos_bound. lia.
Qed.

(** Encoding what was decoded gives the bytes back. *)
Lemma be_encode_decode bs :
  Forall is_byte bs -> be_encode (length bs) (be_decode bs) = bs.
Proof.
  induction bs as [|b bs IH] using rev_ind; intros Hb; [done|].
  apply Forall_app in Hb as [Hbs Hb]. rewrite Forall_singleton in Hb.
  unfold is_byte in Hb.
  rewrite length_app, be_decode_snoc. cbn [length].
  replace (length bs + 1)%nat with (S (length bs)) by lia. cbn [be_encode].
  replace ((be_decode bs * 256 + b) / 256) with (be_decode bs)
    by (apply Z.div_unique with b; lia).
  replace ((be_decode bs * 256 + b) mod 256) with b
    by (apply Z.mod_unique with (be_decode bs); lia).
  by rewrite IH.
Qed.

(** Decoding what was encoded gives the value modulo [256^n]. *)
Lemma be_decode_encode n v : be_decode (be_encode n v) = v mod 256 ^ Z.of_nat n.
Proof.
  revert v. induction n as [|n IH]; intros v.
  - cbn. by rewrite Z.mod_1_r.
  - cbn [be_encode]. rewrite be_decode_snoc, IH.
    rewrite Nat2Z.inj_succ, Z.pow_succ_r by lia.
    rewrite Z.rem_mul_r by lia. lia.
Qed.

End ByteFacts.

(** * Properties of the packet codec *)

Section Utf8Facts.

Local Ltac dlia := Z.div_mod_to_equations; lia.

Lemma in_range_true lo hi b : lo <= b <= hi -> Py.in_range lo hi b = true.
Proof. intros. unfold Py.in_range. apply andb_true_iff. split; apply Z.leb_le; lia. Qed.

Lemma in_range_false lo hi b : b < lo ∨ hi < b -> Py.in_range lo hi b = false.
Proof.
  intros H. unfold Py.in_range. apply andb_false_iff.
  destruct H; [left | right]; apply Z.leb_gt; lia.
Qed.

Lemma utf8_decode_1 c rest :
  0 <= c < 128 -> Py.utf8_decode (c :: rest) = c :: Py.utf8_decode rest.
Proof. intros Hc. cbn [Py.utf8_decode]. by rewrite in_range_true by dlia. Qed.

Lemma utf8_decode_2 c rest :
  128 <= c < 2048 ->
  Py.utf8_decode ((192 + c / 64) :: (128 + c mod 64) :: rest) = c :: Py.utf8_decode rest.
Proof.
  intros Hc. cbn [Py.utf8_decode].
  rewrite (in_range_false 0 127) by dlia.
  rewrite (in_range_true 194 223) by dlia.
  unfold Py.is_cont. rewrite (in_range_true 128 191) by dlia.
  f_equal. dlia.
Qed.

Lemma utf8_decode_3 c rest :
  2048 <= c < 65536 -> ¬ (55296 <= c <= 57343) ->
  Py.utf8_decode ((224 + c / 4096) :: (128 + (c / 64) mod 64) :: (128 + c mod 64) :: rest)
  = c :: Py.utf8_decode rest.
Proof.
  intros Hc Hs. cbn [Py.utf8_decode].
  rewrite (in_range_false 0 127) by dlia.
  rewrite (in_range_false 194 223) by dlia.
  rewrite (in_range_true 224 239) by dlia.
  assert (Py.in_range (Py.second_lo (224 + c / 4096)) (Py.second_hi (224 + c / 4096))
            (128 + (c / 64) mod 64) = true) as ->.
  { unfold Py.second_lo, Py.second_hi.
    destruct (Z.eqb_spec (224 + c / 4096) 224), (Z.eqb_spec (224 + c / 4096) 237),
      (Z.eqb_spec (224 + c / 4096) 240), (Z.eqb_spec (224 + c / 4096) 244);
      apply in_range_true; dlia. }
  unfold Py.is_cont. rewrite (in_range_true 128 191) by dlia.
  f_equal. dlia.
Qed.

Lemma utf8_decode_4 c rest :
  65536 <= c < 1114112 ->
  Py.utf8_decode ((240 + c / 262144) :: (128 + (c / 4096) mod 64)
                  :: (128 + (c / 64) mod 64) :: (128 + c mod 64) :: rest)
  = c :: Py.utf8_decode rest.
Proof.
  intros Hc. cbn [Py.utf8_decode].
  rewrite (in_range_false 0 127) by dlia.
  rewrite (in_range_false 194 223) by dlia.
  rewrite (in_range_false 224 239) by dlia.
  rewrite (in_range_true 240 244) by dlia.
  assert (Py.in_range (Py.second_lo (240 + c / 262144)) (Py.second_hi (240 + c / 262144))
            (128 + (c / 4096) mod 64) = true) as ->.
  { unfold Py.second_lo, Py.second_hi.
    destruct (Z.eqb_spec (240 + c / 262144) 224), (Z.eqb_spec (240 + c / 262144) 237),
      (Z.eqb_spec (240 + c / 262144) 240), (Z.eqb_spec (240 + c / 262144) 244);
      apply in_range_true; dlia. }
  unfold Py.is_cont. rewrite !(in_range_true 128 191) by dlia.
  f_equal. dlia.
Qed.

Lemma utf8_decode_encode_cp c bs rest :
  Py.utf8_encode_cp c = Some bs ->
  Py.utf8_decode (bs ++ rest) = c :: Py.utf8_decode rest.
Proof.
  unfold Py.utf8_encode_cp.
  destruct (Z.ltb_spec c 0); [done|].
  destruct (Z.ltb_spec c 128). { intros [= <-]. by apply utf8_decode_1. }
  destruct (Z.ltb_spec c 2048). { intros [= <-]. by apply utf8_decode_2. }
  destruct (Z.ltb_spec c 65536).
  { destruct ((55296 <=? c) && (c <=? 57343)) eqn:E; [done|].
    intros [= <-]. apply utf8_decode_3; [lia|].
    intros [? ?]. apply andb_false_iff in E as [E|E]; apply Z.leb_gt in E; lia. }
  destruct (Z.ltb_spec c 1114112); [|done].
  intros [= <-]. by apply utf8_decode_4.
Qed.

(** Decoding what the encoder produced gives the string back. *)
Lemma utf8_decode_encode s bs : Py.utf8_encode s = Some bs -> Py.utf8_decode bs = s.
Proof.
  revert bs. induction s as [|c s IH]; intros bs.
  - by intros [= <-].
  - cbn [Py.utf8_encode].
    destruct (Py.utf8_encode_cp c) as [b|] eqn:Ec; [|done]. cbn [mbind option_bind].
    destruct (Py.utf8_encode s) as [bs'|]; [|done]. cbn [mbind option_bind].
    intros [= <-]. rewrite (utf8_decode_encode_cp c b bs' Ec). f_equal. by apply IH.
Qed.

End Utf8Facts.

Section PacketFacts.

Import Struct HabboPacket Buffer.

Lemma slice_mid {A} (pre mid rest : list A) k :
  Py.len mid = k ->
  Py.slice (pre ++ mid ++ rest) (Py.len pre) (Py.len pre + k) = mid.
Proof.
  intros <-. unfold Py.slice, Py.norm_bound, Py.len.
  rewrite !(proj2 (Z.ltb_ge _ 0)) by lia.
  rewrite !length_app, !Z.min_l by lia.
  replace (Z.to_nat (Z.of_nat (length pre) + Z.of_nat (length mid) - Z.of_nat (length pre)))
    with (length mid) by lia.
  rewrite Nat2Z.id, drop_app_length. apply take_app_length.
Qed.

Lemma slice_from_app {A} (pre rest : list A) :
  Py.slice_from (pre ++ rest) (Py.len pre) = rest.
Proof.
  unfold Py.slice_from, Py.norm_bound, Py.len.
  rewrite (proj2 (Z.ltb_ge _ 0)) by lia.
  rewrite length_app, Z.min_l by lia.
  by rewrite Nat2Z.id, drop_app_length.
Qed.

Lemma len_app {A} (l k : list A) : Py.len (l ++ k) = Py.len l + Py.len k.
Proof. unfold Py.len. rewrite length_app. lia. Qed.

Lemma len_be_encode n v : Py.len (be_encode n v) = Z.of_nat n.
Proof. unfold Py.len. by rewrite be_encode_length. Qed.

Lemma gtb_false a b : a <= b -> (a >? b) = false.
Proof. intros. rewrite Z.gtb_ltb. apply Z.ltb_ge. lia. Qed.

Lemma write_field_bytes p f p' :
  write_field p f = Some p' ->
  ∃ bs, field_bytes f = Some bs ∧ _id p' = _id p ∧ _buffer p' = _buffer p ++ bs.
Proof.
  destruct f as [s|v|v|b|v]; cbn [write_field field_bytes];
    unfold write_string, write_short, write_integer, write_boolean, write_byte.
  - destruct (Py.utf8_encode s) as [enc|]; [|done]. cbn [mbind option_bind].
    destruct (pack_H (Py.len enc)) as [hdr|]; [|done]. cbn [mbind option_bind].
    intros [= <-]. eexists. split; [done|]. cbn. by rewrite <- app_assoc.
  - destruct (pack_H v) as [bs|]; [|done]. intros [= <-]. eauto.
  - destruct (pack_i v) as [bs|]; [|done]. intros [= <-]. eauto.
  - intros [= <-]. eauto.
  - destruct (pack_B v) as [bs|]; [|done]. intros [= <-]. eauto.
Qed.

Lemma pack_H_inv v bs : pack_H v = Some bs -> bs = be_encode 2 v ∧ 0 <= v <= 65535.
Proof.
  unfold pack_H, Py.in_range. destruct (_ && _) eqn:E; [|done]. intros [= <-].
  apply andb_true_iff in E as [?%Z.leb_le ?%Z.leb_le]. done.
Qed.

Lemma pack_i_inv v bs :
  pack_i v = Some bs -> bs = be_encode 4 v ∧ -2147483648 <= v <= 2147483647.
Proof.
  unfold pack_i, Py.in_range. destruct (_ && _) eqn:E; [|done]. intros [= <-].
  apply andb_true_iff in E as [?%Z.leb_le ?%Z.leb_le]. done.
Qed.

Lemma pack_B_inv v bs : pack_B v = Some bs -> bs = be_encode 1 v ∧ 0 <= v <= 255.
Proof.
  unfold pack_B, Py.in_range. destruct (_ && _) eqn:E; [|done]. intros [= <-].
  apply andb_true_iff in E as [?%Z.leb_le ?%Z.leb_le]. done.
Qed.

Lemma pack_I_inv v bs : pack_I v = Some bs -> bs = be_encode 4 v ∧ 0 <= v <= 4294967295.
Proof.
  unfold pack_I, Py.in_range. destruct (_ && _) eqn:E; [|done]. intros [= <-].
  apply andb_true_iff in E as [?%Z.leb_le ?%Z.leb_le]. done.
Qed.

Lemma read_short_at buf pre rest v :
  0 <= v <= 65535 -> buf = pre ++ be_encode 2 v ++ rest ->
  read_short {| buffer := buf; pos := Py.len pre |}
  = (v, {| buffer := buf; pos := Py.len pre + 2 |}).
Proof.
  intros Hv ->. unfold read_short. cbn [buffer pos].
  rewrite gtb_false by (rewrite !len_app, len_be_encode; unfold Py.len; lia).
  rewrite slice_mid by apply len_be_encode.
  unfold unpack_H. rewrite len_be_encode. cbn [Z.eqb Z.of_nat Pos.of_succ_nat Pos.succ Pos.eqb default].
  rewrite be_decode_encode. change (256 ^ Z.of_nat 2) with 65536.
  by rewrite Z.mod_small by lia.
Qed.

Lemma read_integer_at buf pre rest v :
  buf = pre ++ be_encode 4 v ++ rest ->
  read_integer {| buffer := buf; pos := Py.len pre |}
  = (v mod 4294967296, {| buffer := buf; pos := Py.len pre + 4 |}).
Proof.
  intros ->. unfold read_integer. cbn [buffer pos].
  rewrite gtb_false by (rewrite !len_app, len_be_encode; unfold Py.len; lia).
  rewrite slice_mid by apply len_be_encode.
  unfold unpack_I. rewrite len_be_encode.
  change (Z.of_nat 4 =? 4) with true. cbn [default].
  by rewrite be_decode_encode.
Qed.

Lemma read_boolean_at buf pre rest b :
  buf = pre ++ pack_bool b ++ rest ->
  read_boolean {| buffer := buf; pos := Py.len pre |}
  = (b, {| buffer := buf; pos := Py.len pre + 1 |}).
Proof.
  intros ->. unfold read_boolean. cbn [buffer pos].
  rewrite gtb_false by (rewrite !len_app; unfold Py.len; cbn [length pack_bool]; lia).
  rewrite slice_mid by done. by destruct b.
Qed.

Lemma read_bytes_at buf pre rest v :
  0 <= v <= 255 -> buf = pre ++ be_encode 1 v ++ rest ->
  read_bytes {| buffer := buf; pos := Py.len pre |} 1
  = ([v], {| buffer := buf; pos := Py.len pre + 1 |}).
Proof.
  intros Hv ->. unfold read_bytes. cbn [buffer pos].
  rewrite slice_mid by apply len_be_encode.
  cbn [be_encode app]. by rewrite Z.mod_small by lia.
Qed.

Lemma read_string_at buf pre rest s enc :
  Py.utf8_encode s = Some enc -> 0 <= Py.len enc <= 65535 ->
  buf = pre ++ (be_encode 2 (Py.len enc) ++ enc) ++ rest ->
  read_string {| buffer := buf; pos := Py.len pre |}
  = (s, {| buffer := buf; pos := Py.len pre + (2 + Py.len enc) |}).
Proof.
  intros Henc Hlen Hbuf. unfold read_string.
  rewrite (read_short_at buf pre (enc ++ rest) (Py.len enc) Hlen)
    by (by rewrite Hbuf, <- !app_assoc).
  cbn [buffer pos].
  assert (buf = (pre ++ be_encode 2 (Py.len enc)) ++ enc ++ rest) as Hbuf'
    by (by rewrite Hbuf, <- !app_assoc).
  assert (Py.len pre + 2 = Py.len (pre ++ be_encode 2 (Py.len enc))) as Hpos
    by (by rewrite len_app, len_be_encode).
  rewrite gtb_false
    by (rewrite Hbuf', !len_app, len_be_encode; unfold Py.len; lia).
  rewrite Hpos. rewrite Hbuf' at 1. rewrite slice_mid by done.
  rewrite (utf8_decode_encode s enc Henc). do 2 f_equal.
  rewrite len_app, len_be_encode. lia.
Qed.

(** Reading a field back from where its bytes were written. *)
Lemma read_field_at f bs buf pre rest :
  field_bytes f = Some bs -> buf = pre ++ bs ++ rest ->
  read_field {| buffer := buf; pos := Py.len pre |} f
  = (read_back f, {| buffer := buf; pos := Py.len pre + Py.len bs |}).
Proof.
  intros Hbs Hbuf. destruct f as [s|v|v|b|v]; cbn [field_bytes] in Hbs;
    cbn [read_field read_back written].
  - destruct (Py.utf8_encode s) as [enc|] eqn:Henc; [|done]. cbn [mbind option_bind] in Hbs.
    destruct (pack_H (Py.len enc)) as [hdr|] eqn:Hh; [|done]. cbn [mbind option_bind] in Hbs.
    injection Hbs as <-. apply pack_H_inv in Hh as [-> Hr].
    rewrite (read_string_at buf pre rest s enc Henc Hr Hbuf).
    by rewrite len_app, len_be_encode.
  - apply pack_H_inv in Hbs as [-> Hr].
    rewrite (read_short_at buf pre rest v Hr Hbuf). by rewrite len_be_encode.
  - apply pack_i_inv in Hbs as [-> Hr].
    rewrite (read_integer_at buf pre rest v Hbuf). by rewrite len_be_encode.
  - injection Hbs as <-. by rewrite (read_boolean_at buf pre rest b Hbuf).
  - apply pack_B_inv in Hbs as [-> Hr].
    rewrite (read_bytes_at buf pre rest v Hr Hbuf). by rewrite len_be_encode.
Qed.

Lemma write_read_fields fs p p' :
  write_fields p fs = Some p' ->
  ∃ bss, _buffer p' = _buffer p ++ bss ∧ _id p' = _id p ∧
         ∀ buf pre rest, buf = pre ++ bss ++ rest ->
           read_fields {| buffer := buf; pos := Py.len pre |} fs = read_back <$> fs.
Proof.
  revert p. induction fs as [|f fs IH]; intros p Hw.
  - injection Hw as <-. exists []. by rewrite app_nil_r.
  - cbn [write_fields] in Hw.
    destruct (write_field p f) as [p1|] eqn:Hf; [|done]. cbn [mbind option_bind] in Hw.
    apply write_field_bytes in Hf as (bs & Hbs & Hid & Hbuf1).
    destruct (IH p1 Hw) as (bss & Hbuf & Hid' & Hread).
    exists (bs ++ bss). split; [by rewrite Hbuf, Hbuf1, <- app_assoc|].
    split; [congruence|]. intros buf pre rest ->.
    cbn [read_fields fmap list_fmap].
    rewrite (read_field_at f bs _ pre (bss ++ rest) Hbs) by (by rewrite <- app_assoc).
    f_equal. rewrite <- len_app. apply (Hread _ (pre ++ bs) rest).
    by rewrite <- !app_assoc.
Qed.

Lemma new_empty packet_id :
  HabboPacket.new packet_id []
  = (bs ← pack_H packet_id; Some {| _id := packet_id; _buffer := bs |}).
Proof.
  unfold HabboPacket.new, write_short. cbn [_id _buffer app write_args].
  by destruct (pack_H packet_id).
Qed.

(** The frame round trip, with [read_integer]'s unsigned reading. *)
Lemma round_trip_read_back packet_id fs emitted :
  build packet_id fs = Some emitted ->
  parse_frame emitted fs = Some (packet_id, read_back <$> fs).
Proof.
  unfold build. rewrite new_empty.
  destruct (pack_H packet_id) as [idb|] eqn:Hid; [|done]. cbn [mbind option_bind].
  apply pack_H_inv in Hid as [-> Hr].
  destruct (write_fields _ fs) as [p'|] eqn:Hw; [|done]. cbn [mbind option_bind].
  destruct (write_read_fields fs _ p' Hw) as (bss & Hbuf & _ & Hread).
  cbn [_buffer] in Hbuf. specialize (Hread bss [] [] ltac:(by rewrite app_nil_r)).
  unfold get_bytes. destruct (pack_I (Py.len (_buffer p'))) as [hdr|] eqn:Hh; [|done].
  cbn [mbind option_bind]. intros [= <-]. apply pack_I_inv in Hh as [-> _].
  unfold parse_frame.
  replace 4 with (Py.len (be_encode 4 (Py.len (_buffer p'))))
    by (by rewrite len_be_encode).
  rewrite slice_from_app. unfold split_frame. rewrite Hbuf.
  change (Py.slice (be_encode 2 packet_id ++ bss) 0 2)
    with (Py.slice ([] ++ be_encode 2 packet_id ++ bss)
            (Py.len (@nil Z)) (Py.len (@nil Z) + 2)).
  rewrite (slice_mid [] (be_encode 2 packet_id) bss 2) by apply len_be_encode.
  unfold unpack_H. rewrite len_be_encode.
  change (Z.of_nat 2 =? 2) with true. cbn [mbind option_bind].
  rewrite be_decode_encode. change (256 ^ Z.of_nat 2) with 65536.
  rewrite Z.mod_small by lia.
  replace 2 with (Py.len (be_encode 2 packet_id)) by (by rewrite len_be_encode).
  rewrite slice_from_app. unfold Buffer.new. by rewrite <- Hread.
Qed.

(** The frame round trip recovers every field whose integer is not
    negative. *)
Lemma round_trip_fields packet_id fs emitted :
  Forall nonneg_integer fs ->
  build packet_id fs = Some emitted ->
  parse_frame emitted fs = Some (packet_id, written <$> fs).
Proof.
  intros Hnn Hb. rewrite (round_trip_read_back _ _ _ Hb). do 2 f_equal.
  assert (Forall (fun f => is_Some (field_bytes f)) fs) as Hok.
  { clear -Hb. unfold build in Hb. rewrite new_empty in Hb.
    destruct (pack_H packet_id) as [idb|]; [|done]. cbn [mbind option_bind] in Hb.
    destruct (write_fields _ fs) as [p'|] eqn:Hw; [|done]. clear Hb.
    revert Hw. generalize ({| _id := packet_id; _buffer := idb |}).
    induction fs as [|f fs IH]; intros p Hw; [constructor|].
    cbn [write_fields] in Hw.
    destruct (write_field p f) as [p1|] eqn:Hf; [|done].
    apply write_field_bytes in Hf as (bs & Hbs & _). constructor; [by eexists|].
    by apply (IH p1). }
  clear Hb. induction fs as [|f fs IH]; [done|].
  inversion Hnn as [|? ? Hf Hfs]; inversion Hok as [|? ? [bs Hbs] Hoks]; subst.
  cbn [fmap list_fmap]. f_equal; [|by apply IH].
  destruct f as [s|v|v|b|v]; try done. cbn [read_back written].
  apply pack_i_inv in Hbs as [_ Hr]. cbn in Hf. by rewrite Z.mod_small by lia.
Qed.

End PacketFacts.

(** C2, the code at the failing input: the frame built with id 2538 and
    write_integer(-1) parses back to id 2538, but read_integer returns
    4294967295 for the field that was written as -1: the writer packs a
    signed i32, the reader unpacks an unsigned one. *)
Theorem C2_negative_i32_read_back :
  HabboPacket.build Outgoing.AVATAR_EFFECT_SELECTED [HabboPacket.FInteger (-1)]
  = Some [0; 0; 0; 6; 9; 234; 255; 255; 255; 255] ∧
  round_trip Outgoing.AVATAR_EFFECT_SELECTED [HabboPacket.FInteger (-1)]
  = Some (2538, [Buffer.VInteger 4294967295]) ∧
  Buffer.written (HabboPacket.FInteger (-1)) = Buffer.VInteger (-1).
Proof. by vm_compute. Qed.

(** * Properties of the cipher *)

Section ArcFourFacts.

Import ArcFour.

Lemma swap_length s i j : length (swap s i j) = length s.
Proof. unfold swap. by rewrite !length_insert. Qed.

Lemma swap_lookup s i j k :
  (Z.to_nat i < length s)%nat -> (Z.to_nat j < length s)%nat ->
  swap s i j !! k =
    s !! (if decide (k = Z.to_nat j) then Z.to_nat i
          else if decide (k = Z.to_nat i) then Z.to_nat j else k).
Proof.
  intros Hi Hj. unfold swap, get.
  destruct (decide (k = Z.to_nat j)) as [->|Hkj].
  - rewrite list_lookup_insert_eq by (by rewrite length_insert).
    symmetry. by apply list_lookup_lookup_total_lt.
  - rewrite list_lookup_insert_ne by done.
    destruct (decide (k = Z.to_nat i)) as [->|Hki].
    + rewrite list_lookup_insert_eq by done.
      symmetry. by apply list_lookup_lookup_total_lt.
    + by rewrite list_lookup_insert_ne.
Qed.

(** Exchanging two entries permutes the array. *)
Lemma swap_perm s i j :
  (Z.to_nat i < length s)%nat -> (Z.to_nat j < length s)%nat ->
  swap s i j ≡ₚ s.
Proof.
  intros Hi Hj. apply Permutation_inj. split; [apply swap_length|].
  exists (fun k => if decide (k = Z.to_nat j) then Z.to_nat i
                   else if decide (k = Z.to_nat i) then Z.to_nat j else k).
  split.
  - intros a b. repeat case_decide; intros; subst; congruence.
  - intros k. by apply swap_lookup.
Qed.

Lemma swap_ok s i j :
  sbox_ok s -> 0 <= i < 256 -> 0 <= j < 256 -> sbox_ok (swap s i j).
Proof.
  intros [Hlen Hperm] Hi Hj. split.
  - by rewrite swap_length.
  - rewrite swap_perm; [done | lia | lia].
Qed.

Lemma identity_ok : sbox_ok (seqZ 0 256).
Proof. split; [by rewrite length_seqZ | done]. Qed.

Lemma ksa_step_ok key s j i :
  sbox_ok s -> 0 <= i < 256 -> sbox_ok (ksa_step key (s, j) i).1.
Proof.
  intros Hs Hi. simpl. apply swap_ok; [done | done |].
  apply Z.mod_pos_bound. lia.
Qed.

Lemma ksa_fold_ok key (idxs : list Z) st :
  sbox_ok st.1 -> Forall (fun i => 0 <= i < 256) idxs ->
  sbox_ok (fold_left (ksa_step key) idxs st).1.
Proof.
  revert st. induction idxs as [|i idxs IH]; intros [s j] Hs Hall; [done|].
  inversion Hall as [|? ? Hi Hrest]; subst. cbn [fold_left].
  apply IH; [|done]. by apply ksa_step_ok.
Qed.

Lemma range_256 : Forall (fun i => 0 <= i < 256) (seqZ 0 256).
Proof.
  apply Forall_forall. intros i Hi.
  apply list_elem_of_lookup in Hi as [k Hk].
  apply lookup_seqZ in Hk. lia.
Qed.

Lemma ksa_ok key : sbox_ok (ksa key).1.
Proof.
  unfold ksa.
  exact (ksa_fold_ok key (seqZ 0 256) (seqZ 0 256, 0) identity_ok range_256).
Qed.

Lemma init_ok key st : init key = Some st -> sbox_ok (_s st) ∧ _i st = 0 ∧ _j st = 0.
Proof.
  destruct key as [|k key]; [done|]. intros H.
  apply (inj Some) in H. subst st.
  change (sbox_ok (ksa (k :: key)).1 ∧ 0 = 0 ∧ 0 = 0).
  split; [exact (ksa_ok (k :: key)) | done].
Qed.

Lemma cipher_byte_ok d st b : sbox_ok (_s st) -> sbox_ok (_s (cipher_byte d st b).1).
Proof.
  intros Hs. simpl. apply swap_ok; [done | |]; apply Z.mod_pos_bound; lia.
Qed.

Lemma apply_cipher_cons d st b data :
  _apply_cipher st (b :: data) d =
  ((_apply_cipher (cipher_byte d st b).1 data d).1,
   (cipher_byte d st b).2 :: (_apply_cipher (cipher_byte d st b).1 data d).2).
Proof.
  change (_apply_cipher st (b :: data) d) with
    (let '(st1, out) := cipher_byte d st b in
     let '(st2, outs) := _apply_cipher st1 data d in (st2, out :: outs)).
  destruct (cipher_byte d st b) as [st1 out]. cbn [fst snd].
  by destruct (_apply_cipher st1 data d).
Qed.

Lemma apply_cipher_fst d st b data :
  (_apply_cipher st (b :: data) d).1 = (_apply_cipher (cipher_byte d st b).1 data d).1.
Proof.
  by rewrite apply_cipher_cons.
Qed.

Lemma apply_cipher_snd d st b data :
  (_apply_cipher st (b :: data) d).2 =
  (cipher_byte d st b).2 :: (_apply_cipher (cipher_byte d st b).1 data d).2.
Proof.
  by rewrite apply_cipher_cons.
Qed.

Lemma apply_cipher_ok d data st :
  sbox_ok (_s st) -> sbox_ok (_s (_apply_cipher st data d).1).
Proof.
  revert st. induction data as [|b data IH]; intros st Hs; [done|].
  rewrite apply_cipher_fst. apply IH. by apply cipher_byte_ok.
Qed.

(** The state after a run does not depend on the data, nor on the
    direction: both paths advance the state alike. *)
Lemma cipher_byte_state d d' st b b' :
  (cipher_byte d st b).1 = (cipher_byte d' st b').1.
Proof. done. Qed.

Lemma apply_cipher_state d d' st data data' :
  length data = length data' ->
  (_apply_cipher st data d).1 = (_apply_cipher st data' d').1.
Proof.
  revert st data'. induction data as [|b data IH]; intros st [|b' data'] Hlen;
    try done.
  rewrite !apply_cipher_fst, (cipher_byte_state d d' st b b').
  apply IH. simpl in Hlen. lia.
Qed.

Lemma apply_cipher_length d st data :
  length (_apply_cipher st data d).2 = length data.
Proof.
  revert st. induction data as [|b data IH]; intros st; [done|].
  rewrite apply_cipher_snd. cbn [length]. by rewrite IH.
Qed.

Lemma cipher_byte_out d st b :
  (cipher_byte d st b).2 = Z.lxor b (cipher_byte d st 0).2.
Proof. unfold cipher_byte. cbn [snd]. by rewrite Z.lxor_0_l. Qed.

(** The output is the input XOR the keystream of the direction. *)
Lemma apply_cipher_keystream d st data :
  (_apply_cipher st data d).2 = xor_bytes data (keystream d st (length data)).
Proof.
  unfold keystream. revert st. induction data as [|b data IH]; intros st; [done|].
  cbn [length replicate]. rewrite !apply_cipher_snd.
  rewrite (cipher_byte_state d d st 0 b), IH.
  unfold xor_bytes. cbn [zip_with]. by rewrite cipher_byte_out.
Qed.

Lemma xor_bytes_cancel (a k : list Z) :
  length a = length k -> xor_bytes (xor_bytes a k) k = a.
Proof.
  revert k. induction a as [|x a IH]; intros [|y k] Hlen; try done.
  unfold xor_bytes in *. simpl. rewrite IH by (simpl in Hlen; lia).
  f_equal. rewrite Z.lxor_assoc, Z.lxor_nilpotent. apply Z.lxor_0_r.
Qed.

Lemma keystream_length d st n : length (keystream d st n) = n.
Proof. unfold keystream. by rewrite apply_cipher_length, length_replicate. Qed.

End ArcFourFacts.

(** C9. After the key schedule the S array is a permutation of 0..255, and
    it is again a permutation of 0..255 after the encrypt or the decrypt
    path has processed any run of bytes (hence after every single byte):
    each update exchanges two entries. *)
Theorem C9_sbox_permutation (key : list Z) (st : ArcFour.t)
  (Hinit : ArcFour.init key = Some st) :
  ArcFour._s st ≡ₚ seqZ 0 256 ∧
  ∀ (data : list Z) (is_decrypt : bool),
    ArcFour._s (ArcFour._apply_cipher st data is_decrypt).1 ≡ₚ seqZ 0 256.
Proof.
  apply init_ok in Hinit as [Hs _]. split; [apply Hs|].
  intros data d. by apply apply_cipher_ok.
Qed.

Lemma C9_sbox_permutation_witness :
  ArcFour.init ArcFour.key12345 = Some (default (ArcFour.mk [] 0 0) (ArcFour.init ArcFour.key12345)) ∧
  ArcFour._s (ArcFour._apply_cipher (default (ArcFour.mk [] 0 0) (ArcFour.init ArcFour.key12345))
                ArcFour.HELLO true).1 ≡ₚ seqZ 0 256.
Proof.
  split; [reflexivity|].
  apply (C9_sbox_permutation ArcFour.key12345 _ eq_refl).
Defined.

(** C1, as stated, fails: for key [01 02 03 04 05] and plaintext "HELLO"
    the decrypt (double-lookup) path of a fresh instance with the same key
    does not return "HELLO" from the encryptor's output. *)
Lemma C1_counterexample :
  ArcFour.enc_then true ArcFour.key12345 ArcFour.HELLO ≠ Some ArcFour.HELLO.
Proof. vm_compute. discriminate. Qed.

(** C1, amended. For every key of length at least 1 and every plaintext,
    the ciphertext of one instance's encrypt path XORed with the
    encrypt-direction (single-lookup) keystream of a fresh instance with the
    same key is the plaintext; processed by that instance's decrypt
    (double-lookup) path it is the plaintext XOR the single-lookup
    keystream XOR the double-lookup keystream, which for key
    [01 02 03 04 05] and "HELLO" is [27, 12, 160, 82, 247]. *)
Theorem C1_second_instance (key data : list Z) (enc dec : ArcFour.t)
  (Henc : ArcFour.init key = Some enc) (Hdec : ArcFour.init key = Some dec) :
  let c := (ArcFour.encrypt enc data).2 in
  ArcFour.xor_bytes c (ArcFour.keystream false dec (length c)) = data ∧
  (ArcFour.encrypt dec c).2 = data ∧
  (ArcFour.decrypt dec c).2 =
    ArcFour.xor_bytes
      (ArcFour.xor_bytes data (ArcFour.keystream false dec (length data)))
      (ArcFour.keystream true dec (length data)) ∧
  ArcFour.enc_then true ArcFour.key12345 ArcFour.HELLO = Some [27; 12; 160; 82; 247].
Proof.
  assert (enc = dec) as -> by congruence.
  intros c. subst c. unfold ArcFour.encrypt, ArcFour.decrypt.
  pose proof (apply_cipher_keystream false dec data) as Hc.
  pose proof (apply_cipher_length false dec data) as Hlen.
  pose proof (keystream_length false dec (length data)) as Hks.
  set (cdata := (ArcFour._apply_cipher dec data false).2) in *.
  rewrite !apply_cipher_keystream, !Hlen.
  split; [|split; [|split]].
  - rewrite Hc. apply xor_bytes_cancel. by rewrite Hks.
  - rewrite Hc. apply xor_bytes_cancel. by rewrite Hks.
  - by rewrite Hc.
  - by vm_compute.
Qed.

Lemma C1_second_instance_witness :
  ArcFour.xor_bytes [250; 124; 47; 73; 191]
    (ArcFour.keystream false
       (default (ArcFour.mk [] 0 0) (ArcFour.init ArcFour.key12345)) 5)
  = ArcFour.HELLO.
Proof.
  exact (proj1 (C1_second_instance ArcFour.key12345 ArcFour.HELLO _ _ eq_refl eq_refl)).
Defined.

(** * Properties of the RSA helpers *)

Section RsaFacts.

Import Rsa.

Lemma pow_mod_big_spec b ex m :
  BigZ.to_Z (pow_mod_big b ex m) = pow_mod (BigZ.to_Z b) ex (BigZ.to_Z m).
Proof.
  induction ex as [ex IH|ex IH|]; cbn [pow_mod_big pow_mod];
    rewrite ?BigZ.spec_modulo, ?BigZ.spec_mul, ?BigZ.spec_modulo, ?BigZ.spec_mul, ?IH;
    reflexivity.
Qed.

(** Running [pow_mod] on machine words decides its value. *)
Lemma pow_mod_by_big b ex m r :
  BigZ.eqb (pow_mod_big (BigZ.of_Z b) ex (BigZ.of_Z m)) (BigZ.of_Z r) = true ->
  pow_mod b ex m = r.
Proof.
  intros H. rewrite BigZ.spec_eqb in H. apply Z.eqb_eq in H.
  by rewrite pow_mod_big_spec, !BigZ.spec_of_Z in H.
Qed.

(** [pow_mod] is modular exponentiation. *)
Lemma pow_mod_spec b ex m : 0 < m -> pow_mod b ex m = (b ^ Z.pos ex) mod m.
Proof.
  intros Hm. induction ex as [ex IH|ex IH|]; cbn [pow_mod].
  - rewrite IH, Pos2Z.inj_xI, Z.pow_add_r, Z.pow_twice_r, Z.pow_1_r by lia.
    rewrite <- Z.mul_mod by lia. rewrite Z.mul_mod_idemp_l by lia. done.
  - rewrite IH, Pos2Z.inj_xO, Z.pow_twice_r. by rewrite <- Z.mul_mod by lia.
  - by rewrite Z.pow_1_r.
Qed.

Lemma pow_mod_range b ex m : 0 < m -> 0 <= pow_mod b ex m < m.
Proof. intros Hm. destruct ex; cbn [pow_mod]; apply Z.mod_pos_bound; lia. Qed.

Lemma bit_length_pos p : bit_length (Z.pos p) = Z.log2 (Z.pos p) + 1.
Proof. reflexivity. Qed.

Lemma key_size_pos k : 0 < rsa_key_size k.
Proof.
  unfold rsa_key_size. rewrite bit_length_pos.
  pose proof (Z.log2_nonneg (Z.pos (n k))).
  apply Z.div_str_pos. lia.
Qed.

Lemma key_size_bound k : Z.pos (n k) < 256 ^ rsa_key_size k.
Proof.
  unfold rsa_key_size. rewrite bit_length_pos.
  set (l := Z.log2 (Z.pos (n k))).
  pose proof (Z.log2_nonneg (Z.pos (n k))) as Hl. fold l in Hl.
  pose proof (Z.log2_spec (Z.pos (n k)) ltac:(lia)) as [_ Hub]. fold l in Hub.
  eapply Z.lt_le_trans; [exact Hub|].
  change 256 with (2 ^ 8). rewrite <- Z.pow_mul_r by (try apply Z.div_pos; lia).
  apply Z.pow_le_mono_r; [lia|].
  pose proof (Z.mul_div_le (l + 1 + 7) 8 ltac:(lia)).
  pose proof (Z.mod_pos_bound (l + 1 + 7) 8 ltac:(lia)).
  pose proof (Z.div_mod (l + 1 + 7) 8 ltac:(lia)). lia.
Qed.

Lemma to_bytes_in_range v size :
  0 <= v < 256 ^ size -> to_bytes v size = Some (Struct.be_encode (Z.to_nat size) v).
Proof.
  intros [Hlo Hhi]. unfold to_bytes.
  by rewrite (proj2 (Z.leb_le 0 v)), (proj2 (Z.ltb_lt v _)).
Qed.

Lemma to_bytes_from_bytes bs :
  is_bytes bs -> to_bytes (from_bytes bs) (Py.len bs) = Some bs.
Proof.
  intros Hb. unfold from_bytes, Py.len.
  rewrite to_bytes_in_range by (by apply be_decode_bound).
  by rewrite Nat2Z.id, be_encode_decode.
Qed.

(** What the padding loop returns. *)
Lemma fill_padding_spec rand acc ps_len ps :
  fill_padding rand acc ps_len = Some ps ->
  Py.len acc <= ps_len -> Forall (fun b => b ≠ 0) acc ->
  Py.len ps = ps_len ∧ Forall (fun b => b ≠ 0) ps ∧
  (is_bytes rand -> is_bytes acc -> is_bytes ps).
Proof.
  revert acc. induction rand as [|r rand IH]; intros acc Hf Hlen Hnz.
  - cbn [fill_padding] in Hf. destruct (Py.len acc <? ps_len) eqn:E; [done|].
    injection Hf as <-. apply Z.ltb_ge in E. split; [lia|]. by split.
  - cbn [fill_padding] in Hf. destruct (Py.len acc <? ps_len) eqn:E.
    + apply Z.ltb_lt in E. destruct (r =? 0) eqn:Er.
      * destruct (IH acc Hf Hlen Hnz) as (? & ? & Hby). repeat split; try done.
        intros Hr Ha. apply Hby; [|done]. by inversion Hr.
      * apply Z.eqb_neq in Er.
        destruct (IH (acc ++ [r]) Hf) as (? & ? & Hby).
        { unfold Py.len in *. rewrite length_app. cbn [length]. lia. }
        { apply Forall_app. split; [done|]. by apply Forall_singleton. }
        repeat split; try done. intros Hr Ha. inversion Hr; subst.
        apply Hby; [done|]. apply Forall_app. split; [done|].
        by apply Forall_singleton.
    + injection Hf as <-. apply Z.ltb_ge in E. split; [lia|]. by split.
Qed.

Lemma find_from_skip b ps rest pos :
  Forall (fun c => c ≠ b) ps ->
  Py.find_from b (ps ++ b :: rest) pos = Some (pos + Py.len ps).
Proof.
  intros Hps. revert pos. induction Hps as [|c ps Hc Hps IH]; intros pos.
  - cbn. rewrite Z.eqb_refl. f_equal. unfold Py.len. cbn. lia.
  - cbn [app Py.find_from]. rewrite (proj2 (Z.eqb_neq c b)) by done.
    rewrite IH. f_equal. unfold Py.len. cbn [length]. lia.
Qed.

Lemma int_ascii_id s : Forall (fun c => c < 127) s -> Py.int_ascii_cp <$> s = s.
Proof.
  induction 1 as [|c s Hc Hs IH]; [done|]. cbn [fmap list_fmap].
  fold (Py.int_ascii_cp <$> s). rewrite IH. unfold Py.int_ascii_cp.
  by rewrite (proj2 (Z.ltb_lt c 127)).
Qed.

Lemma int_strip_no_space (s : list Z) :
  Forall (fun c => Py.int_space c = false) s -> Py.int_strip s = s.
Proof.
  intros Hs. unfold Py.int_strip. destruct s as [|c s]; [done|].
  assert (∀ c' s', Py.int_space c' = false -> Py.int_lstrip (c' :: s') = c' :: s') as Hl.
  { intros c' s' Hc'. cbn [Py.int_lstrip]. by rewrite Hc'. }
  rewrite Hl by (by inversion Hs).
  destruct (reverse (c :: s)) as [|c' s'] eqn:Hrev.
  { apply (f_equal length) in Hrev. rewrite length_reverse in Hrev. done. }
  assert (Py.int_space c' = false) as Hc'.
  { assert (c' ∈ c :: s) as Hin by (apply elem_of_reverse; rewrite Hrev; left).
    by apply (proj1 (Forall_forall _ _) Hs). }
  rewrite Hl by done. rewrite <- Hrev. apply reverse_involutive.
Qed.

Lemma digit_not_space c : 48 <= c <= 57 -> Py.int_space c = false.
Proof.
  intros Hc. unfold Py.int_space, Py.in_range.
  rewrite (proj2 (Z.leb_gt c 13)), (proj2 (Z.eqb_neq c 32)) by lia.
  by rewrite andb_false_r.
Qed.

Lemma int_digits_decimal s acc :
  Forall (fun c => 48 <= c <= 57) s ->
  Py.int_digits 10 acc false s = Some (fold_left (fun a c => a * 10 + (c - 48)) s acc).
Proof.
  intros Hd. revert acc. induction Hd as [|c s Hc Hd IH]; intros acc; [done|].
  cbn [Py.int_digits fold_left].
  rewrite (proj2 (Z.eqb_neq c 95)) by lia.
  unfold Py.digit_value, Py.in_range.
  rewrite (proj2 (Z.leb_le 48 c)), (proj2 (Z.leb_le c 57)) by lia. cbn [andb].
  rewrite (proj2 (Z.ltb_lt (c - 48) 10)) by lia. apply IH.
Qed.

Lemma filter_length_bound {A} (f : A -> bool) (l : list A) :
  (length (List.filter f l) <= length l)%nat.
Proof. induction l as [|a l IH]; [done|]. cbn. destruct (f a); cbn; lia. Qed.

(** [int(s)] on a string of decimal digits within the digit limit. *)
Lemma int_decimal s :
  is_digits s -> Py.len s <= Py.int_max_str_digits -> Py.int 10 s = Some (digits_value s).
Proof.
  intros [Hne Hd] Hlim. unfold Py.int.
  rewrite int_ascii_id by (eapply Forall_impl; [exact Hd|]; cbn; lia).
  rewrite int_strip_no_space
    by (eapply Forall_impl; [exact Hd|]; intros c Hc; by apply digit_not_space).
  destruct s as [|c s]; [done|].
  assert (48 <= c <= 57) as Hc by (by inversion Hd).
  rewrite (proj2 (Z.eqb_neq c 43)), (proj2 (Z.eqb_neq c 45)) by lia.
  assert (Py.int_prefix 10 (c :: s) = c :: s) as ->.
  { unfold Py.int_prefix. destruct s; [done|]. by rewrite andb_false_r. }
  unfold Py.int_body. rewrite (proj2 (Z.eqb_neq c 95)) by lia.
  pose proof (filter_length_bound (fun c0 => negb (c0 =? 95)) (c :: s)) as Hf.
  rewrite (proj2 (Z.ltb_ge _ _)) by (unfold Py.len in Hlim; lia).
  rewrite andb_false_r. by apply int_digits_decimal.
Qed.

Lemma ascii_decode_digits s :
  Forall (fun c => 48 <= c <= 57) s -> Py.ascii_decode s = Some s.
Proof.
  intros Hd. unfold Py.ascii_decode.
  replace (forallb (Py.in_range 0 127) s) with true; [done|].
  symmetry. apply forallb_forall. intros c Hc.
  apply list_elem_of_In in Hc. apply (proj1 (Forall_forall _ _) Hd) in Hc.
  unfold Py.in_range. apply andb_true_iff. split; apply Z.leb_le; lia.
Qed.

(** The client's unpad on a block [b0 b1 PS 00 digits] with non-zero
    padding: whatever the two leading bytes are, the digits' value. *)
Lemma unpad_block_layout b0 b1 ps digits :
  Forall (fun b => b ≠ 0) ps -> is_digits digits ->
  Py.len digits <= Py.int_max_str_digits ->
  unpad_block ([b0; b1] ++ ps ++ [0] ++ digits) = Some (digits_value digits).
Proof.
  intros Hps Hd Hlim. unfold unpad_block, Py.bytes_index.
  change (drop (Z.to_nat 2) ([b0; b1] ++ ps ++ [0] ++ digits)) with (ps ++ 0 :: digits).
  rewrite find_from_skip by done. cbn [mbind option_bind].
  assert (Py.slice_from ([b0; b1] ++ ps ++ [0] ++ digits) (2 + Py.len ps + 1) = digits)
    as ->.
  { unfold Py.slice_from, Py.norm_bound, Py.len.
    rewrite (proj2 (Z.ltb_ge _ 0)) by lia.
    rewrite !length_app. cbn [length].
    rewrite Z.min_l by lia.
    replace (Z.to_nat (2 + Z.of_nat (length ps) + 1)) with (2 + (length ps + 1))%nat by lia.
    cbn [app drop Nat.add]. rewrite drop_app_ge by lia.
    by replace (length ps + 1 - length ps)%nat with 1%nat by lia. }
  rewrite ascii_decode_digits by apply Hd. cbn [mbind option_bind].
  by apply int_decimal.
Qed.

End RsaFacts.

Section RsaScenario.

Import Rsa.

Lemma pad_and_encrypt_eq k m rand ps c blk :
  Py.len m <= rsa_key_size k - 11 ->
  fill_padding rand [] (rsa_key_size k - Py.len m - 3) = Some ps ->
  pow_mod (from_bytes (padded_message ps m)) (e k) (Z.pos (n k)) = c ->
  to_bytes c (rsa_key_size k) = Some blk ->
  _rsa_pad_and_encrypt k m rand = Some (Py.hex blk).
Proof.
  intros Hlen Hfill Hpow Hblk. unfold _rsa_pad_and_encrypt.
  rewrite (proj2 (Z.ltb_ge _ 8)) by lia.
  rewrite Hfill. cbn [mbind option_bind]. by rewrite Hpow, Hblk.
Qed.

Lemma verify_and_unpad_eq k hex ci d blk :
  Py.int 16 hex = Some ci ->
  pow_mod ci (e k) (Z.pos (n k)) = d ->
  to_bytes d (rsa_key_size k) = Some blk ->
  _rsa_verify_and_unpad k hex = unpad_block blk.
Proof.
  intros Hint Hpow Hblk. unfold _rsa_verify_and_unpad.
  rewrite Hint. cbn [mbind option_bind]. by rewrite Hpow, Hblk.
Qed.

Lemma ce_encrypt :
  pow_mod (from_bytes (padded_message (replicate 248 255) msg_12345))
    (e rsa_key) (Z.pos (n rsa_key)) = ce_cipher.
Proof. apply pow_mod_by_big. vm_compute. reflexivity. Qed.

Lemma ce_decrypt : pow_mod ce_cipher (e rsa_key) (Z.pos (n rsa_key)) = ce_image.
Proof. apply pow_mod_by_big. vm_compute. reflexivity. Qed.

Lemma ce_pad_and_encrypt :
  _rsa_pad_and_encrypt rsa_key msg_12345 rand_ff
  = Some (Py.hex (Struct.be_encode 256 ce_cipher)).
Proof.
  apply (pad_and_encrypt_eq rsa_key msg_12345 rand_ff (replicate 248 255) ce_cipher).
  - vm_compute. discriminate.
  - vm_compute. reflexivity.
  - exact ce_encrypt.
  - vm_compute. reflexivity.
Qed.

Lemma ce_verify_and_unpad :
  _rsa_verify_and_unpad rsa_key (Py.hex (Struct.be_encode 256 ce_cipher)) = None.
Proof.
  rewrite (verify_and_unpad_eq rsa_key _ ce_cipher ce_image (Struct.be_encode 256 ce_image)).
  - vm_compute. reflexivity.
  - vm_compute. reflexivity.
  - exact ce_decrypt.
  - vm_compute. reflexivity.
Qed.

End RsaScenario.

(** [int] on the edges of its input language: the separators U+001C to
    U+001F are not skipped (only the ASCII blanks and the Unicode spaces
    are), decimal digits of other scripts count as digits, a base prefix
    may be followed by one underscore, underscores stand only between
    digits, and a decimal literal of more than 4300 digits is refused. *)
Lemma int_edge_cases :
  Py.int 16 ([31] ++ Py.lit "7") = None ∧
  Py.int 16 ([32] ++ Py.lit "7" ++ [10]) = Some 7 ∧
  Py.int 16 ([160] ++ Py.lit "7" ++ [8195]) = Some 7 ∧
  Py.int 10 [1635; 65303] = Some 37 ∧
  Py.int 16 (Py.lit "-0X_1f") = Some (-31) ∧
  Py.int 10 (Py.lit "1__0") = None ∧
  Py.int 10 (Py.lit "1_0") = Some 10 ∧
  Py.int 10 (Py.lit "+") = None ∧
  Py.int 10 (List.repeat 48 4300) = Some 0 ∧
  Py.int 10 (List.repeat 48 4301) = None ∧
  Py.int 16 (List.repeat 48 4301) = Some 0.
Proof. by vm_compute. Qed.

(** C3, as stated, fails: under the configured key, pad-and-encrypt of the
    message "12345" followed by verify-and-unpad does not give 12345 back;
    the second public-key operation yields a block that does not parse,
    and the call raises. *)
Lemma C3_counterexample :
  Rsa.round_trip Rsa.rsa_key Rsa.msg_12345 Rsa.rand_ff = None ∧
  Py.len Rsa.msg_12345 <= Rsa.rsa_key_size Rsa.rsa_key - 11.
Proof.
  split; [|vm_compute; discriminate].
  unfold Rsa.round_trip. rewrite ce_pad_and_encrypt. exact ce_verify_and_unpad.
Qed.

(** C3, amended. For a message m that is a non-empty string of ASCII
    decimal digits of length at most |n| - 11 and at most 4300 (the limit
    of [int] on decimal literals), pad-and-encrypt emits, as
    |n| bytes of hex, the block 00 02 PS 00 m raised to e modulo n; and
    verify-and-unpad, applied to a ciphertext whose image under the public
    key (c^e mod n) is that block 00 02 PS 00 m, returns the integer value
    of m.  Such a ciphertext comes from the holder of the private key, not
    from pad-and-encrypt: unpad(encrypt(m)) raises to e twice and is not m. *)
Theorem C3_padded_block_round_trip (k : Rsa.key) (m rand ps : list Z)
  (peer_hex : Py.str) (peer_int : Z)
  (Hm : Rsa.is_digits m)
  (Hlen : Py.len m <= Rsa.rsa_key_size k - 11)
  (Hdigits : Py.len m <= Py.int_max_str_digits)
  (Hrand : Rsa.is_bytes rand)
  (Hfill : Rsa.fill_padding rand [] (Rsa.rsa_key_size k - Py.len m - 3) = Some ps)
  (Hpeer : Py.int 16 peer_hex = Some peer_int)
  (Himg : Rsa.pow_mod peer_int (Rsa.e k) (Z.pos (Rsa.n k))
          = Rsa.from_bytes (Rsa.padded_message ps m)) :
  Rsa._rsa_pad_and_encrypt k m rand
  = Some (Py.hex (Struct.be_encode (Z.to_nat (Rsa.rsa_key_size k))
                    (Rsa.pow_mod (Rsa.from_bytes (Rsa.padded_message ps m))
                       (Rsa.e k) (Z.pos (Rsa.n k))))) ∧
  Rsa._rsa_verify_and_unpad k peer_hex = Some (Rsa.digits_value m).
Proof.
  destruct (fill_padding_spec _ _ _ _ Hfill) as (Hpslen & Hnz & Hbytes);
    [unfold Py.len in *; cbn [length]; lia | constructor |].
  split.
  - eapply pad_and_encrypt_eq; [done | done | reflexivity |].
    apply to_bytes_in_range.
    pose proof (pow_mod_range (Rsa.from_bytes (Rsa.padded_message ps m)) (Rsa.e k)
                  (Z.pos (Rsa.n k)) ltac:(lia)).
    pose proof (key_size_bound k). lia.
  - assert (Py.len (Rsa.padded_message ps m) = Rsa.rsa_key_size k) as Hsize.
    { unfold Rsa.padded_message, Py.len in *. rewrite !length_app. cbn [length]. lia. }
    rewrite (verify_and_unpad_eq k peer_hex peer_int _ (Rsa.padded_message ps m)
               Hpeer Himg).
    + by apply unpad_block_layout.
    + rewrite <- Hsize. apply to_bytes_from_bytes.
      unfold Rsa.padded_message, Rsa.is_bytes.
      repeat (apply Forall_app; split); [repeat constructor; lia | | repeat constructor; lia |].
      * apply Hbytes; [done | constructor].
      * destruct Hm as [_ Hd]. eapply Forall_impl; [exact Hd|]. simpl. lia.
Qed.

Lemma C3_padded_block_round_trip_witness :
  Rsa._rsa_verify_and_unpad Rsa.toy_key (Rsa.peer_hex 0 2 (Py.lit "7")) = Some 7.
Proof.
  refine (proj2 (C3_padded_block_round_trip Rsa.toy_key (Py.lit "7") Rsa.rand_ff
                   (replicate 15 255) (Rsa.peer_hex 0 2 (Py.lit "7"))
                   932162655934093143835427896241196763043860852
                   _ _ _ _ _ _ _)).
  - split; [discriminate|]. change (Py.lit "7") with [55]. apply Forall_singleton. lia.
  - vm_compute. discriminate.
  - vm_compute. discriminate.
  - apply Forall_replicate. lia.
  - vm_compute. reflexivity.
  - vm_compute. reflexivity.
  - vm_compute. reflexivity.
Defined.

(** The client's verify-and-unpad does not look at the two leading bytes
    of the block. *)
Lemma verify_and_unpad_any_prefix (k : Rsa.key) (c : Py.str) (ci b0 b1 : Z)
  (ps digits : list Z) :
  Py.int 16 c = Some ci ->
  Rsa.to_bytes (Rsa.pow_mod ci (Rsa.e k) (Z.pos (Rsa.n k))) (Rsa.rsa_key_size k)
    = Some ([b0; b1] ++ ps ++ [0] ++ digits) ->
  Forall (fun b => b ≠ 0) ps -> Rsa.is_digits digits ->
  Py.len digits <= Py.int_max_str_digits ->
  Rsa._rsa_verify_and_unpad k c = Some (Rsa.digits_value digits).
Proof.
  intros Hc Hblk Hps Hd Hlim.
  rewrite (verify_and_unpad_eq k c ci _ _ Hc eq_refl Hblk).
  by apply unpad_block_layout.
Qed.

(** The reference function of src/crypto.py rejects every block that
    starts with neither 00 01 nor 01. *)
Lemma checked_unpad_rejects (b0 b1 : Z) (rest : list Z) :
  b0 ≠ 1 -> (b0 = 0 -> b1 ≠ 1) -> Rsa.unpad_block_checked (b0 :: b1 :: rest) = None.
Proof.
  intros H0 H1. unfold Rsa.unpad_block_checked, Rsa.prefix_offset.
  cbn [Py.startswith]. rewrite (proj2 (Z.eqb_neq b0 1)) by done.
  destruct (b0 =? 0) eqn:E0; [|done].
  apply Z.eqb_eq in E0. by rewrite (proj2 (Z.eqb_neq b1 1)) by auto.
Qed.

(** C4, the code at the failing input (19-byte example key): the
    ciphertext whose decrypted block is 00 00 FF..FF 00 "12345" is
    accepted by the client's verify-and-unpad, which returns 12345, while
    the reference function of src/crypto.py raises on it; for the blocks
    starting 00 01 and 01 both functions return 12345. *)
Theorem C4_block_00_00_accepted :
  let k := Rsa.toy_key in
  let c := Rsa.peer_hex 0 0 Rsa.msg_12345 in
  (ci ← Py.int 16 c;
   Rsa.to_bytes (Rsa.pow_mod ci (Rsa.e k) (Z.pos (Rsa.n k))) (Rsa.rsa_key_size k))
  = Some ([0; 0] ++ replicate 11 255 ++ [0] ++ Rsa.msg_12345) ∧
  Rsa._rsa_verify_and_unpad k c = Some 12345 ∧
  Rsa.rsa_pkcs1_v1_5_verify_and_unpad c k = None ∧
  Rsa._rsa_verify_and_unpad k (Rsa.peer_hex 0 1 Rsa.msg_12345) = Some 12345 ∧
  Rsa._rsa_verify_and_unpad k (Rsa.peer_hex 1 255 Rsa.msg_12345) = Some 12345 ∧
  (fun r => r.1.1) <$> Rsa.rsa_pkcs1_v1_5_verify_and_unpad (Rsa.peer_hex 0 1 Rsa.msg_12345) k
  = Some 12345 ∧
  (fun r => r.1.1) <$> Rsa.rsa_pkcs1_v1_5_verify_and_unpad (Rsa.peer_hex 1 255 Rsa.msg_12345) k
  = Some 12345.
Proof. by vm_compute. Qed.

(** * Properties of the floor-map parser *)

Lemma is_x_south_outside (rows : list Py.str) (y x : Z) :
  0 <= y -> Py.len rows <= y + 1 -> Room.is_x rows (y + 1) x = None.
Proof.
  intros Hy Hlen. unfold Room.is_x, Py.index2, Py.index, Py.len in *.
  rewrite (proj2 (Z.leb_le 0 (y + 1))) by lia.
  rewrite lookup_ge_None_2 by lia. done.
Qed.

Lemma is_x_east_outside (rows : list Py.str) (row : Py.str) (y x : Z) :
  0 <= x -> Py.index rows y = Some row -> Py.len row <= x + 1 ->
  Room.is_x rows y (x + 1) = None.
Proof.
  intros Hx Hrow Hlen. unfold Room.is_x, Py.index2. rewrite Hrow. simpl.
  unfold Py.index, Py.len in *.
  rewrite (proj2 (Z.leb_le 0 (x + 1))) by lia.
  rewrite lookup_ge_None_2 by lia. done.
Qed.

(** North of row 0 and west of column 0 the scan reads index -1, which
    is the last row or the last cell of the row, not an error: in the map
    "0x\rxx" the corner cell (0, 0) is taken for a door. *)
Lemma door_check_wraps_at_origin :
  Room.door_check [Py.lit "0x"; Py.lit "xx"] 0 0 = Some 90 ∧
  (let rm := (Room.parse_floor_height_map
                (Room.floor_payload (Py.lit "0x" ++ [Room.CR] ++ Py.lit "xx")) Room.new).1 in
   (Room.door_x rm, Room.door_y rm) = (0, 0)).
Proof. by vm_compute. Qed.

(** C7, as stated, fails: on the scenario map the scan does not put the
    door at (1, 1).  That cell has 'x' to its north and west, but its south
    and east neighbours are '0', so neither pattern matches it. *)
Lemma C7_counterexample :
  let payload := Room.floor_payload Room.scenario_map in
  let rm := (Room.parse_floor_height_map payload Room.new).1 in
  let rows := Room.read_rows payload in
  (Room.door_x rm, Room.door_y rm) ≠ (1, 1) ∧
  Room.is_x rows 0 1 = Some true ∧ Room.is_x rows 1 0 = Some true ∧
  Room.is_x rows 2 1 = Some false ∧ Room.is_x rows 1 2 = Some false ∧
  Room.door_check rows 1 1 = None.
Proof. vm_compute. split; [discriminate|done]. Qed.

(** * Properties of the height-map parser *)

Section RoomFacts.

Import Room.

Lemma range_bounds n i : i ∈ Py.range n -> 0 <= i < n.
Proof.
  unfold Py.range. intros Hi. apply list_elem_of_lookup in Hi as [k Hk].
  apply lookup_seqZ in Hk. lia.
Qed.

Lemma range_Forall n : Forall (fun i => 0 <= i < n) (Py.range n).
Proof. apply Forall_forall. apply range_bounds. Qed.

Lemma slice_length {A} (l : list A) a b :
  0 <= a -> a <= b -> b <= Py.len l -> Py.len (Py.slice l a b) = b - a.
Proof.
  intros Ha Hab Hb. unfold Py.slice, Py.norm_bound, Py.len in *.
  rewrite !(proj2 (Z.ltb_ge _ 0)) by lia.
  rewrite length_take, length_drop. lia.
Qed.

Lemma unpack_h_some bs : Py.len bs = 2 -> ∃ v, Struct.unpack_h bs = Some v.
Proof. intros Hl. unfold Struct.unpack_h. rewrite Hl. cbn. eauto. Qed.

Lemma grid_dims {A} w h (v : A) : 0 <= w -> 0 <= h -> dims_ok w h (grid w h v).
Proof.
  intros Hw Hh. unfold dims_ok, grid, Py.len. split.
  - rewrite length_replicate. lia.
  - apply Forall_replicate. rewrite length_replicate. lia.
Qed.

Lemma index_within {A} (l : list A) i :
  0 <= i < Py.len l -> ∃ a, Py.index l i = Some a ∧ l !! Z.to_nat i = Some a.
Proof.
  intros Hi. unfold Py.index, Py.len in *.
  rewrite (proj2 (Z.leb_le 0 i)) by lia.
  destruct (lookup_lt_is_Some_2 l (Z.to_nat i)) as [a Ha]; [lia|]. eauto.
Qed.

Lemma setitem_within {A} (l : list A) i v :
  0 <= i < Py.len l -> Py.setitem l i v = Some (<[Z.to_nat i := v]> l).
Proof.
  intros Hi. unfold Py.setitem.
  rewrite (proj2 (Z.leb_le 0 i)), (proj2 (Z.ltb_lt i _)) by lia. done.
Qed.

Lemma setitem2_dims {A} w h (g : list (list A)) y x v :
  dims_ok w h g -> 0 <= y < h -> 0 <= x < w ->
  ∃ g', Py.setitem2 g y x v = Some g' ∧ dims_ok w h g'.
Proof.
  intros [Hlen Hrows] Hy Hx. unfold Py.setitem2.
  destruct (index_within g y) as (row & -> & Hrow); [lia|].
  assert (Py.len row = w) as Hw.
  { eapply (Forall_lookup_1 _ _ _ _ Hrows Hrow). }
  cbn [mbind option_bind]. rewrite setitem_within by lia.
  cbn [mbind option_bind]. rewrite setitem_within by lia.
  eexists. split; [done|]. split.
  - unfold Py.len in *. by rewrite length_insert.
  - apply Forall_insert; [done|]. unfold Py.len in *. by rewrite length_insert.
Qed.

Lemma same_frame_refl rm : same_frame rm rm.
Proof. by repeat split. Qed.

Lemma same_frame_trans rm1 rm2 rm3 :
  same_frame rm1 rm2 -> same_frame rm2 rm3 -> same_frame rm1 rm3.
Proof. unfold same_frame. intros (?&?&?&?&?) (?&?&?&?&?). repeat split; congruence. Qed.

Lemma height_cell_ok raw rm y x :
  grids_ok rm -> 0 <= y < height rm -> 0 <= x < width rm ->
  let r := height_cell raw (width rm) rm y x in
  r.2 ≠ Raise ∧ grids_ok r.1 ∧ same_frame rm r.1.
Proof.
  intros (Hsb & Hrt & Hth) Hy Hx. unfold height_cell.
  set (index := (y * width rm + x) * 2).
  destruct (index + 2 >? Py.len raw) eqn:Hi.
  { cbn [fst snd]. repeat split; done || apply Hsb || apply Hrt || apply Hth. }
  assert (0 <= index) by (subst index; nia).
  assert (index + 2 <= Py.len raw) by lia.
  destruct (unpack_h_some (Py.slice raw index (index + 2))) as (v & ->).
  { rewrite slice_length by lia. lia. }
  destruct (setitem2_dims _ _ _ y x (negb (Z.land v STACKING_BLOCKED_MASK =? 0))
              Hsb Hy Hx) as (sb & -> & Hsb').
  destruct (setitem2_dims _ _ _ y x (Z.land v ROOM_TILE_MASK =? 0)
              Hrt Hy Hx) as (rt & Hrt1 & Hrt').
  destruct (setitem2_dims _ _ _ y x (Z.land v 16383 # 256)%Q
              Hth Hy Hx) as (th & Hth1 & Hth').
  cbn [is_room_tile tile_heights set_is_room_tile set_stacking_blocked].
  rewrite Hrt1.
  cbn [is_room_tile tile_heights set_is_room_tile set_stacking_blocked].
  rewrite Hth1.
  cbn [fst snd]. split; [done|]. split; [|by repeat split].
  repeat split; cbn; done || apply Hsb' || apply Hrt' || apply Hth'.
Qed.

Lemma height_row_ok raw rm0 y xs rm :
  grids_ok rm -> same_frame rm0 rm -> 0 <= y < height rm0 ->
  Forall (fun x => 0 <= x < width rm0) xs ->
  let r := height_row raw (width rm0) rm y xs in
  r.2 = true ∧ grids_ok r.1 ∧ same_frame rm0 r.1.
Proof.
  intros Hok Hfr Hy Hxs. revert rm Hok Hfr.
  induction xs as [|x xs IH]; intros rm Hok Hfr; [done|].
  inversion Hxs as [|? ? Hx Hxs']; subst.
  destruct Hfr as (Hw & Hh & Hrest).
  pose proof (height_cell_ok raw rm y x Hok ltac:(lia) ltac:(lia)) as (Hne & Hok' & Hfr').
  cbn [height_row]. rewrite <- Hw.
  destruct (height_cell raw (width rm) rm y x) as [rm' [| |]] eqn:E;
    cbn [fst snd] in *.
  - rewrite Hw. apply IH; [done..|].
    eapply same_frame_trans; [|done]. by split.
  - split; [done|]. split; [done|]. eapply same_frame_trans; [|done]. by split.
  - done.
Qed.

Lemma height_rows_ok raw rm0 ys rm :
  grids_ok rm -> same_frame rm0 rm ->
  Forall (fun y => 0 <= y < height rm0) ys ->
  let r := height_rows raw (width rm0) rm ys in
  r.2 = true ∧ grids_ok r.1 ∧ same_frame rm0 r.1.
Proof.
  intros Hok Hfr Hys. revert rm Hok Hfr.
  induction ys as [|y ys IH]; intros rm Hok Hfr; [done|].
  inversion Hys as [|? ? Hy Hys']; subst.
  pose proof (height_row_ok raw rm0 y (Py.range (width rm0)) rm Hok Hfr Hy
                (range_Forall _)) as (Ht & Hok' & Hfr').
  cbn [height_rows].
  destruct (height_row raw (width rm0) rm y (Py.range (width rm0))) as [rm' []];
    cbn [fst snd] in *; [|done].
  by apply IH.
Qed.

(** On a map whose grids have its dimensions the height-map parser
    never raises and keeps dimensions, floor map and door. *)
Lemma parse_height_map_ok payload rm :
  grids_ok rm ->
  let r := parse_height_map payload rm in
  r.2 = None ∧ grids_ok r.1 ∧ same_frame rm r.1.
Proof.
  intros Hok. unfold parse_height_map.
  destruct ((width rm =? 0) || (height rm =? 0)).
  { by split; [|split; [|apply same_frame_refl]]. }
  set (raw := if negb _ then _ else _).
  pose proof (height_rows_ok raw rm (Py.range (height rm)) rm Hok (same_frame_refl rm)
                (range_Forall _)) as (Ht & Hok' & Hfr').
  destruct (height_rows raw (width rm) rm (Py.range (height rm))) as [rm' []];
    cbn [fst snd] in *; done.
Qed.





(** After a floor map that parsed without error the grids have the
    map's dimensions. *)
Lemma parse_floor_ok payload rm0 :
  (parse_floor_height_map payload rm0).2 = None ->
  grids_ok (parse_floor_height_map payload rm0).1.
Proof.
  unfold parse_floor_height_map.
  set (rows := read_rows payload). set (h := Py.len rows).
  set (w := if h >? 0 then _ else 0).
  assert (0 <= h) by (subst h; unfold Py.len; lia).
  assert (0 <= w) by (subst w; destruct (h >? 0); unfold Py.len; lia).
  destruct (fill_rows (grid w h []) 0 rows) as [fm []]; [|done].
  intros _. repeat split; cbn; by apply grid_dims.
Qed.

(** A floor map that raised leaves the three height-map grids alone. *)
Lemma parse_floor_raised payload rm0 ex :
  (parse_floor_height_map payload rm0).2 = Some ex ->
  stacking_blocked (parse_floor_height_map payload rm0).1 = stacking_blocked rm0.
Proof.
  unfold parse_floor_height_map.
  destruct (fill_rows _ 0 (read_rows payload)) as [fm []]; done.
Qed.

End RoomFacts.

(** * Properties of the dispatcher and of the send path *)

Section ClientFacts.

Import Client.

Lemma connected_emit ev s : connected (emit ev s) = connected s.
Proof. by destruct s. Qed.

Lemma handle_4000 now payload s :
  handle_packet now 4000 payload s = _handle_disconnect_reason payload s.
Proof. done. Qed.

Lemma events_emit ev s : events (emit ev s) = events s ++ [ev].
Proof. by destruct s. Qed.

Lemma is_banned_emit ev s : is_banned (emit ev s) = is_banned s.
Proof. by destruct s. Qed.

Lemma listener_exit_ban s :
  let r := listener_exit (Some BanDetectedException) s in
  connected r = false ∧ is_banned r = true ∧
  last (events r) = Some (Status "Banned").
Proof.
  unfold listener_exit, report_status.
  set (s1 := disconnect true _).
  assert (connected s1 = false ∧ is_banned s1 = true) as [Hc Hb].
  { subst s1. destruct s as [[sk|] ? ? ? c]; by destruct c. }
  rewrite connected_emit, is_banned_emit, events_emit, last_snoc, Hb. done.
Qed.

(** The handler raises exactly on the two ban codes. *)
Lemma handle_disconnect_reason_raises payload s :
  (_handle_disconnect_reason payload s).2 = Some BanDetectedException ↔
  Struct.unpack_i payload = Some 1 ∨ Struct.unpack_i payload = Some 10.
Proof.
  unfold _handle_disconnect_reason.
  destruct (Struct.unpack_i payload) as [c|]; cbn beta iota zeta.
  - destruct (c =? 1) eqn:E1; cbn [orb snd].
    { apply Z.eqb_eq in E1 as ->. naive_solver. }
    destruct (c =? 10) eqn:E10; cbn [orb snd].
    { apply Z.eqb_eq in E10 as ->. naive_solver. }
    apply Z.eqb_neq in E1, E10. split; [done|]. intros [[=]|[=]]; lia.
  - split; [done|]. intros [|]; done.
Qed.

End ClientFacts.

(** C5, as stated, fails: a disconnect-reason frame with code 0 ("Logged
    Out") does not end the session; the listener stays connected and
    waits for the next frame. *)
Lemma C5_counterexample :
  let r := Client._listen_for_packets [Client.Frame 0 4000 (Struct.be_encode 4 0)]
             (Client.authenticated None) in
  r.2 = false ∧ Client.connected r.1 = true.
Proof. by vm_compute. Qed.

(** C5, amended. When the listener of a connected session receives a
    disconnect-reason frame (id 4000), the session terminates, and as
    Banned, exactly when the payload is a 4-byte i32 equal to 1 or 10.
    For every other code the handler only logs the reason from the fixed
    table (a payload that is not 4 bytes is ignored) and the listener
    keeps waiting for frames: the frame itself does not end the session.
    The handler shared by all phases raises the ban exception for the
    same two codes only. *)
Theorem C5_disconnect_reason (now : Z) (payload : list Z) (s : Client.Session)
  (Hconn : Client.connected s = true) :
  let r := Client._listen_for_packets [Client.Frame now 4000 payload] s in
  let ban := bool_decide (Struct.unpack_i payload = Some 1 ∨ Struct.unpack_i payload = Some 10) in
  ((Client._handle_disconnect_reason payload s).2 = Some BanDetectedException ↔ ban = true) ∧
  (ban = true ->
     r.2 = true ∧ Client.connected r.1 = false ∧ Client.is_banned r.1 = true ∧
     last (Client.events r.1) = Some (Client.Status "Banned")) ∧
  (ban = false ->
     r.2 = false ∧ Client.connected r.1 = true ∧
     r.1 = match Struct.unpack_i payload with
           | Some reason_id =>
               Client.emit
                 (Client.LogDisconnect reason_id
                    (default "Generic/Unknown"%string
                       (Client.DISCONNECT_REASONS !! reason_id))) s
           | None => s
           end).
Proof.
  intros r ban. split.
  { subst ban. rewrite handle_disconnect_reason_raises. by rewrite bool_decide_eq_true. }
  subst r ban. cbn [Client._listen_for_packets]. rewrite Hconn, handle_4000.
  unfold Client._handle_disconnect_reason.
  destruct (Struct.unpack_i payload) as [c|]; cycle 1.
  { split; [intros Hb; apply bool_decide_eq_true in Hb as [|]; done|].
    intros _. cbn. by rewrite Hconn. }
  destruct ((c =? 1) || (c =? 10)) eqn:E.
  - split; [|intros Hb; apply bool_decide_eq_false in Hb; exfalso; apply Hb;
             apply orb_true_iff in E as [E|E]; apply Z.eqb_eq in E; subst; auto].
    intros _. cbn [fst snd]. split; [done|]. apply listener_exit_ban.
  - split.
    { intros Hb. apply bool_decide_eq_true in Hb.
      apply orb_false_iff in E as [E1 E10]. apply Z.eqb_neq in E1, E10.
      destruct Hb as [[=]|[=]]; lia. }
    intros _. cbn [Client._listen_for_packets]. rewrite connected_emit, Hconn.
    cbn [fst snd]. by rewrite connected_emit.
Qed.

Lemma C5_disconnect_reason_witness :
  (Client._listen_for_packets [Client.Frame 0 4000 (Struct.be_encode 4 10)]
     (Client.authenticated None)).2 = true.
Proof.
  pose proof (C5_disconnect_reason 0 (Struct.be_encode 4 10) (Client.authenticated None)
                eq_refl) as (_ & Hban & _).
  apply Hban. reflexivity.
Defined.

(** A name that begins with "habb" also contains it. *)
Lemma contains_of_startswith (s p : list Z) :
  Py.startswith s p = true -> Py.contains s p = true.
Proof. intros H. destruct s; cbn [Py.contains]; by rewrite H. Qed.

(** What the user-object branch does, for any body: it records the
    name and starts the flow exactly when the lower-cased name contains
    "habb" and the flag [_nux_running] is not set. *)
Lemma on_user_object_spawns (payload : list Z) (s : Client.Session) :
  let name := Parsers.uo_name (Parsers.parse_user_object payload) in
  let launch := Py.contains (Py.lower name) Client.habb && negb (Client._nux_running s) in
  Client.username (Client.on_user_object payload s) = name ∧
  Client.events (Client.on_user_object payload s)
  = Client.events s ++ (if launch then [Client.Spawn Client.NuxFlowThread] else []).
Proof.
  intros name launch. subst name launch. unfold Client.on_user_object.
  destruct s. cbn [Client.set_username Client.username Client._nux_running].
  destruct (_ && _); cbn; [done|]. by rewrite app_nil_r.
Qed.

(** The dispatcher itself never sets [_nux_running]: the started thread
    does, in its first statement.  Two user-object frames handled before
    that statement has run start the flow twice. *)
Lemma two_user_objects_before_flow_begins :
  let payload := Client.user_object_payload 7 (Py.lit "habbo123") in
  let r := Client._listen_for_packets
             [Client.Frame 0 Incoming.USER_OBJECT payload;
              Client.Frame 1 Incoming.USER_OBJECT payload]
             (Client.authenticated None) in
  Client.events r.1 = [Client.Spawn Client.NuxFlowThread; Client.Spawn Client.NuxFlowThread] ∧
  Client.events
    (Client._listen_for_packets
       [Client.Frame 1 Incoming.USER_OBJECT payload]
       (Client._run_nux_flow_begin
          (Client._listen_for_packets
             [Client.Frame 0 Incoming.USER_OBJECT payload]
             (Client.authenticated None)).1)).1
  = [Client.Spawn Client.NuxFlowThread; Client.Log "Starting NUX (New User) Flow..."].
Proof. by vm_compute. Qed.

(** C8, the code at the failing input: a user-object frame whose name is
    "xhabbo" does not begin with "habb", yet the dispatcher starts the
    personalization flow, because it tests whether the lower-cased name
    contains "habb". *)
Theorem C8_contains_not_prefix :
  let name := Py.lit "xhabbo" in
  let s := Client.authenticated None in
  let r := Client.handle_packet 0 Incoming.USER_OBJECT
             (Client.user_object_payload 7 name) s in
  Py.startswith (Py.lower name) Client.habb = false ∧
  Client._nux_running s = false ∧
  Client.username r.1 = name ∧
  Client.events r.1 = [Client.Spawn Client.NuxFlowThread].
Proof. by vm_compute. Qed.

(** C10. A call of send_packet made while the session is not connected or
    has no socket returns at once: nothing is written, the outgoing cipher
    state and every other attribute of the session stay as they were. *)
Theorem C10_send_packet_guard (in_listener : bool) (packet : HabboPacket.t)
  (s : Client.Session)
  (Hguard : Client.connected s = false ∨ Client.sock s = None) :
  Client.send_packet in_listener packet s = s.
Proof.
  unfold Client.send_packet. destruct Hguard as [-> | ->]; [done|].
  by destruct (Client.connected s).
Qed.

Lemma C10_send_packet_guard_witness :
  let s := Client.disconnect false
             (Client.authenticated (ArcFour.init ArcFour.key12345)) in
  Client.send_packet false (HabboPacket.mk 2418 [9; 114]) s = s.
Proof.
  apply C10_send_packet_guard. left. reflexivity.
Defined.

(** * The two orders of the room frames *)

Section RoomFrames.

Import Client.









Lemma listen_cons now packet_id payload rest s :
  connected s = true ->
  _listen_for_packets (Frame now packet_id payload :: rest) s =
  match handle_packet now packet_id payload s with
  | (s', None) => _listen_for_packets rest s'
  | (s', Some ex) => (listener_exit (Some ex) s', true)
  end.
Proof. intros H. cbn [_listen_for_packets]. by rewrite H. Qed.




End RoomFrames.




(** * Further properties of the cipher *)

Section ArcFourStream.

Import ArcFour.

Lemma apply_cipher_app d st a b :
  _apply_cipher st (a ++ b) d =
  ((_apply_cipher (_apply_cipher st a d).1 b d).1,
   (_apply_cipher st a d).2 ++ (_apply_cipher (_apply_cipher st a d).1 b d).2).
Proof.
  revert st. induction a as [|x a IH]; intros st.
  - cbn [app _apply_cipher fst snd]. by destruct (_apply_cipher st b d).
  - rewrite <- app_comm_cons, !apply_cipher_cons. cbn [fst snd]. by rewrite IH.
Qed.

Lemma get_range s i : sbox_ok s -> 0 <= i < 256 -> 0 <= get s i < 256.
Proof.
  intros [Hlen Hperm] Hi. unfold get.
  assert (s !!! Z.to_nat i ∈ s) as Hin by (apply list_elem_of_lookup_total_2; lia).
  generalize dependent (s !!! Z.to_nat i). intros v Hin.
  rewrite Hperm in Hin. apply elem_of_seqZ in Hin. lia.
Qed.

Lemma log2_byte a : 0 <= a < 256 -> Z.log2 a < 8.
Proof.
  intros Ha. destruct (Z.eq_dec a 0) as [->|Hne]; [done|].
  apply Z.log2_lt_pow2; lia.
Qed.

Lemma lxor_byte a b : 0 <= a < 256 -> 0 <= b < 256 -> 0 <= Z.lxor a b < 256.
Proof.
  intros Ha Hb.
  assert (0 <= Z.lxor a b) as Hnn by (apply Z.lxor_nonneg; lia).
  split; [done|].
  destruct (Z.eq_dec (Z.lxor a b) 0) as [->|Hne]; [lia|].
  change 256 with (2 ^ 8). apply Z.log2_lt_pow2; [lia|].
  pose proof (Z.log2_lxor a b ltac:(lia) ltac:(lia)).
  pose proof (log2_byte a Ha). pose proof (log2_byte b Hb). lia.
Qed.

Lemma cipher_byte_range d st b :
  sbox_ok (_s st) -> 0 <= b < 256 -> 0 <= (cipher_byte d st b).2 < 256.
Proof.
  intros Hs Hb. unfold cipher_byte. cbn [snd].
  set (i := (_i st + 1) mod 256).
  set (j := (_j st + get (_s st) i) mod 256).
  assert (0 <= i < 256) as Hi by (apply Z.mod_pos_bound; lia).
  assert (0 <= j < 256) as Hj by (apply Z.mod_pos_bound; lia).
  assert (sbox_ok (swap (_s st) i j)) as Hs' by (by apply swap_ok).
  assert (0 <= (get (swap (_s st) i j) i + get (swap (_s st) i j) j) mod 256 < 256)
    as Hidx by (apply Z.mod_pos_bound; lia).
  apply lxor_byte; [done|].
  destruct d; repeat (apply get_range; [done|]); done.
Qed.

Lemma cipher_byte_cursors d st b :
  _i (cipher_byte d st b).1 = (_i st + 1) mod 256 ∧
  0 <= _j (cipher_byte d st b).1 < 256.
Proof. split; [done|]. cbn. apply Z.mod_pos_bound. lia. Qed.

End ArcFourStream.

Section ArcFourRuns.

Import ArcFour.

Lemma apply_cipher_bytes d data st :
  sbox_ok (_s st) -> Forall Struct.is_byte data ->
  Forall Struct.is_byte (_apply_cipher st data d).2.
Proof.
  revert st. induction data as [|b data IH]; intros st Hs Hd.
  - constructor.
  - inversion Hd as [|? ? Hb Hd']; subst. rewrite apply_cipher_snd.
    constructor; [by apply cipher_byte_range|].
    apply IH; [by apply cipher_byte_ok | done].
Qed.

Lemma apply_cipher_cursors d data st :
  0 <= _i st < 256 -> 0 <= _j st < 256 ->
  _i (_apply_cipher st data d).1 = (_i st + Z.of_nat (length data)) mod 256 ∧
  0 <= _j (_apply_cipher st data d).1 < 256.
Proof.
  revert st. induction data as [|b data IH]; intros st Hi Hj.
  - cbn [_apply_cipher fst length]. rewrite Z.add_0_r, Z.mod_small by done. done.
  - rewrite apply_cipher_fst.
    destruct (cipher_byte_cursors d st b) as [Hi' Hj'].
    destruct (IH (cipher_byte d st b).1) as [IHi IHj].
    { rewrite Hi'. apply Z.mod_pos_bound. lia. }
    { done. }
    split; [|done]. rewrite IHi, Hi', Zplus_mod_idemp_l. f_equal.
    cbn [length]. lia.
Qed.

End ArcFourRuns.

(** X1. The cipher is a stream: processing [a ++ b] in one call gives
    the output of processing [a] followed by the output of processing [b]
    from the state the first call left, and ends in the same state.  Header
    and body of a frame may therefore be decrypted by two calls, and
    successive frames are encrypted under one continuing keystream. *)
Theorem cipher_streaming (st : ArcFour.t) (a b : list Z) (is_decrypt : bool) :
  ArcFour._apply_cipher st (a ++ b) is_decrypt =
  ((ArcFour._apply_cipher (ArcFour._apply_cipher st a is_decrypt).1 b is_decrypt).1,
   (ArcFour._apply_cipher st a is_decrypt).2 ++
   (ArcFour._apply_cipher (ArcFour._apply_cipher st a is_decrypt).1 b is_decrypt).2).
Proof. apply apply_cipher_app. Qed.

(** X2. On an instance built from a key of length at least 1, either
    path turns a run of bytes into as many bytes, each again in 0..255
    (so [bytearray.append] cannot raise); afterwards the cursor [_i] is the
    number of bytes processed modulo 256 and [_j] lies in 0..255. *)
Theorem cipher_output_is_bytes (key data : list Z) (st : ArcFour.t) (is_decrypt : bool)
  (Hinit : ArcFour.init key = Some st) (Hdata : Forall Struct.is_byte data) :
  let r := ArcFour._apply_cipher st data is_decrypt in
  length r.2 = length data ∧ Forall Struct.is_byte r.2 ∧
  ArcFour._i r.1 = Z.of_nat (length data) mod 256 ∧ 0 <= ArcFour._j r.1 < 256.
Proof.
  apply init_ok in Hinit as (Hs & Hi & Hj). intros r. subst r.
  split; [apply apply_cipher_length|].
  split; [by apply apply_cipher_bytes|].
  destruct (apply_cipher_cursors is_decrypt data st) as [Hi' Hj']; [lia | lia |].
  by rewrite Hi', Hi.
Qed.

Lemma cipher_output_is_bytes_witness :
  Forall Struct.is_byte
    (ArcFour._apply_cipher (default (ArcFour.mk [] 0 0) (ArcFour.init ArcFour.key12345))
       ArcFour.HELLO true).2.
Proof.
  refine (proj1 (proj2 (cipher_output_is_bytes ArcFour.key12345 ArcFour.HELLO _ true
                          eq_refl _))).
  unfold ArcFour.HELLO, Struct.is_byte. repeat constructor; lia.
Defined.

(** X3. The state a run leaves depends only on the state it started from
    and on the number of bytes: not on their values, nor on the direction.
    Encrypting and decrypting advance an instance alike. *)
Theorem cipher_state_data_independent (st : ArcFour.t) (data data' : list Z)
  (d d' : bool) (Hlen : length data = length data') :
  (ArcFour._apply_cipher st data d).1 = (ArcFour._apply_cipher st data' d').1.
Proof. by apply apply_cipher_state. Qed.

Lemma cipher_state_data_independent_witness :
  (ArcFour._apply_cipher (ArcFour.mk (seqZ 0 256) 0 0) ArcFour.HELLO false).1
  = (ArcFour._apply_cipher (ArcFour.mk (seqZ 0 256) 0 0) [0; 0; 0; 0; 0] true).1.
Proof.
  apply (cipher_state_data_independent _ ArcFour.HELLO [0; 0; 0; 0; 0] false true).
  reflexivity.
Defined.

(** * Further properties of the packet codec *)

Section FrameFacts.

Import Struct HabboPacket Buffer.

Lemma build_shape packet_id fs emitted :
  build packet_id fs = Some emitted ->
  ∃ bss, emitted = be_encode 4 (2 + Py.len bss) ++ be_encode 2 packet_id ++ bss ∧
         0 <= packet_id <= 65535 ∧ 2 + Py.len bss <= 4294967295.
Proof.
  unfold build. rewrite new_empty.
  destruct (pack_H packet_id) as [idb|] eqn:Hid; [|done]. cbn [mbind option_bind].
  apply pack_H_inv in Hid as [-> Hr].
  destruct (write_fields _ fs) as [p'|] eqn:Hw; [|done]. cbn [mbind option_bind].
  destruct (write_read_fields fs _ p' Hw) as (bss & Hbuf & _ & _).
  cbn [_buffer] in Hbuf.
  unfold get_bytes. destruct (pack_I (Py.len (_buffer p'))) as [hdr|] eqn:Hh; [|done].
  cbn [mbind option_bind]. intros [= <-]. apply pack_I_inv in Hh as [-> Hlen].
  exists bss. rewrite Hbuf in *. rewrite len_app, len_be_encode in *.
  change (Z.of_nat 2) with 2 in *. split; [done|]. split; [done|lia].
Qed.

Lemma slice_bytes (l : list Z) a b : Forall is_byte l -> Forall is_byte (Py.slice l a b).
Proof. intros H. unfold Py.slice. by apply Forall_take, Forall_drop. Qed.

Lemma unpack_H_nonneg bs : Forall is_byte bs -> 0 <= default 0 (unpack_H bs).
Proof.
  intros Hb. unfold unpack_H. destruct (Py.len bs =? 2); [|done]. cbn.
  by apply be_decode_bound.
Qed.

End FrameFacts.

(** X4. A frame built by the constructor and a sequence of typed writes,
    all of them accepted and the integers non-negative, parses back (after
    its 4-byte length prefix) to the same id and, read with the matching
    readers in the order written, to the same values. *)
Theorem frame_round_trip (packet_id : Z) (fs : list HabboPacket.field) (emitted : list Z)
  (Hnonneg : Forall Buffer.nonneg_integer fs)
  (Hbuilt : HabboPacket.build packet_id fs = Some emitted) :
  parse_frame emitted fs = Some (packet_id, Buffer.written <$> fs).
Proof. by apply round_trip_fields. Qed.

Lemma frame_round_trip_witness :
  round_trip 2418
    [HabboPacket.FString (Py.lit "hi"); HabboPacket.FInteger 7;
     HabboPacket.FBoolean true; HabboPacket.FShort 515; HabboPacket.FByte 200]
  = Some (2418, [Buffer.VString (Py.lit "hi"); Buffer.VInteger 7; Buffer.VBoolean true;
                 Buffer.VShort 515; Buffer.VBytes [200]]).
Proof.
  unfold round_trip.
  destruct (HabboPacket.build 2418 _) as [emitted|] eqn:Hb; [|by vm_compute in Hb].
  cbn [mbind option_bind].
  refine (frame_round_trip 2418 _ emitted _ Hb).
  repeat constructor. cbn. lia.
Defined.

(** X5. Every frame the builder emits starts with four bytes that hold,
    big-endian, the number of bytes that follow them; those begin with the
    two bytes of the packet id, which lies in 0..65535. *)
Theorem frame_length_prefix (packet_id : Z) (fs : list HabboPacket.field)
  (emitted : list Z) (Hbuilt : HabboPacket.build packet_id fs = Some emitted) :
  Py.len emitted = 4 + Struct.be_decode (take 4 emitted) ∧
  split_frame (drop 4 emitted) = Some (packet_id, drop 6 emitted) ∧
  0 <= packet_id <= 65535.
Proof.
  destruct (build_shape _ _ _ Hbuilt) as (bss & -> & Hid & Hlen).
  assert (0 <= Py.len bss) by (unfold Py.len; lia).
  rewrite take_app_length' by (by rewrite be_encode_length).
  rewrite be_decode_encode. change (256 ^ Z.of_nat 4) with 4294967296.
  rewrite Z.mod_small by lia.
  split; [rewrite !len_app, !len_be_encode; lia|].
  split; [|done].
  rewrite drop_app_length' by (by rewrite be_encode_length).
  change 6%nat with (4 + 2)%nat. rewrite <- drop_drop.
  rewrite drop_app_length' by (by rewrite be_encode_length).
  rewrite (drop_app_length' _ _ 2) by (by rewrite be_encode_length).
  unfold split_frame.
  change (Py.slice (Struct.be_encode 2 packet_id ++ bss) 0 2)
    with (Py.slice ([] ++ Struct.be_encode 2 packet_id ++ bss)
            (Py.len (@nil Z)) (Py.len (@nil Z) + 2)).
  rewrite (slice_mid [] (Struct.be_encode 2 packet_id) bss 2) by apply len_be_encode.
  unfold Struct.unpack_H. rewrite len_be_encode.
  change (Z.of_nat 2 =? 2) with true. cbn [mbind option_bind].
  rewrite be_decode_encode. change (256 ^ Z.of_nat 2) with 65536.
  rewrite Z.mod_small by lia.
  replace 2 with (Py.len (Struct.be_encode 2 packet_id)) by (by rewrite len_be_encode).
  by rewrite slice_from_app.
Qed.

Lemma frame_length_prefix_witness :
  Py.len (default [] (HabboPacket.build 763 [HabboPacket.FInteger 12345]))
  = 4 + Struct.be_decode (take 4 (default [] (HabboPacket.build 763 [HabboPacket.FInteger 12345]))).
Proof.
  exact (proj1 (frame_length_prefix 763 [HabboPacket.FInteger 12345] _ eq_refl)).
Defined.

(** X6. On a buffer of bytes with the cursor inside it, each lenient
    reader ([read_short], [read_integer], [read_boolean], [read_string])
    leaves the bytes alone and moves the cursor forward or not at all,
    never past the end: a truncated or hostile length field cannot take a
    parser outside the payload. *)
Theorem lenient_readers_stay_inside (b : Buffer.t)
  (Hbytes : Forall Struct.is_byte (Buffer.buffer b))
  (Hpos : 0 <= Buffer.pos b <= Py.len (Buffer.buffer b)) :
  let inside (b' : Buffer.t) :=
    Buffer.buffer b' = Buffer.buffer b ∧
    Buffer.pos b <= Buffer.pos b' <= Py.len (Buffer.buffer b) in
  inside (Buffer.read_short b).2 ∧ inside (Buffer.read_integer b).2 ∧
  inside (Buffer.read_boolean b).2 ∧ inside (Buffer.read_string b).2.
Proof.
  intros inside. subst inside. cbn beta.
  split; [|split; [|split]].
  - unfold Buffer.read_short. destruct (_ >? _) eqn:E; cbn; (split; [done|]); [lia|].
    rewrite Z.gtb_ltb in E. apply Z.ltb_ge in E. lia.
  - unfold Buffer.read_integer. destruct (_ >? _) eqn:E; cbn; (split; [done|]); [lia|].
    rewrite Z.gtb_ltb in E. apply Z.ltb_ge in E. lia.
  - unfold Buffer.read_boolean. destruct (_ >? _) eqn:E; cbn; (split; [done|]); [lia|].
    rewrite Z.gtb_ltb in E. apply Z.ltb_ge in E. lia.
  - unfold Buffer.read_string, Buffer.read_short.
    destruct (Buffer.pos b + 2 >? _) eqn:E; cbn [fst snd Buffer.buffer Buffer.pos].
    + rewrite Z.add_0_r.
      match goal with |- context [if ?c then _ else _] => destruct c eqn:E2 end;
        cbn [snd Buffer.buffer Buffer.pos]; (split; [done|lia]).
    + rewrite Z.gtb_ltb in E. apply Z.ltb_ge in E.
      pose proof (unpack_H_nonneg (Py.slice (Buffer.buffer b) (Buffer.pos b)
                                     (Buffer.pos b + 2)) (slice_bytes _ _ _ Hbytes)).
      match goal with |- context [if ?c then _ else _] => destruct c eqn:E2 end;
        cbn [snd Buffer.buffer Buffer.pos]; (split; [done|]); [lia|].
      rewrite Z.gtb_ltb in E2. apply Z.ltb_ge in E2. lia.
Qed.

Lemma lenient_readers_stay_inside_witness :
  Buffer.pos (Buffer.read_string (Buffer.mk [255; 255; 104; 105] 0)).2 <= 4.
Proof.
  pose proof (lenient_readers_stay_inside (Buffer.mk [255; 255; 104; 105] 0)) as H.
  refine (proj2 (proj2 (proj2 (proj2 (proj2 (H _ _)))))).
  - unfold Struct.is_byte. repeat constructor; lia.
  - change (0 <= 0 <= 4). lia.
Defined.

(** * Further properties of the receive and send paths *)

Section SessionIO.

Import Struct HabboPacket Client.

Lemma recv_all_app s sk (a rest : list Z) :
  sock s = Some sk -> _recv_all (Py.len a) s (a ++ rest) = (Some a, rest).
Proof.
  intros Hs. unfold _recv_all. destruct (Py.len a <=? 0) eqn:E.
  - apply Z.leb_le in E. destruct a as [|x a]; [done|]. unfold Py.len in E. cbn in E. lia.
  - rewrite Hs. rewrite (proj2 (Z.leb_le _ _)) by (rewrite len_app; unfold Py.len; lia).
    unfold Py.len. rewrite Nat2Z.id, take_app_length, drop_app_length. done.
Qed.

Lemma unpack_I_encode v : 0 <= v <= 4294967295 -> unpack_I (be_encode 4 v) = Some v.
Proof.
  intros Hv. unfold unpack_I. rewrite len_be_encode.
  change (Z.of_nat 4 =? 4) with true. cbn match.
  rewrite be_decode_encode. change (256 ^ Z.of_nat 4) with 4294967296.
  by rewrite Z.mod_small by lia.
Qed.

Lemma sock_set_incoming_cipher v s : sock (set_incoming_cipher v s) = sock s.
Proof. by destruct s. Qed.

Lemma set_incoming_cipher_twice v w s :
  set_incoming_cipher v (set_incoming_cipher w s) = set_incoming_cipher v s.
Proof. by destruct s. Qed.

Lemma receive_plain s sk body rest :
  sock s = Some sk -> incoming_cipher s = None -> Py.len body <= 4294967295 ->
  _receive_packet s (be_encode 4 (Py.len body) ++ body ++ rest)
  = (s, rest, delivered body).
Proof.
  intros Hs Hc Hlen. unfold _receive_packet, delivered. rewrite Hc.
  assert (0 <= Py.len body) by (unfold Py.len; lia).
  replace 4 with (Py.len (be_encode 4 (Py.len body))) at 1 by apply len_be_encode.
  rewrite (recv_all_app s sk) by done.
  rewrite unpack_I_encode by lia.
  rewrite (recv_all_app s sk) by done.
  by destruct (split_frame body).
Qed.

Lemma receive_encrypted s sk c body rest :
  sock s = Some sk -> incoming_cipher s = Some c -> Py.len body <= 4294967295 ->
  let frame := be_encode 4 (Py.len body) ++ body in
  _receive_packet s
    (ArcFour.xor_bytes frame (ArcFour.keystream true c (length frame)) ++ rest)
  = (set_incoming_cipher (Some (ArcFour.decrypt c frame).1) s, rest, delivered body).
Proof.
  intros Hs Hc Hlen frame.
  assert (0 <= Py.len body) as Hnn by (unfold Py.len; lia).
  set (enc := ArcFour.xor_bytes frame (ArcFour.keystream true c (length frame))).
  assert (length enc = length frame) as Henc.
  { subst enc. unfold ArcFour.xor_bytes.
    rewrite length_zip_with, keystream_length. lia. }
  assert ((ArcFour.decrypt c enc).2 = frame) as Hdec.
  { unfold ArcFour.decrypt. rewrite apply_cipher_keystream, Henc. subst enc.
    apply xor_bytes_cancel. by rewrite keystream_length. }
  assert (length frame = (4 + length body)%nat) as Hfl.
  { subst frame. by rewrite length_app, be_encode_length. }
  set (e1 := take 4 enc). set (e2 := drop 4 enc).
  assert (enc = e1 ++ e2) as Hsplit by (subst e1 e2; by rewrite take_drop).
  assert (length e1 = 4%nat) as Hl1 by (subst e1; rewrite length_take; lia).
  assert (length e2 = length body) as Hl2 by (subst e2; rewrite length_drop; lia).
  unfold ArcFour.decrypt in Hdec. rewrite Hsplit, apply_cipher_app in Hdec.
  cbn [snd] in Hdec. subst frame.
  apply app_inj_1 in Hdec as [Hh Hb];
    [|by rewrite apply_cipher_length, be_encode_length].
  unfold _receive_packet, delivered. rewrite Hc, Hsplit, <- app_assoc.
  replace 4 with (Py.len e1) at 1 by (unfold Py.len; lia).
  rewrite (recv_all_app s sk) by done.
  unfold ArcFour.decrypt.
  destruct (ArcFour._apply_cipher c e1 true) as [c1 h] eqn:E1.
  cbn [fst snd] in Hh, Hb. subst h.
  rewrite unpack_I_encode by lia.
  replace (Py.len body) with (Py.len e2) at 1 by (unfold Py.len; lia).
  rewrite (recv_all_app _ sk) by (by rewrite sock_set_incoming_cipher).
  destruct (ArcFour._apply_cipher c1 e2 true) as [c2 b] eqn:E2.
  cbn [snd] in Hb. subst b. rewrite set_incoming_cipher_twice.
  assert (c2 = (ArcFour._apply_cipher c (be_encode 4 (Py.len body) ++ body) true).1) as ->.
  { rewrite <- (apply_cipher_state true true c (e1 ++ e2))
      by (rewrite <- Hsplit, Henc; done).
    rewrite apply_cipher_app. cbn [fst]. rewrite E1. cbn [fst]. by rewrite E2. }
  by destruct (split_frame body).
Qed.

End SessionIO.

(** X7. Without an incoming cipher, [_receive_packet] applied to a
    stream that starts with a frame the builder emitted consumes exactly
    that frame, leaves the session as it was, and returns the frame's id
    and a payload from which the matching readers recover what was written
    (integers modulo 2^32). *)
Theorem receive_built_frame (s : Client.Session) (sk : Client.Socket) (packet_id : Z)
  (fs : list HabboPacket.field) (emitted rest : list Z)
  (Hsock : Client.sock s = Some sk) (Hplain : Client.incoming_cipher s = None)
  (Hbuilt : HabboPacket.build packet_id fs = Some emitted) :
  ∃ payload,
    Client._receive_packet s (emitted ++ rest) = (s, rest, inl (packet_id, payload)) ∧
    Buffer.read_fields (Buffer.new payload) fs = Buffer.read_back <$> fs.
Proof.
  pose proof (round_trip_read_back _ _ _ Hbuilt) as Hparse.
  destruct (build_shape _ _ _ Hbuilt) as (bss & -> & Hid & Hlen).
  set (body := Struct.be_encode 2 packet_id ++ bss) in *.
  assert (Py.len body = 2 + Py.len bss) as Hbody
    by (subst body; rewrite len_app, len_be_encode; lia).
  rewrite <- Hbody in *. rewrite <- app_assoc.
  rewrite (receive_plain s sk body rest Hsock Hplain) by lia.
  unfold parse_frame in Hparse.
  replace 4 with (Py.len (Struct.be_encode 4 (Py.len body))) in Hparse
    by (by rewrite len_be_encode).
  rewrite slice_from_app in Hparse. unfold Client.delivered.
  destruct (split_frame body) as [[id' payload]|]; [|done].
  cbn [mbind option_bind] in Hparse. injection Hparse as -> Hread.
  by exists payload.
Qed.

Lemma receive_built_frame_witness :
  ∃ payload,
    Client._receive_packet (Client.authenticated None)
      (default [] (HabboPacket.build 2829 [HabboPacket.FInteger 7]) ++ [1; 2; 3])
    = (Client.authenticated None, [1; 2; 3], inl (2829, payload)) ∧
    Buffer.read_fields (Buffer.new payload) [HabboPacket.FInteger 7]
    = Buffer.read_back <$> [HabboPacket.FInteger 7].
Proof.
  exact (receive_built_frame (Client.authenticated None) (Client.mkSocket false 0) 2829
           [HabboPacket.FInteger 7] _ [1; 2; 3] eq_refl eq_refl eq_refl).
Defined.

(** X8. With an incoming cipher in state [c], a frame that arrives XORed
    with the decrypt-direction (double-lookup) keystream of [c] is
    received like the plain frame: the header and the body are decrypted by
    two calls that together undo the XOR, the id and a payload that reads
    back what was written are returned, and the cipher is left advanced by
    the length of the frame. *)
Theorem receive_encrypted_frame (s : Client.Session) (sk : Client.Socket)
  (c : ArcFour.t) (packet_id : Z) (fs : list HabboPacket.field) (emitted rest : list Z)
  (Hsock : Client.sock s = Some sk) (Hcipher : Client.incoming_cipher s = Some c)
  (Hbuilt : HabboPacket.build packet_id fs = Some emitted) :
  ∃ payload,
    Client._receive_packet s
      (ArcFour.xor_bytes emitted (ArcFour.keystream true c (length emitted)) ++ rest)
    = (Client.set_incoming_cipher (Some (ArcFour.decrypt c emitted).1) s, rest,
       inl (packet_id, payload)) ∧
    Buffer.read_fields (Buffer.new payload) fs = Buffer.read_back <$> fs.
Proof.
  pose proof (round_trip_read_back _ _ _ Hbuilt) as Hparse.
  destruct (build_shape _ _ _ Hbuilt) as (bss & -> & Hid & Hlen).
  set (body := Struct.be_encode 2 packet_id ++ bss) in *.
  assert (Py.len body = 2 + Py.len bss) as Hbody
    by (subst body; rewrite len_app, len_be_encode; lia).
  rewrite <- Hbody in *.
  rewrite (receive_encrypted s sk c body rest Hsock Hcipher) by lia.
  unfold parse_frame in Hparse.
  replace 4 with (Py.len (Struct.be_encode 4 (Py.len body))) in Hparse
    by (by rewrite len_be_encode).
  rewrite slice_from_app in Hparse. unfold Client.delivered.
  destruct (split_frame body) as [[id' payload]|]; [|done].
  cbn [mbind option_bind] in Hparse. injection Hparse as -> Hread.
  by exists payload.
Qed.

Lemma receive_encrypted_frame_witness :
  let c := ArcFour.mk (seqZ 0 256) 0 0 in
  let s := Client.set_incoming_cipher (Some c) (Client.authenticated None) in
  let emitted := default [] (HabboPacket.build 2829 []) in
  ∃ payload,
    Client._receive_packet s
      (ArcFour.xor_bytes emitted (ArcFour.keystream true c (length emitted)) ++ [])
    = (Client.set_incoming_cipher (Some (ArcFour.decrypt c emitted).1) s, [],
       inl (2829, payload)) ∧
    Buffer.read_fields (Buffer.new payload) [] = Buffer.read_back <$> [].
Proof.
  intros c s emitted.
  exact (receive_encrypted_frame s (Client.mkSocket false 0) c 2829 [] emitted []
           eq_refl eq_refl eq_refl).
Defined.

Section ReceiveErrors.

Import Struct Client.

Lemma on_wire_decrypt c data :
  ArcFour.decrypt c (on_wire (Some c) data)
  = ((ArcFour.decrypt c data).1, data).
Proof.
  unfold on_wire, ArcFour.decrypt.
  set (enc := ArcFour.xor_bytes data (ArcFour.keystream true c (length data))).
  assert (length enc = length data) as Henc.
  { subst enc. unfold ArcFour.xor_bytes. rewrite length_zip_with, keystream_length. lia. }
  rewrite (surjective_pairing (ArcFour._apply_cipher c enc true)). f_equal.
  - by apply apply_cipher_state.
  - rewrite apply_cipher_keystream, Henc. subst enc.
    apply xor_bytes_cancel. by rewrite keystream_length.
Qed.

Lemma on_wire_length ic data : length (on_wire ic data) = length data.
Proof.
  destruct ic as [c|]; [|done]. unfold on_wire, ArcFour.xor_bytes.
  rewrite length_zip_with, keystream_length. lia.
Qed.

Lemma set_incoming_cipher_same s : set_incoming_cipher (incoming_cipher s) s = s.
Proof. by destruct s. Qed.

Lemma recv_all_short n s sk inbound :
  sock s = Some sk -> 0 < n -> Py.len inbound < n -> _recv_all n s inbound = (None, []).
Proof.
  intros Hs Hn Hl. unfold _recv_all. rewrite (proj2 (Z.leb_gt n 0)) by lia.
  rewrite Hs. by rewrite (proj2 (Z.leb_gt n (Py.len inbound))) by lia.
Qed.

Lemma receive_header_only s sk n tail :
  sock s = Some sk -> Py.len tail < n <= 4294967295 ->
  _receive_packet s (on_wire (incoming_cipher s) (be_encode 4 n) ++ tail)
  = (set_incoming_cipher (after_run (incoming_cipher s) (be_encode 4 n)) s, [],
     inr ConnectionError).
Proof.
  intros Hs Hn. assert (0 <= Py.len tail) by (unfold Py.len; lia).
  unfold _receive_packet.
  pose proof (on_wire_length (incoming_cipher s) (be_encode 4 n)) as Hl.
  rewrite be_encode_length in Hl.
  replace 4 with (Py.len (on_wire (incoming_cipher s) (be_encode 4 n)))
    by (unfold Py.len; lia).
  destruct (incoming_cipher s) as [c|] eqn:Hc.
  - rewrite (recv_all_app s sk) by done. rewrite on_wire_decrypt.
    rewrite unpack_I_encode by lia.
    by rewrite (recv_all_short n _ sk) by (rewrite ?sock_set_incoming_cipher; done || lia).
  - rewrite (recv_all_app s sk) by done. cbn [on_wire after_run fmap option_fmap option_map].
    rewrite unpack_I_encode by lia.
    rewrite (recv_all_short n _ sk) by (done || lia).
    by rewrite <- Hc, set_incoming_cipher_same.
Qed.

End ReceiveErrors.

(** X9. Whether or not an incoming cipher is installed: a frame whose
    length field announces fewer than two bytes makes [_receive_packet]
    raise [struct.error] after consuming it; a stream that ends before the
    announced number of bytes has arrived, or before the four bytes of the
    length field have, makes it raise [ConnectionError], with every byte
    that did arrive consumed.  With a cipher the frame is taken as it
    appears under the decrypt-direction keystream, and the cipher is left
    advanced by the bytes that were decrypted. *)
Theorem receive_malformed_frame (s : Client.Session) (sk : Client.Socket)
  (body rest tail short : list Z) (n : Z) (Hsock : Client.sock s = Some sk) :
  let ic := Client.incoming_cipher s in
  (Py.len body < 2 ->
   Client._receive_packet s
     (Client.on_wire ic (Struct.be_encode 4 (Py.len body) ++ body) ++ rest)
   = (Client.set_incoming_cipher
        (Client.after_run ic (Struct.be_encode 4 (Py.len body) ++ body)) s,
      rest, inr OtherException)) ∧
  (Py.len tail < n <= 4294967295 ->
   Client._receive_packet s (Client.on_wire ic (Struct.be_encode 4 n) ++ tail)
   = (Client.set_incoming_cipher (Client.after_run ic (Struct.be_encode 4 n)) s, [],
      inr ConnectionError)) ∧
  (Py.len short < 4 ->
   Client._receive_packet s short = (s, [], inr ConnectionError)).
Proof.
  intros ic. subst ic. split; [|split].
  - intros Hshort. assert (0 <= Py.len body) by (unfold Py.len; lia).
    assert (Client.delivered body = inr OtherException) as Hd.
    { unfold Client.delivered, split_frame.
      destruct body as [|x [|y body]]; [done | done |].
      unfold Py.len in Hshort. cbn [length] in Hshort. lia. }
    destruct (Client.incoming_cipher s) as [c|] eqn:Hc.
    + cbn [Client.on_wire Client.after_run fmap option_fmap option_map].
      rewrite (receive_encrypted s sk c body rest Hsock Hc) by lia. by rewrite Hd.
    + cbn [Client.on_wire Client.after_run fmap option_fmap option_map].
      rewrite <- app_assoc.
      rewrite (receive_plain s sk body rest Hsock Hc) by lia.
      by rewrite Hd, <- Hc, set_incoming_cipher_same.
  - intros Hn. by apply (receive_header_only s sk).
  - intros Hs. unfold Client._receive_packet.
    assert (0 <= Py.len short) by (unfold Py.len; lia).
    rewrite (recv_all_short 4 s sk) by (done || lia).
    by destruct (Client.incoming_cipher s).
Qed.

Lemma receive_malformed_frame_witness :
  let c := ArcFour.mk (seqZ 0 256) 0 0 in
  let s := Client.set_incoming_cipher (Some c) (Client.authenticated None) in
  Client._receive_packet s
    (Client.on_wire (Some c) (Struct.be_encode 4 (Py.len [7]) ++ [7]) ++ [9; 9])
  = (Client.set_incoming_cipher
       (Client.after_run (Some c) (Struct.be_encode 4 (Py.len [7]) ++ [7])) s,
     [9; 9], inr OtherException).
Proof.
  intros c s.
  refine (proj1 (receive_malformed_frame s (Client.mkSocket false 0)
                   [7] [9; 9] [] [] 0 eq_refl) _).
  reflexivity.
Defined.

Section SendFacts.

Import HabboPacket Client.

Lemma send_packet_encrypts il p s sk c raw :
  connected s = true -> sock s = Some sk -> broken sk = false ->
  outgoing_cipher s = Some c -> get_bytes p = Some raw ->
  send_packet il p s =
  set_wire (wire s ++ (ArcFour.encrypt c raw).2)
    (set_outgoing_cipher (Some (ArcFour.encrypt c raw).1) s).
Proof.
  intros Hc Hs Hb Ho Hr. unfold send_packet. rewrite Hc, Hs, Hr, Ho.
  destruct (ArcFour.encrypt c raw) as [c' enc]. unfold sendall. rewrite Hb.
  by destruct s.
Qed.

(** A write that raises: what went out is a leading part of the data. *)
Lemma sendall_raises sk data s :
  broken sk = true ->
  sendall sk data s = (set_wire (wire s ++ take (accepts sk) data) s, false).
Proof. intros Hb. unfold sendall. by rewrite Hb. Qed.

Lemma send_failed_shape il t :
  connected (send_failed il t) = false ∧ sock (send_failed il t) = None ∧
  wire (send_failed il t) = wire t ∧ events (send_failed il t) = events t ∧
  is_banned (send_failed il t) = is_banned t ∧ room_map (send_failed il t) = room_map t.
Proof.
  unfold send_failed, disconnect, report_status.
  destruct t as [[sk|] ? ? ? [] ? ? ? ? ? ? ? ? ? ? ? ? ?], il; done.
Qed.

Lemma send_packet_plain il p s sk raw :
  connected s = true -> sock s = Some sk -> broken sk = false ->
  outgoing_cipher s = None -> get_bytes p = Some raw ->
  send_packet il p s = set_wire (wire s ++ raw) s.
Proof.
  intros Hc Hs Hb Ho Hr. unfold send_packet. rewrite Hc, Hs, Hr, Ho.
  unfold sendall. by rewrite Hb.
Qed.

Lemma disconnect_shape il s :
  connected (disconnect il s) = false ∧ sock (disconnect il s) = None ∧
  wire (disconnect il s) = wire s ∧ is_banned (disconnect il s) = is_banned s ∧
  events (disconnect il s) =
    events s ++ (if connected s && negb il
                 then [Status (if is_banned s then "Banned" else "Disconnected")%string]
                 else []).
Proof.
  destruct s as [[sk|] ? ? ? [] [] ? ? ? ? ? ? ? ? ? ? ? ?], il;
    cbn; rewrite ?app_nil_r; done.
Qed.

End SendFacts.

(** X10. Successive sends on a healthy session with an outgoing cipher
    put on the wire the encryption of the concatenated frames under one
    continuing keystream: the cipher is not re-keyed between frames, and
    the session stays connected. *)
Theorem two_sends_one_keystream (il : bool) (p1 p2 : HabboPacket.t)
  (s : Client.Session) (sk : Client.Socket) (c : ArcFour.t) (raw1 raw2 : list Z)
  (Hconn : Client.connected s = true) (Hsock : Client.sock s = Some sk)
  (Hsound : Client.broken sk = false) (Hcipher : Client.outgoing_cipher s = Some c)
  (Hraw1 : HabboPacket.get_bytes p1 = Some raw1)
  (Hraw2 : HabboPacket.get_bytes p2 = Some raw2) :
  let s2 := Client.send_packet il p2 (Client.send_packet il p1 s) in
  Client.wire s2 = Client.wire s ++ (ArcFour.encrypt c (raw1 ++ raw2)).2 ∧
  Client.outgoing_cipher s2 = Some (ArcFour.encrypt c (raw1 ++ raw2)).1 ∧
  Client.connected s2 = true ∧ Client.events s2 = Client.events s.
Proof.
  intros s2. subst s2.
  rewrite (send_packet_encrypts il p1 s sk c raw1) by done.
  set (c1 := (ArcFour.encrypt c raw1).1).
  rewrite (send_packet_encrypts il p2 _ sk c1 raw2);
    [| by destruct s | by destruct s | done | by destruct s | done].
  unfold ArcFour.encrypt in *. rewrite apply_cipher_app. cbn [fst snd].
  fold c1. destruct s; cbn in *. rewrite <- app_assoc. by subst.
Qed.

Lemma two_sends_one_keystream_witness :
  let c := ArcFour.mk (seqZ 0 256) 0 0 in
  let p := default (HabboPacket.mk 0 []) compose_pong in
  Client.wire (Client.send_packet false p
                 (Client.send_packet false p (Client.authenticated (Some c))))
  = [] ++ (ArcFour.encrypt c ([0; 0; 0; 2; 9; 114] ++ [0; 0; 0; 2; 9; 114])).2.
Proof.
  intros c p.
  exact (proj1 (two_sends_one_keystream false p p (Client.authenticated (Some c))
                  (Client.mkSocket false 0) c _ _ eq_refl eq_refl eq_refl eq_refl
                  eq_refl eq_refl)).
Defined.

(** X11. When the socket write raises or the frame cannot be serialised,
    [send_packet] leaves the session not connected with its socket closed
    and never calls the status observer, on whichever thread it runs:
    [connected] is cleared before [disconnect] looks at it.  Nothing but a
    leading part of the frame (of its encryption, with an outgoing cipher)
    has gone out on the wire, and nothing at all when the frame could not
    be serialised. *)
Theorem send_failure_is_silent (il : bool) (p : HabboPacket.t) (s : Client.Session)
  (sk : Client.Socket)
  (Hconn : Client.connected s = true) (Hsock : Client.sock s = Some sk)
  (Hfail : Client.broken sk = true ∨ HabboPacket.get_bytes p = None) :
  let s' := Client.send_packet il p s in
  Client.connected s' = false ∧ Client.sock s' = None ∧
  Client.events s' = Client.events s ∧
  ∃ sent, Client.wire s' = Client.wire s ++ sent ∧
    match HabboPacket.get_bytes p with
    | None => sent = []
    | Some raw =>
        sent `prefix_of`
          match Client.outgoing_cipher s with
          | Some c => (ArcFour.encrypt c raw).2
          | None => raw
          end
    end.
Proof.
  intros s'. subst s'. unfold Client.send_packet. rewrite Hconn, Hsock.
  destruct (HabboPacket.get_bytes p) as [raw|].
  - destruct Hfail as [Hb|]; [|done].
    destruct (Client.outgoing_cipher s) as [c|].
    + destruct (ArcFour.encrypt c raw) as [c' enc]. rewrite sendall_raises by done.
      destruct (send_failed_shape il
                  (Client.set_wire
                     (Client.wire (Client.set_outgoing_cipher (Some c') s)
                      ++ take (Client.accepts sk) enc)
                     (Client.set_outgoing_cipher (Some c') s)))
        as (H1 & H2 & H3 & H4 & _).
      split; [done|]. split; [done|]. split; [rewrite H4; by destruct s|].
      exists (take (Client.accepts sk) enc). split; [rewrite H3; by destruct s|].
      cbn [snd]. exists (drop (Client.accepts sk) enc). by rewrite take_drop.
    + rewrite sendall_raises by done.
      destruct (send_failed_shape il
                  (Client.set_wire (Client.wire s ++ take (Client.accepts sk) raw) s))
        as (H1 & H2 & H3 & H4 & _).
      split; [done|]. split; [done|]. split; [rewrite H4; by destruct s|].
      exists (take (Client.accepts sk) raw). split; [rewrite H3; by destruct s|].
      exists (drop (Client.accepts sk) raw). by rewrite take_drop.
  - destruct (send_failed_shape il s) as (H1 & H2 & H3 & H4 & _).
    split; [done|]. split; [done|]. split; [done|].
    exists []. by rewrite app_nil_r.
Qed.

Lemma send_failure_is_silent_witness :
  let s := Client.set_sock (Some (Client.mkSocket true 2)) (Client.authenticated None) in
  let p := default (HabboPacket.mk 0 []) compose_pong in
  Client.connected (Client.send_packet true p s) = false ∧
  Client.events (Client.send_packet true p s) = [] ∧
  Client.wire (Client.send_packet true p s) = [0; 0].
Proof.
  intros s p.
  destruct (send_failure_is_silent true p s (Client.mkSocket true 2) eq_refl eq_refl
              (or_introl eq_refl)) as (H1 & _ & H3 & _).
  split; [exact H1|]. split; [exact H3|]. reflexivity.
Defined.

(** X12. [disconnect] always leaves the session not connected and without
    a socket, reports the status ("Banned" if the ban flag is set, else
    "Disconnected") exactly when the session was connected and the caller
    is not the listener thread, and a second call changes nothing. *)
Theorem disconnect_idempotent (il : bool) (s : Client.Session) :
  let s1 := Client.disconnect il s in
  Client.connected s1 = false ∧ Client.sock s1 = None ∧
  Client.events s1 =
    Client.events s ++
    (if Client.connected s && negb il
     then [Client.Status (if Client.is_banned s then "Banned" else "Disconnected")%string]
     else []) ∧
  ∀ il', Client.disconnect il' s1 = s1.
Proof.
  intros s1. subst s1.
  destruct (disconnect_shape il s) as (Hc & Hs & _ & _ & He).
  split; [done|]. split; [done|]. split; [done|].
  intros il'. clear He. revert Hc Hs. generalize (Client.disconnect il s).
  intros s1 Hc Hs. destruct s1; cbn in *. by subst.
Qed.

(** * Further properties of the dispatcher *)

Section ListenerFacts.

Import Parsers Client.

Lemma sock_emit ev s : sock (emit ev s) = sock s.
Proof. by destruct s. Qed.

Lemma listener_exit_shape ex s :
  let r := listener_exit ex s in
  connected r = false ∧ sock r = None ∧
  last (events r) = Some (Status (if is_banned r then "Banned" else "Disconnected")%string).
Proof.
  unfold listener_exit, report_status.
  set (s1 := disconnect true _).
  destruct (disconnect_shape true
              (set_connected false
                 match ex with
                 | Some BanDetectedException => set_is_banned true s
                 | Some ConnectionError => emit (Log "Socket Disconnected/Timeout") s
                 | _ => s
                 end)) as (Hc & Hs & _).
  fold s1 in Hc, Hs. cbn zeta.
  by rewrite connected_emit, sock_emit, is_banned_emit, events_emit, last_snoc.
Qed.

Lemma listener_exit_keeps_ban ex s :
  is_banned s = true -> is_banned (listener_exit ex s) = true.
Proof.
  intros Hb. unfold listener_exit, report_status. rewrite is_banned_emit.
  destruct (disconnect_shape true
              (set_connected false
                 match ex with
                 | Some BanDetectedException => set_is_banned true s
                 | Some ConnectionError => emit (Log "Socket Disconnected/Timeout") s
                 | _ => s
                 end)) as (_ & _ & _ & -> & _).
  destruct ex as [[]|]; by destruct s.
Qed.

Lemma send_packet_keeps_ban il p s : is_banned (send_packet il p s) = is_banned s.
Proof.
  unfold send_packet.
  destruct (connected s); [|done]. destruct (sock s) as [sk|]; [|done].
  destruct (HabboPacket.get_bytes p) as [raw|];
    [|by rewrite (proj1 (proj2 (proj2 (proj2 (proj2 (send_failed_shape il s))))))].
  destruct (outgoing_cipher s) as [c|].
  - destruct (ArcFour.encrypt c raw) as [c' enc]. unfold sendall.
    destruct (broken sk);
      [rewrite (proj1 (proj2 (proj2 (proj2 (proj2 (send_failed_shape il _))))))|];
      by destruct s.
  - unfold sendall.
    destruct (broken sk);
      [rewrite (proj1 (proj2 (proj2 (proj2 (proj2 (send_failed_shape il _))))))|];
      by destruct s.
Qed.

Lemma add_users_keep_ban us s : is_banned (fold_left add_user us s) = is_banned s.
Proof.
  revert s. induction us as [|u us IH]; intros s; [done|].
  cbn [fold_left]. rewrite IH. unfold add_user.
  repeat match goal with |- context [if ?c then _ else _] => destruct c end;
    by destruct s.
Qed.

Lemma handle_packet_keeps_ban now packet_id payload s :
  is_banned s = true -> is_banned (handle_packet now packet_id payload s).1 = true.
Proof.
  intros Hb. unfold handle_packet.
  repeat match goal with
         | |- context [if ?c =? ?d then _ else _] => destruct (c =? d)
         end.
  - destruct (Buffer.read_integer _) as [count buf].
    destruct (repeat_read _ _ _ _) as [buf' users]. by destruct s.
  - destruct (Buffer.read_integer _) as [idx buf].
    destruct (Buffer.read_string _) as [msg buf'].
    destruct (_ !! _); [|done]. by destruct s.
  - unfold _handle_disconnect_reason. destruct (Struct.unpack_i payload); [|done].
    destruct (_ || _); by destruct s.
  - by destruct s.
  - destruct compose_pong; [|done]. cbn [fst]. by rewrite send_packet_keeps_ban.
  - by destruct s.
  - cbn [fst]. by rewrite add_users_keep_ban.
  - unfold on_user_object. cbn [fst].
    match goal with |- context [if ?c then _ else _] => destruct c end; by destruct s.
  - destruct (compose_update_home_room _); [|done]. cbn [fst].
    by rewrite send_packet_keeps_ban.
  - by destruct s.
  - unfold on_floor_height_map.
    destruct (Room.parse_floor_height_map _ _) as [rm [ex|]]; [by destruct s|].
    destruct s as [? ? ? ? ? ? ? [[|b bs]|] ? ? ? ? ? ? ? ? ? ?]; cbn in *; try done.
    by destruct (Room.parse_height_map _ _) as [rm' [ex|]].
  - unfold on_height_map. destruct (_ >? _).
    + destruct (Room.parse_height_map _ _) as [rm ex]. by destruct s.
    + by destruct s.
  - destruct (Py.int 10 _); [|done]. by destruct s.
  - done.
Qed.

Lemma repeat_read_inv {A} (R : A -> A -> Prop) (body : Buffer.t -> A -> Buffer.t * A) :
  (∀ a, R a a) -> (∀ a b c, R a b -> R b c -> R a c) ->
  (∀ buf a, R a (body buf a).2) ->
  ∀ n buf a, R a (repeat_read n body buf a).2.
Proof.
  intros Hrefl Htrans Hbody n. induction n as [|n IH]; intros buf a; [apply Hrefl|].
  cbn [repeat_read]. specialize (Hbody buf a).
  destruct (body buf a) as [buf' a']. eapply Htrans; [apply Hbody | apply IH].
Qed.

Lemma moved_refl u : moved u u.
Proof. exists (x u), (y u). by destruct u. Qed.

Lemma moved_trans u1 u2 u3 : moved u1 u2 -> moved u2 u3 -> moved u1 u3.
Proof. intros (a & b & ->) (c & d & ->). by exists c, d. Qed.

Lemma movement_entry_moved buf users i :
  option_Forall2 moved (users !! i) ((movement_entry buf users).2 !! i).
Proof.
  unfold movement_entry.
  repeat match goal with
         | |- context [let '(_, _) := ?e in _] => destruct e
         end.
  cbn [snd]. rewrite lookup_alter. case_decide as Hi.
  - subst. destruct (users !! i) as [u|]; constructor. by eexists _, _.
  - destruct (users !! i) as [u|]; constructor. apply moved_refl.
Qed.

Lemma parse_user_length buf users : length (parse_user buf users).2 = S (length users).
Proof.
  unfold parse_user.
  repeat match goal with
         | |- context [let '(_, _) := ?e in _] => destruct e
         | |- context [if ?c then _ else _] => destruct c
         end; cbn [snd]; rewrite length_app; cbn; lia.
Qed.

Lemma repeat_read_length {A} (body : Buffer.t -> list A -> Buffer.t * list A) :
  (∀ buf acc, length (body buf acc).2 = S (length acc)) ->
  ∀ n buf acc, length (repeat_read n body buf acc).2 = (n + length acc)%nat.
Proof.
  intros Hbody n. induction n as [|n IH]; intros buf acc; [done|].
  cbn [repeat_read]. specialize (Hbody buf acc).
  destruct (body buf acc) as [buf' acc']. rewrite IH. cbn [snd] in Hbody. lia.
Qed.

End ListenerFacts.

Lemma listen_exit_inv (incoming : list Client.received) (s : Client.Session) :
  let r := Client._listen_for_packets incoming s in
  if r.2 then
    Client.connected r.1 = false ∧ Client.sock r.1 = None ∧
    last (Client.events r.1) =
      Some (Client.Status (if Client.is_banned r.1 then "Banned" else "Disconnected")%string)
  else Client.connected r.1 = true.
Proof.
  revert s. induction incoming as [|f incoming IH]; intros s.
  - cbn [Client._listen_for_packets]. destruct (Client.connected s) eqn:Hc; cbn [fst snd].
    + done.
    + apply listener_exit_shape.
  - cbn [Client._listen_for_packets]. destruct (Client.connected s) eqn:Hc.
    + destruct f as [now packet_id payload| |].
      * destruct (Client.handle_packet now packet_id payload s) as [s' [ex|]].
        -- apply listener_exit_shape.
        -- apply IH.
      * apply listener_exit_shape.
      * apply listener_exit_shape.
    + apply listener_exit_shape.
Qed.

(** X13. Whatever frames or errors the socket delivers, and from whatever
    session state: when [_listen_for_packets] has left its loop the session
    is not connected, has no socket, and the last effect is the status
    report, "Banned" precisely when the ban flag is set and "Disconnected"
    otherwise; while it has not left the loop the session is connected. *)
Theorem listener_exit_state (incoming : list Client.received) (s : Client.Session) :
  let r := Client._listen_for_packets incoming s in
  if r.2 then
    Client.connected r.1 = false ∧ Client.sock r.1 = None ∧
    last (Client.events r.1) =
      Some (Client.Status (if Client.is_banned r.1 then "Banned" else "Disconnected")%string)
  else Client.connected r.1 = true.
Proof. apply listen_exit_inv. Qed.

(** X14. The ban flag is never cleared by the listener: if it is set when
    frames start to be processed it is set afterwards, whatever the frames,
    and a listener that then stops reports "Banned". *)
Theorem ban_flag_is_sticky (incoming : list Client.received) (s : Client.Session)
  (Hban : Client.is_banned s = true) :
  let r := Client._listen_for_packets incoming s in
  Client.is_banned r.1 = true ∧
  (if r.2 then last (Client.events r.1) = Some (Client.Status "Banned") else True).
Proof.
  assert (Client.is_banned (Client._listen_for_packets incoming s).1 = true) as Hb.
  { revert s Hban. induction incoming as [|f incoming IH]; intros s Hban.
    - cbn [Client._listen_for_packets]. destruct (Client.connected s); [done|].
      by apply listener_exit_keeps_ban.
    - cbn [Client._listen_for_packets]. destruct (Client.connected s);
        [|by apply listener_exit_keeps_ban].
      destruct f as [now packet_id payload| |];
        [|by apply listener_exit_keeps_ban..].
      pose proof (handle_packet_keeps_ban now packet_id payload s Hban) as Hh.
      destruct (Client.handle_packet now packet_id payload s) as [s' [ex|]].
      + by apply listener_exit_keeps_ban.
      + by apply IH. }
  intros r. subst r. split; [done|].
  pose proof (listen_exit_inv incoming s) as He. cbn zeta in He.
  destruct (Client._listen_for_packets incoming s).2; [|done].
  destruct He as (_ & _ & He). by rewrite Hb in He.
Qed.

Lemma ban_flag_is_sticky_witness :
  let s := Client.set_is_banned true (Client.authenticated None) in
  Client.is_banned
    (Client._listen_for_packets [Client.Frame 0 Incoming.PING []; Client.RecvError] s).1
  = true.
Proof.
  intros s.
  exact (proj1 (ban_flag_is_sticky [Client.Frame 0 Incoming.PING []; Client.RecvError] s
                  eq_refl)).
Defined.

(** X15. A frame with id 1510 ends the session as banned whatever its
    payload: the ban flag is set, the listener stops without looking at any
    later frame, and the status reported is "Banned". *)
Theorem ban_frame_1510 (now : Z) (payload : list Z) (rest : list Client.received)
  (s : Client.Session) (Hconn : Client.connected s = true) :
  let r := Client._listen_for_packets (Client.Frame now 1510 payload :: rest) s in
  r = Client._listen_for_packets [Client.Frame now 1510 payload] s ∧
  r.2 = true ∧ Client.is_banned r.1 = true ∧ Client.connected r.1 = false ∧
  last (Client.events r.1) = Some (Client.Status "Banned").
Proof.
  intros r. subst r. rewrite !listen_cons by done.
  change (Client.handle_packet now 1510 payload s)
    with (Client.set_is_banned true (Client.emit (Client.Log "BAN DETECTED via Packet 1510") s),
          Some BanDetectedException).
  cbn iota beta. split; [done|]. split; [done|].
  destruct (listener_exit_ban
              (Client.set_is_banned true
                 (Client.emit (Client.Log "BAN DETECTED via Packet 1510") s)))
    as (Hc & Hb & He).
  done.
Qed.

Lemma ban_frame_1510_witness :
  last (Client.events
          (Client._listen_for_packets
             [Client.Frame 0 1510 []; Client.Frame 1 Incoming.PING []]
             (Client.authenticated None)).1)
  = Some (Client.Status "Banned").
Proof.
  exact (proj2 (proj2 (proj2 (proj2
           (ban_frame_1510 0 [] [Client.Frame 1 Incoming.PING []]
              (Client.authenticated None) eq_refl))))).
Defined.

(** X16. A position-update frame (id 1030) never adds or removes a cached
    user and never raises: every user of the room cache is still there
    under the same index, identical but for its coordinates, whatever the
    payload. *)
Theorem movement_keeps_users (now : Z) (payload : list Z) (s : Client.Session) :
  let r := Client.handle_packet now 1030 payload s in
  r.2 = None ∧
  ∀ i, option_Forall2 Client.moved (Client.users_in_room s !! i)
         (Client.users_in_room r.1 !! i).
Proof.
  change (Client.handle_packet now 1030 payload s) with
    (let buf := Buffer.new payload in
     let '(count, buf) := Buffer.read_integer buf in
     let '(_, users) :=
       Parsers.repeat_read (Z.to_nat count) Client.movement_entry buf
         (Client.users_in_room s) in
     (Client.set_users_in_room users s, @None exn)).
  cbn zeta. destruct (Buffer.read_integer (Buffer.new payload)) as [count buf].
  pose proof (repeat_read_inv
                (fun a b : gmap Z Parsers.HabboUser =>
                   ∀ i, option_Forall2 Client.moved (a !! i) (b !! i))
                Client.movement_entry) as Hinv.
  specialize (Hinv ltac:(intros a i; destruct (a !! i); constructor; apply moved_refl)).
  specialize (Hinv ltac:(intros a b c Hab Hbc i; specialize (Hab i); specialize (Hbc i);
                         destruct Hab; inversion Hbc; subst; constructor;
                         eauto using moved_trans)).
  specialize (Hinv ltac:(intros b0 a i; apply movement_entry_moved)).
  specialize (Hinv (Z.to_nat count) buf (Client.users_in_room s)).
  destruct (Parsers.repeat_read _ _ _ _) as [buf' users]. cbn [fst snd] in *.
  split; [done|]. intros i. specialize (Hinv i). by destruct s.
Qed.

(** X17. [parse_users] returns exactly as many users as the count field
    announces, however short the payload is: the lenient readers fill what
    is missing with defaults and never stop the loop. *)
Theorem parse_users_count (count : Z) (rest : list Z)
  (Hcount : 0 <= count <= 4294967295) :
  length (Parsers.parse_users (Struct.be_encode 4 count ++ rest)) = Z.to_nat count.
Proof.
  unfold Parsers.parse_users.
  change (Buffer.new (Struct.be_encode 4 count ++ rest))
    with (Buffer.mk ([] ++ Struct.be_encode 4 count ++ rest) (Py.len (@nil Z))).
  rewrite (read_integer_at _ [] rest count eq_refl).
  rewrite Z.mod_small by lia.
  rewrite (repeat_read_length Parsers.parse_user parse_user_length). cbn. lia.
Qed.

Lemma parse_users_count_witness :
  length (Parsers.parse_users (Struct.be_encode 4 3 ++ [])) = 3%nat.
Proof. apply (parse_users_count 3 []). lia. Defined.

(** * Further properties of the room map *)

Section FloorFacts.

Import Room.

Lemma index_elem {A} (l : list A) i a : Py.index l i = Some a -> a ∈ l.
Proof.
  unfold Py.index. intros H.
  repeat case_match; try done; by eapply list_elem_of_lookup_2.
Qed.

Lemma setitem_some {A} (l : list A) i v l' :
  Py.setitem l i v = Some l' -> ∃ k, l' = <[k := v]> l.
Proof. unfold Py.setitem. repeat case_match; intros [= <-]; eauto. Qed.

Lemma setitem2_some_dims {A} w h (g g' : list (list A)) y x v :
  dims_ok w h g -> Py.setitem2 g y x v = Some g' -> dims_ok w h g'.
Proof.
  intros [Hlen Hrows] H. unfold Py.setitem2 in H.
  destruct (Py.index g y) as [row|] eqn:Hr; [|done]. cbn [mbind option_bind] in H.
  destruct (Py.setitem row x v) as [row'|] eqn:Hs; [|done]. cbn [mbind option_bind] in H.
  apply setitem_some in Hs as [k ->]. apply setitem_some in H as [k' ->].
  apply index_elem in Hr. pose proof (proj1 (Forall_forall _ _) Hrows _ Hr) as Hrow.
  split.
  - unfold Py.len in *. by rewrite length_insert.
  - apply Forall_insert; [done|].
    unfold Py.len in *. by rewrite length_insert.
Qed.

Lemma setitem2_outside {A} w h (g : list (list A)) y x v :
  dims_ok w h g -> 0 <= y < h -> w <= x -> Py.setitem2 g y x v = None.
Proof.
  intros [Hlen Hrows] Hy Hx. unfold Py.setitem2.
  destruct (index_within g y) as (row & -> & Hrow); [lia|].
  assert (Py.len row = w) as Hw by (eapply (Forall_lookup_1 _ _ _ _ Hrows Hrow)).
  cbn [mbind option_bind]. unfold Py.setitem.
  assert (0 <= Py.len row) by (unfold Py.len; lia).
  rewrite (proj2 (Z.leb_le 0 x)) by lia.
  by rewrite (proj2 (Z.ltb_ge x (Py.len row))) by lia.
Qed.

Lemma fill_row_dims w h fm y x row :
  dims_ok w h fm -> dims_ok w h (fill_row fm y x row).1.
Proof.
  revert fm x. induction row as [|c row IH]; intros fm x Hd; [done|].
  cbn [fill_row]. destruct (Py.setitem2 fm y x [c]) as [fm'|] eqn:E; [|done].
  apply IH. by eapply setitem2_some_dims.
Qed.

Lemma fill_rows_dims w h fm y rows :
  dims_ok w h fm -> dims_ok w h (fill_rows fm y rows).1.
Proof.
  revert fm y. induction rows as [|r rows IH]; intros fm y Hd; [done|].
  cbn [fill_rows]. pose proof (fill_row_dims w h fm y 0 r Hd) as Hr.
  destruct (fill_row fm y 0 r) as [fm' []]; cbn [fst] in *; [by apply IH | done].
Qed.

Lemma fill_row_flag w h fm y x row :
  dims_ok w h fm -> 0 <= y < h -> 0 <= x <= w ->
  (fill_row fm y x row).2 = true ↔ x + Py.len row <= w.
Proof.
  revert fm x. induction row as [|c row IH]; intros fm x Hd Hy Hx.
  - cbn. unfold Py.len. cbn. split; [lia|done].
  - cbn [fill_row]. replace (Py.len (c :: row)) with (1 + Py.len row)
      by (unfold Py.len; cbn [length]; lia).
    assert (0 <= Py.len row) by (unfold Py.len; lia).
    destruct (decide (x < w)) as [Hlt|Hge].
    + destruct (setitem2_dims w h fm y x [c] Hd Hy ltac:(lia)) as (fm' & -> & Hd').
      rewrite (IH fm' (x + 1)) by (done || lia). lia.
    + rewrite (setitem2_outside w h fm y x [c] Hd Hy) by lia. cbn [snd].
      split; [done|lia].
Qed.

Lemma fill_rows_flag w h fm y rows :
  dims_ok w h fm -> 0 <= w -> 0 <= y -> y + Py.len rows <= h ->
  (fill_rows fm y rows).2 = true ↔ Forall (fun r => Py.len r <= w) rows.
Proof.
  revert fm y. induction rows as [|r rows IH]; intros fm y Hd Hw Hy Hh.
  - cbn. split; [constructor|done].
  - cbn [fill_rows]. replace (Py.len (r :: rows)) with (1 + Py.len rows) in Hh
      by (unfold Py.len; cbn [length]; lia).
    assert (0 <= Py.len rows) by (unfold Py.len; lia).
    pose proof (fill_row_flag w h fm y 0 r Hd ltac:(lia) ltac:(lia)) as Hf.
    pose proof (fill_row_dims w h fm y 0 r Hd) as Hd'.
    rewrite Forall_cons.
    destruct (fill_row fm y 0 r) as [fm' []]; cbn [fst snd] in *.
    + rewrite (IH fm' (y + 1)) by (done || lia).
      assert (Py.len r <= w) by (by apply Hf).
      tauto.
    + split; [done|]. intros [Hr _]. destruct Hf as [_ Hf]. by apply Hf; lia.
Qed.

Lemma parse_floor_flag payload rm0 :
  let rows := read_rows payload in
  let w := if Py.len rows >? 0 then Py.len (default [] (Py.index rows 0)) else 0 in
  ((parse_floor_height_map payload rm0).2 = None ↔ Forall (fun r => Py.len r <= w) rows) ∧
  ((parse_floor_height_map payload rm0).2 = None ∨
   (parse_floor_height_map payload rm0).2 = Some IndexError) ∧
  dims_ok (width (parse_floor_height_map payload rm0).1)
    (height (parse_floor_height_map payload rm0).1)
    (floor_map (parse_floor_height_map payload rm0).1) ∧
  width (parse_floor_height_map payload rm0).1 = w ∧
  height (parse_floor_height_map payload rm0).1 = Py.len rows.
Proof.
  intros rows w. unfold parse_floor_height_map. fold rows. fold w.
  set (h := Py.len rows).
  assert (0 <= h) by (subst h; unfold Py.len; lia).
  assert (0 <= w) by (subst w; destruct (_ >? 0); unfold Py.len; lia).
  pose proof (fill_rows_flag w h (grid w h []) 0 rows (grid_dims w h [] ltac:(lia) ltac:(lia))
                ltac:(lia) ltac:(lia) ltac:(subst h; lia)) as Hf.
  pose proof (fill_rows_dims w h (grid w h []) 0 rows
                (grid_dims w h [] ltac:(lia) ltac:(lia))) as Hd.
  destruct (fill_rows (grid w h []) 0 rows) as [fm []]; cbn [fst snd width height floor_map] in *.
  - split; [tauto|]. split; [by left|]. done.
  - split; [|split; [by right|done]]. split; [done|]. intros Hall. by apply Hf in Hall.
Qed.

End FloorFacts.

Section WalkFacts.

Import Room.

Lemma index2_within {A} w h (g : list (list A)) y x :
  dims_ok w h g -> 0 <= y < h -> 0 <= x < w -> ∃ v, Py.index2 g y x = Some v.
Proof.
  intros [Hlen Hrows] Hy Hx. unfold Py.index2.
  destruct (index_within g y) as (row & -> & Hrow); [lia|].
  assert (Py.len row = w) as Hw by (eapply (Forall_lookup_1 _ _ _ _ Hrows Hrow)).
  cbn [mbind option_bind].
  destruct (index_within row x) as (v & -> & _); [lia|]. eauto.
Qed.

Lemma index2_grid {A} w h (v : A) y x :
  0 <= y < h -> 0 <= x < w -> Py.index2 (grid w h v) y x = Some v.
Proof.
  intros Hy Hx. unfold Py.index2, Py.index, grid.
  rewrite (proj2 (Z.leb_le 0 y)) by lia.
  rewrite lookup_replicate_2 by lia. cbn [mbind option_bind].
  rewrite (proj2 (Z.leb_le 0 x)) by lia.
  by rewrite lookup_replicate_2 by lia.
Qed.

Lemma is_walkable_inside rm x y :
  0 <= x < width rm -> 0 <= y < height rm ->
  is_walkable rm x y =
  (tile ← Py.index2 (floor_map rm) y x;
   if Py.eqb (Py.lower tile) [x_char] then Some false
   else blocked ← Py.index2 (stacking_blocked rm) y x;
        if (blocked : bool) then Some false else Some true).
Proof.
  intros Hx Hy. unfold is_walkable.
  rewrite (proj2 (Z.leb_le 0 x)), (proj2 (Z.ltb_lt x _)),
    (proj2 (Z.leb_le 0 y)), (proj2 (Z.ltb_lt y _)) by lia.
  done.
Qed.

Lemma is_walkable_outside rm x y :
  ¬ (0 <= x < width rm ∧ 0 <= y < height rm) -> is_walkable rm x y = Some false.
Proof.
  intros Hout. unfold is_walkable.
  destruct (0 <=? x) eqn:E1, (x <? width rm) eqn:E2, (0 <=? y) eqn:E3,
    (y <? height rm) eqn:E4; try done.
  apply Z.leb_le in E1, E3. apply Z.ltb_lt in E2, E4. lia.
Qed.

Lemma is_walkable_total rm x y : map_ok rm -> is_Some (is_walkable rm x y).
Proof.
  intros (Hfm & Hsb & _).
  destruct (decide (0 <= x < width rm ∧ 0 <= y < height rm)) as [[Hx Hy]|Hout].
  - rewrite is_walkable_inside by done.
    destruct (index2_within _ _ _ y x Hfm Hy Hx) as [tile ->].
    destruct (index2_within _ _ _ y x Hsb Hy Hx) as [b ->].
    cbn [mbind option_bind]. destruct (Py.eqb _ _); [done|]. by destruct b.
  - by rewrite is_walkable_outside.
Qed.

Lemma is_walkable_true_inside rm x y :
  is_walkable rm x y = Some true -> 0 <= x < width rm ∧ 0 <= y < height rm.
Proof.
  intros H. destruct (decide (0 <= x < width rm ∧ 0 <= y < height rm)) as [|Hout];
    [done|]. by rewrite is_walkable_outside in H.
Qed.

Lemma scan_row_spec rows fm y xs d :
  scan_row rows fm y xs = Some d ->
  ∃ x dir, d = (x, y, dir) ∧ x ∈ xs ∧ Py.eqb (Py.lower (cell fm y x)) [x_char] = false.
Proof.
  induction xs as [|x xs IH]; [done|]. cbn [scan_row].
  destruct (Py.eqb (Py.lower (cell fm y x)) [x_char]) eqn:E.
  - intros H. destruct (IH H) as (x' & dir & -> & Hin & Hc).
    exists x', dir. split; [done|]. split; [by right|done].
  - destruct (door_check rows y x) as [dir|].
    + intros [= <-]. exists x, dir. split; [done|]. split; [by left|done].
    + intros H. destruct (IH H) as (x' & dir & -> & Hin & Hc).
      exists x', dir. split; [done|]. split; [by right|done].
Qed.

Lemma scan_rows_spec rows fm w ys :
  scan_rows rows fm w ys = (-1, -1, 0) ∨
  ∃ x y dir, scan_rows rows fm w ys = (x, y, dir) ∧ x ∈ Py.range w ∧ y ∈ ys ∧
             Py.eqb (Py.lower (cell fm y x)) [x_char] = false.
Proof.
  induction ys as [|y ys IH]; [by left|]. cbn [scan_rows].
  destruct (scan_row rows fm y (Py.range w)) as [d|] eqn:E.
  - right. apply scan_row_spec in E as (x & dir & -> & Hin & Hc).
    exists x, y, dir. split; [done|]. split; [done|]. split; [by left|done].
  - destruct IH as [->|(x & y' & dir & -> & Hx & Hy & Hc)]; [by left|].
    right. exists x, y', dir. split; [done|]. split; [done|]. split; [by right|done].
Qed.

Lemma range_elem n i : 0 <= i < n -> i ∈ Py.range n.
Proof. intros Hi. unfold Py.range. apply elem_of_seqZ. lia. Qed.

Lemma walkable_row_spec rm y xs acc :
  (∀ x, is_Some (is_walkable rm x y)) ->
  ∃ l, walkable_row rm y xs acc = Some (acc ++ l) ∧
       ∀ p, p ∈ l ↔ ∃ x, p = (x, y) ∧ x ∈ xs ∧ is_walkable rm x y = Some true.
Proof.
  intros Htot. revert acc. induction xs as [|x xs IH]; intros acc.
  - exists []. rewrite app_nil_r. split; [done|]. intros p. split.
    + by intros ?%elem_of_nil.
    + by intros (x & _ & ?%elem_of_nil & _).
  - cbn [walkable_row]. destruct (Htot x) as [[] Hw]; rewrite Hw.
    + destruct (IH (acc ++ [(x, y)])) as (l & -> & Hl).
      exists ((x, y) :: l). rewrite <- app_assoc. split; [done|].
      intros p. rewrite elem_of_cons, Hl. split.
      * intros [->|(x' & -> & Hin & Hx')].
        -- exists x. split; [done|]. split; [by left|done].
        -- exists x'. split; [done|]. split; [by right|done].
      * intros (x' & -> & Hin & Hx'). apply elem_of_cons in Hin as [->|Hin];
          [by left|]. right. by exists x'.
    + destruct (IH acc) as (l & -> & Hl). exists l. split; [done|].
      intros p. rewrite Hl. split.
      * intros (x' & -> & Hin & Hx'). exists x'. split; [done|]. split; [by right|done].
      * intros (x' & -> & Hin & Hx'). apply elem_of_cons in Hin as [->|Hin];
          [congruence|]. by exists x'.
Qed.

Lemma walkable_rows_spec rm ys acc :
  (∀ x y, is_Some (is_walkable rm x y)) ->
  ∃ l, walkable_rows rm ys acc = Some (acc ++ l) ∧
       ∀ p, p ∈ l ↔ ∃ x y, p = (x, y) ∧ x ∈ Py.range (width rm) ∧ y ∈ ys ∧
                            is_walkable rm x y = Some true.
Proof.
  intros Htot. revert acc. induction ys as [|y ys IH]; intros acc.
  - exists []. rewrite app_nil_r. split; [done|]. intros p. split.
    + by intros ?%elem_of_nil.
    + by intros (x & y & _ & _ & ?%elem_of_nil & _).
  - cbn [walkable_rows].
    destruct (walkable_row_spec rm y (Py.range (width rm)) acc (fun x => Htot x y))
      as (l1 & -> & Hl1).
    destruct (IH (acc ++ l1)) as (l2 & -> & Hl2).
    exists (l1 ++ l2). rewrite <- app_assoc. split; [done|].
    intros p. rewrite elem_of_app, Hl1, Hl2. split.
    + intros [(x & -> & Hin & Hx)|(x & y' & -> & Hin & Hy & Hx)].
      * exists x, y. split; [done|]. split; [done|]. split; [by left|done].
      * exists x, y'. split; [done|]. split; [done|]. split; [by right|done].
    + intros (x & y' & -> & Hin & Hy & Hx). apply elem_of_cons in Hy as [->|Hy].
      * left. by exists x.
      * right. by exists x, y'.
Qed.

End WalkFacts.

Section FloorParse.

Import Room.

Lemma first_row_width (rows : list (list Z)) :
  (if Py.len rows >? 0 then Py.len (default [] (Py.index rows 0)) else 0)
  = Py.len (default [] (head rows)).
Proof. by destruct rows. Qed.

(** After a floor map that parsed without error all four grids have the
    map's dimensions. *)
Lemma parse_floor_map_ok payload rm0 :
  (parse_floor_height_map payload rm0).2 = None ->
  map_ok (parse_floor_height_map payload rm0).1.
Proof.
  intros Hok. split; [|by apply parse_floor_ok].
  apply (parse_floor_flag payload rm0).
Qed.

Lemma parse_floor_door payload rm0 :
  (parse_floor_height_map payload rm0).2 = None ->
  let rm := (parse_floor_height_map payload rm0).1 in
  (door_x rm, door_y rm) = (-1, -1) ∨ is_walkable rm (door_x rm) (door_y rm) = Some true.
Proof.
  intros Hok. cbn zeta.
  pose proof (parse_floor_map_ok payload rm0 Hok) as (Hfm & Hsb & _).
  revert Hok Hfm Hsb. unfold parse_floor_height_map.
  set (rows := read_rows payload). set (h := Py.len rows).
  set (w := if h >? 0 then _ else 0).
  destruct (fill_rows (grid w h []) 0 rows) as [fm []]; [|done].
  cbn [fst snd width height floor_map stacking_blocked door_x door_y].
  intros _ Hfm Hsb.
  destruct (scan_rows_spec rows fm w (Py.range h))
    as [->|(x & y & dir & -> & Hx & Hy & Hc)]; [by left|].
  right. cbn [fst snd]. apply range_bounds in Hx, Hy.
  rewrite is_walkable_inside by done.
  cbn [floor_map stacking_blocked].
  destruct (index2_within _ _ _ y x Hfm Hy Hx) as [tile Ht].
  unfold cell in Hc. rewrite Ht in Hc.
  change (Py.eqb (Py.lower tile) [x_char] = false) in Hc.
  rewrite Ht. cbn [mbind option_bind]. rewrite Hc, index2_grid by done. done.
Qed.

End FloorParse.

Section DoorScan.

Import Room.

(** The gap patterns, read off the three-way tests of the [try] block:
    facing 90 needs north, west and south all 'x'; facing 180 is reached
    only when the south test came out false, and needs north, west and east
    all 'x'. *)
Lemma door_check_patterns rows y x :
  (door_check rows y x = Some 90 ↔
     is_x rows (y - 1) x = Some true ∧ is_x rows y (x - 1) = Some true ∧
     is_x rows (y + 1) x = Some true) ∧
  (door_check rows y x = Some 180 ↔
     is_x rows (y - 1) x = Some true ∧ is_x rows y (x - 1) = Some true ∧
     is_x rows (y + 1) x = Some false ∧ is_x rows y (x + 1) = Some true) ∧
  (∀ dir, door_check rows y x = Some dir -> dir = 90 ∨ dir = 180).
Proof.
  unfold door_check, and3.
  destruct (is_x rows (y - 1) x) as [[]|], (is_x rows y (x - 1)) as [[]|],
    (is_x rows (y + 1) x) as [[]|], (is_x rows y (x + 1)) as [[]|];
    (split; [|split];
     [split; intros; destruct_and?; repeat split; congruence ..
     |intros dir [= <-]; auto]).
Qed.

Lemma door_check_south_outside rows y x :
  0 <= y -> Py.len rows <= y + 1 -> door_check rows y x = None.
Proof.
  intros Hy Hlen. unfold door_check. rewrite is_x_south_outside by done.
  destruct (is_x rows (y - 1) x) as [[]|], (is_x rows y (x - 1)) as [[]|]; done.
Qed.

Lemma door_check_east_outside rows row y x :
  0 <= x -> Py.index rows y = Some row -> Py.len row <= x + 1 ->
  door_check rows y x ≠ Some 180.
Proof.
  intros Hx Hrow Hlen. unfold door_check.
  rewrite (is_x_east_outside rows row y x) by done.
  destruct (is_x rows (y - 1) x) as [[]|], (is_x rows y (x - 1)) as [[]|],
    (is_x rows (y + 1) x) as [[]|]; done.
Qed.

(** The inner loop stops at the first candidate of its row. *)
Lemma scan_row_first rows fm y xs :
  match scan_row rows fm y xs with
  | None => ∀ x, x ∈ xs -> door_candidate rows fm y x = false
  | Some d =>
      ∃ pre x post dir, xs = pre ++ x :: post ∧ d = (x, y, dir) ∧
        door_check rows y x = Some dir ∧ door_candidate rows fm y x = true ∧
        ∀ x', x' ∈ pre -> door_candidate rows fm y x' = false
  end.
Proof.
  induction xs as [|x xs IH]; cbn [scan_row].
  - by intros x ?%elem_of_nil.
  - assert (door_candidate rows fm y x = false ->
            match scan_row rows fm y xs with
            | None => ∀ x0, x0 ∈ x :: xs -> door_candidate rows fm y x0 = false
            | Some d =>
                ∃ pre x0 post dir, x :: xs = pre ++ x0 :: post ∧ d = (x0, y, dir) ∧
                  door_check rows y x0 = Some dir ∧ door_candidate rows fm y x0 = true ∧
                  ∀ x', x' ∈ pre -> door_candidate rows fm y x' = false
            end) as Hskip.
    { intros Hno. destruct (scan_row rows fm y xs) as [d|].
      - destruct IH as (pre & x0 & post & dir & -> & -> & Hd & Hc & Hpre).
        exists (x :: pre), x0, post, dir. repeat split; try done.
        intros x' [->|Hin]%elem_of_cons; [done|by apply Hpre].
      - intros x0 [->|Hin]%elem_of_cons; [done|by apply IH]. }
    unfold door_candidate in Hskip at 1.
    destruct (Py.eqb (Py.lower (cell fm y x)) [x_char]) eqn:Ex; [by apply Hskip|].
    destruct (door_check rows y x) as [dir|] eqn:Ed; [|by apply Hskip].
    exists [], x, xs, dir. repeat split; try done.
    + unfold door_candidate. by rewrite Ex, Ed.
    + by intros x' ?%elem_of_nil.
Qed.

(** The outer loop stops at the first row that has a candidate. *)
Lemma scan_rows_first rows fm w ys :
  (scan_rows rows fm w ys = (-1, -1, 0) ∧
   ∀ y x, y ∈ ys -> x ∈ Py.range w -> door_candidate rows fm y x = false) ∨
  (∃ prey y posty prex x postx dir,
     ys = prey ++ y :: posty ∧ Py.range w = prex ++ x :: postx ∧
     scan_rows rows fm w ys = (x, y, dir) ∧
     door_check rows y x = Some dir ∧ door_candidate rows fm y x = true ∧
     (∀ y' x', y' ∈ prey -> x' ∈ Py.range w -> door_candidate rows fm y' x' = false) ∧
     (∀ x', x' ∈ prex -> door_candidate rows fm y x' = false)).
Proof.
  induction ys as [|y ys IH]; cbn [scan_rows].
  - left. split; [done|]. by intros y x ?%elem_of_nil.
  - pose proof (scan_row_first rows fm y (Py.range w)) as Hrow.
    destruct (scan_row rows fm y (Py.range w)) as [d|].
    + destruct Hrow as (prex & x & postx & dir & Hxs & -> & Hd & Hc & Hpre).
      right. exists [], y, ys, prex, x, postx, dir. repeat split; try done.
      by intros y' x' ?%elem_of_nil.
    + destruct IH as [[-> Hno]|(prey & y0 & posty & prex & x & postx & dir &
                                 -> & Hxs & -> & Hd & Hc & Hprey & Hprex)].
      * left. split; [done|].
        intros y' x' [->|Hin]%elem_of_cons Hx'; [by apply Hrow|by apply Hno].
      * right. exists (y :: prey), y0, posty, prex, x, postx, dir.
        repeat split; try done.
        intros y' x' [->|Hin]%elem_of_cons Hx'; [by apply Hrow|by apply Hprey].
Qed.

(** Where [range(n)] is cut, the part before the cut holds exactly the
    smaller indices. *)
Lemma range_split n pre i post :
  Py.range n = pre ++ i :: post ->
  0 <= i < n ∧ ∀ j, 0 <= j < i -> j ∈ pre.
Proof.
  unfold Py.range. intros Hcut.
  assert (seqZ 0 n !! length pre = Some i) as Hi.
  { rewrite Hcut. by apply list_lookup_middle. }
  apply lookup_seqZ in Hi as [Hi Hlt]. split; [lia|].
  intros j Hj.
  assert (seqZ 0 n !! Z.to_nat j = Some j) as Hl.
  { apply lookup_seqZ. lia. }
  rewrite Hcut, lookup_app_l in Hl by lia.
  by apply list_elem_of_lookup_2 in Hl.
Qed.

(** The door of a floor map that parsed: the first candidate of the grid in
    row-major order, or (-1, -1) when the grid has none. *)
Lemma parse_floor_first_door payload rm0 :
  (parse_floor_height_map payload rm0).2 = None ->
  let rm := (parse_floor_height_map payload rm0).1 in
  let cand := door_candidate (read_rows payload) (floor_map rm) in
  ((door_x rm, door_y rm) = (-1, -1) ∧
   ∀ x y, 0 <= x < width rm -> 0 <= y < height rm -> cand y x = false) ∨
  (0 <= door_x rm < width rm ∧ 0 <= door_y rm < height rm ∧
   cand (door_y rm) (door_x rm) = true ∧
   ∀ x y, 0 <= x < width rm -> 0 <= y < height rm ->
          y < door_y rm ∨ (y = door_y rm ∧ x < door_x rm) -> cand y x = false).
Proof.
  unfold parse_floor_height_map.
  set (rows := read_rows payload). set (h := Py.len rows).
  set (w := if h >? 0 then _ else 0).
  destruct (fill_rows (grid w h []) 0 rows) as [fm []]; [|done].
  intros _. cbn [fst snd width height floor_map door_x door_y].
  destruct (scan_rows_first rows fm w (Py.range h))
    as [[-> Hno]|(prey & y & posty & prex & x & postx & dir &
                  Hys & Hxs & -> & Hd & Hc & Hprey & Hprex)].
  - left. split; [done|]. intros x y Hx Hy. by apply Hno; apply range_elem.
  - right. cbn [fst snd].
    apply range_split in Hys as [Hy Hysl]. apply range_split in Hxs as [Hx Hxsl].
    repeat split; try done; try lia.
    intros x' y' Hx' Hy' [Hlt|[-> Hlt]].
    + apply Hprey; [apply Hysl; lia|by apply range_elem].
    + apply Hprex, Hxsl. lia.
Qed.

End DoorScan.

(** C7, amended. Processing a floor-height-map frame whose map text is
    "xxxxx\rx0000\rx000x\rxxxxx" sets width = 5 and height = 4 and leaves
    (door_x, door_y) = (-1, -1): no cell of that map that is not 'x' has
    north, west and south (or north, west and east) all 'x'.  For every
    floor map that parses, the door scan picks the first cell, in row-major
    order, that is not 'x' and matches a gap pattern, and leaves (-1, -1)
    when there is none; the pattern facing 90 is north, west and south all
    'x', the pattern facing 180 is north and west 'x', south present and
    not 'x', east 'x'.  A candidate whose south neighbour lies past the
    last row is no match, and a candidate whose east neighbour lies past
    the end of its row cannot match the south-facing pattern. *)
Theorem C7_floor_map_scenario (payload : list Z) (rm0 : Room.RoomMap)
  (rows : list Py.str) (row : Py.str) (x y : Z)
  (Hok : (Room.parse_floor_height_map payload rm0).2 = None)
  (Hx : 0 <= x) (Hy : 0 <= y) (Hrow : Py.index rows y = Some row) :
  let scenario := (Room.parse_floor_height_map (Room.floor_payload Room.scenario_map) Room.new).1 in
  let rm := (Room.parse_floor_height_map payload rm0).1 in
  let cand := Room.door_candidate (Room.read_rows payload) (Room.floor_map rm) in
  (Room.width scenario = 5 ∧ Room.height scenario = 4 ∧
   (Room.door_x scenario, Room.door_y scenario) = (-1, -1)) ∧
  (((Room.door_x rm, Room.door_y rm) = (-1, -1) ∧
    ∀ x y, 0 <= x < Room.width rm -> 0 <= y < Room.height rm -> cand y x = false) ∨
   (0 <= Room.door_x rm < Room.width rm ∧ 0 <= Room.door_y rm < Room.height rm ∧
    cand (Room.door_y rm) (Room.door_x rm) = true ∧
    ∀ x y, 0 <= x < Room.width rm -> 0 <= y < Room.height rm ->
           y < Room.door_y rm ∨ (y = Room.door_y rm ∧ x < Room.door_x rm) ->
           cand y x = false)) ∧
  (∀ fm, Room.door_candidate rows fm y x = true ↔
         Py.eqb (Py.lower (Room.cell fm y x)) [Room.x_char] = false ∧
         (Room.door_check rows y x = Some 90 ∨ Room.door_check rows y x = Some 180)) ∧
  (Room.door_check rows y x = Some 90 ↔
     Room.is_x rows (y - 1) x = Some true ∧ Room.is_x rows y (x - 1) = Some true ∧
     Room.is_x rows (y + 1) x = Some true) ∧
  (Room.door_check rows y x = Some 180 ↔
     Room.is_x rows (y - 1) x = Some true ∧ Room.is_x rows y (x - 1) = Some true ∧
     Room.is_x rows (y + 1) x = Some false ∧ Room.is_x rows y (x + 1) = Some true) ∧
  (Py.len rows <= y + 1 -> Room.door_check rows y x = None) ∧
  (Py.len row <= x + 1 -> Room.door_check rows y x ≠ Some 180).
Proof.
  intros scenario rm cand.
  destruct (door_check_patterns rows y x) as (H90 & H180 & Hdir).
  split; [by vm_compute|].
  split; [by apply parse_floor_first_door|].
  split.
  { intros fm. unfold Room.door_candidate.
    destruct (Py.eqb (Py.lower (Room.cell fm y x)) [Room.x_char]); cbn [negb andb].
    - split; [done|by intros [? _]].
    - destruct (Room.door_check rows y x) as [dir|] eqn:Ed.
      + split; [|done]. intros _. split; [done|].
        destruct (Hdir dir eq_refl) as [->| ->]; auto.
      + split; [done|]. by intros [_ [?|?]]. }
  split; [done|]. split; [done|]. split.
  - intros Hlen. by apply door_check_south_outside.
  - intros Hlen. by apply (door_check_east_outside rows row).
Qed.

(** The map "xxx\rx0x\rxxx" has its door at (1, 1), the first and only
    candidate; in the rows ["xx"; "x0"] the cell (1, 1) is not 'x' and has
    'x' to its north and west, and its south neighbour lies past the last
    row: the read raises and the cell is no match. *)
Lemma C7_floor_map_scenario_witness :
  let payload := Room.floor_payload (Py.lit "xxx" ++ [Room.CR] ++ Py.lit "x0x" ++ [Room.CR] ++ Py.lit "xxx") in
  let rm := (Room.parse_floor_height_map payload Room.new).1 in
  let rows := [Py.lit "xx"; Py.lit "x0"] in
  ((Room.door_x rm, Room.door_y rm) = (1, 1) ∧
   Room.door_candidate (Room.read_rows payload) (Room.floor_map rm) 1 1 = true ∧
   Room.door_candidate (Room.read_rows payload) (Room.floor_map rm) 1 0 = false) ∧
  (Room.is_x rows 0 1 = Some true ∧ Room.is_x rows 1 0 = Some true ∧
   Room.is_x rows 2 1 = None ∧ Room.door_check rows 1 1 = None) ∧
  Room.door_check rows 1 1 ≠ Some 180.
Proof.
  intros payload rm rows.
  destruct (C7_floor_map_scenario payload Room.new rows (Py.lit "x0") 1 1
              eq_refl ltac:(lia) ltac:(lia) eq_refl)
    as (_ & Hfirst & _ & _ & _ & Hs & He).
  assert (Room.door_x rm = 1) as Hdx by (by vm_compute).
  assert (Room.door_y rm = 1) as Hdy by (by vm_compute).
  assert (Room.width rm = 3) as Hw by (by vm_compute).
  assert (Room.height rm = 3) as Hh by (by vm_compute).
  fold rm in Hfirst. rewrite Hdx, Hdy, Hw, Hh in Hfirst.
  split; [|split].
  - destruct Hfirst as [[Hnone _]|(_ & _ & Hc & Hbefore)];
      [exfalso; clear -Hnone; congruence|].
    split; [done|]. split; [exact Hc|].
    apply Hbefore; lia.
  - split; [by vm_compute|]. split; [by vm_compute|]. split; [by vm_compute|].
    apply Hs. vm_compute. discriminate.
  - apply He. vm_compute. discriminate.
Defined.

(** X18. [parse_floor_height_map] raises (an [IndexError], from the store
    into the character grid) exactly when some row of the map text is
    longer than its first row; in either case it has set [height] to the
    number of rows and [width] to the length of the first row, and the
    character grid has these dimensions. *)
Theorem floor_map_raises_iff (payload : list Z) (rm0 : Room.RoomMap) :
  let rows := Room.read_rows payload in
  let r := Room.parse_floor_height_map payload rm0 in
  (r.2 = None ↔ Forall (fun row => Py.len row <= Py.len (default [] (head rows))) rows) ∧
  (r.2 = None ∨ r.2 = Some IndexError) ∧
  Room.height r.1 = Py.len rows ∧
  Room.width r.1 = Py.len (default [] (head rows)) ∧
  Room.dims_ok (Room.width r.1) (Room.height r.1) (Room.floor_map r.1).
Proof.
  intros rows r. subst rows r.
  pose proof (parse_floor_flag payload rm0) as H. cbn zeta in H.
  rewrite first_row_width in H. destruct H as (H1 & H2 & H3 & H4 & H5).
  done.
Qed.

(** X19. After a floor map that parsed without error the map is
    consistent (the character grid and the three height-map grids all have
    the map's dimensions) and the door the scan found, if any, is a tile
    inside the grid on which [is_walkable] holds. *)
Theorem floor_map_door_is_walkable (payload : list Z) (rm0 : Room.RoomMap)
  (Hok : (Room.parse_floor_height_map payload rm0).2 = None) :
  let rm := (Room.parse_floor_height_map payload rm0).1 in
  Room.map_ok rm ∧
  ((Room.door_x rm, Room.door_y rm) = (-1, -1) ∨
   Room.is_walkable rm (Room.door_x rm) (Room.door_y rm) = Some true).
Proof.
  intros rm. split; [by apply parse_floor_map_ok | by apply parse_floor_door].
Qed.

Lemma floor_map_door_is_walkable_witness :
  let rm := (Room.parse_floor_height_map
               (Room.floor_payload (Py.lit "0x" ++ [Room.CR] ++ Py.lit "xx")) Room.new).1 in
  Room.map_ok rm ∧
  ((Room.door_x rm, Room.door_y rm) = (-1, -1) ∨
   Room.is_walkable rm (Room.door_x rm) (Room.door_y rm) = Some true).
Proof.
  exact (floor_map_door_is_walkable
           (Room.floor_payload (Py.lit "0x" ++ [Room.CR] ++ Py.lit "xx")) Room.new eq_refl).
Defined.

Lemma walkable_tiles_spec (rm : Room.RoomMap) (Hok : Room.map_ok rm) :
  (∀ x y, is_Some (Room.is_walkable rm x y)) ∧
  ∃ tiles, Room.get_walkable_tiles rm = Some tiles ∧
    ∀ x y, (x, y) ∈ tiles ↔ Room.is_walkable rm x y = Some true.
Proof.
  split; [intros x y; by apply is_walkable_total|].
  assert (Room.height rm = 0 -> ∀ x y, Room.is_walkable rm x y = Some true -> False) as Hz.
  { intros Hh x y Hw. apply is_walkable_true_inside in Hw. lia. }
  pose proof Hok as ([Hf _] & [Hs _] & _).
  unfold Room.get_walkable_tiles.
  destruct (Room.floor_map rm) as [|r0 fm] eqn:Efm.
  { exists []. split; [done|]. intros x y. split; [by intros ?%elem_of_nil|].
    intros Hw. exfalso. by eapply Hz. }
  destruct (Room.stacking_blocked rm) as [|b0 sb] eqn:Esb.
  { exists []. split; [done|]. intros x y. split; [by intros ?%elem_of_nil|].
    intros Hw. exfalso. by eapply Hz. }
  destruct (walkable_rows_spec rm (Py.range (Room.height rm)) []
              (fun x y => is_walkable_total rm x y Hok)) as (l & -> & Hl).
  exists l. split; [done|]. intros x y. rewrite Hl. split.
  - by intros (x' & y' & [= -> ->] & _ & _ & Hw).
  - intros Hw. pose proof (is_walkable_true_inside _ _ _ Hw) as [Hx Hy].
    exists x, y. split; [done|]. split; [by apply range_elem|].
    split; [by apply range_elem|done].
Qed.

(** X20. On a consistent map [is_walkable] never raises, and
    [get_walkable_tiles] returns a list that holds exactly the coordinates
    on which [is_walkable] is true, all of them inside the grid. *)
Theorem walkable_tiles_exact (rm : Room.RoomMap) (Hok : Room.map_ok rm) :
  (∀ x y, is_Some (Room.is_walkable rm x y)) ∧
  ∃ tiles, Room.get_walkable_tiles rm = Some tiles ∧
    ∀ x y, (x, y) ∈ tiles ↔ Room.is_walkable rm x y = Some true.
Proof. by apply walkable_tiles_spec. Qed.

Lemma walkable_tiles_exact_witness :
  let rm := (Room.parse_floor_height_map
               (Room.floor_payload (Py.lit "0x" ++ [Room.CR] ++ Py.lit "xx")) Room.new).1 in
  ∃ tiles, Room.get_walkable_tiles rm = Some tiles ∧
    ∀ x y, (x, y) ∈ tiles ↔ Room.is_walkable rm x y = Some true.
Proof.
  refine (proj2 (walkable_tiles_exact _ _)).
  exact (parse_floor_map_ok
           (Room.floor_payload (Py.lit "0x" ++ [Room.CR] ++ Py.lit "xx")) Room.new eq_refl).
Defined.

(** X21. On a consistent map [parse_height_map] never raises, whatever
    the length and content of the payload; it leaves width, height, floor
    map and door as they were and the map consistent. *)
Theorem height_map_never_raises (payload : list Z) (rm : Room.RoomMap)
  (Hok : Room.map_ok rm) :
  let r := Room.parse_height_map payload rm in
  r.2 = None ∧ Room.map_ok r.1 ∧ Room.same_frame rm r.1.
Proof.
  destruct Hok as [Hfm Hg]. intros r. subst r.
  destruct (parse_height_map_ok payload rm Hg) as (Hr & Hg' & Hfr).
  split; [done|]. split; [|done]. split; [|done].
  destruct Hfr as (-> & -> & -> & _). done.
Qed.

Lemma height_map_never_raises_witness :
  (Room.parse_height_map [64; 0; 1]
     (Room.parse_floor_height_map
        (Room.floor_payload (Py.lit "0x" ++ [Room.CR] ++ Py.lit "xx")) Room.new).1).2 = None.
Proof.
  refine (proj1 (height_map_never_raises [64; 0; 1] _ _)).
  exact (parse_floor_map_ok
           (Room.floor_payload (Py.lit "0x" ++ [Room.CR] ++ Py.lit "xx")) Room.new eq_refl).
Defined.

Section HeightTiles.

Import Room.

Lemma index_nonneg {A} (l : list A) i : 0 <= i -> Py.index l i = l !! Z.to_nat i.
Proof. intros Hi. unfold Py.index. by rewrite (proj2 (Z.leb_le 0 i)). Qed.

Lemma setitem2_index2 {A} w h (g : list (list A)) y x v :
  dims_ok w h g -> 0 <= y < h -> 0 <= x < w ->
  ∃ g', Py.setitem2 g y x v = Some g' ∧ dims_ok w h g' ∧
        ∀ y' x', 0 <= y' -> 0 <= x' ->
          Py.index2 g' y' x' = if decide (y' = y ∧ x' = x) then Some v
                               else Py.index2 g y' x'.
Proof.
  intros Hd Hy Hx.
  destruct (setitem2_dims w h g y x v Hd Hy Hx) as (g' & Hg' & Hd').
  exists g'. split; [done|]. split; [done|].
  destruct Hd as [Hlen Hrows]. unfold Py.setitem2 in Hg'.
  destruct (index_within g y) as (row & Hi & Hrow); [lia|]. rewrite Hi in Hg'.
  assert (Py.len row = w) as Hw by (eapply (Forall_lookup_1 _ _ _ _ Hrows Hrow)).
  cbn [mbind option_bind] in Hg'. rewrite setitem_within in Hg' by lia.
  cbn [mbind option_bind] in Hg'. rewrite setitem_within in Hg' by lia.
  injection Hg' as <-.
  intros y' x' Hy' Hx'. unfold Py.index2. rewrite !index_nonneg by done.
  destruct (decide (y' = y)) as [->|Hne].
  - rewrite list_lookup_insert_eq by (unfold Py.len in *; lia).
    rewrite Hrow. cbn [mbind option_bind]. rewrite !index_nonneg by done.
    destruct (decide (x' = x)) as [->|Hnx].
    + rewrite list_lookup_insert_eq by (unfold Py.len in *; lia).
      by rewrite decide_True.
    + rewrite list_lookup_insert_ne by lia. by rewrite decide_False by tauto.
  - rewrite list_lookup_insert_ne by lia. by rewrite decide_False by tauto.
Qed.

Lemma height_cell_tiles raw rm y x :
  grids_ok rm -> 0 <= y < height rm -> 0 <= x < width rm ->
  width rm * height rm * 2 <= Py.len raw ->
  ∃ rm', height_cell raw (width rm) rm y x = (rm', Next) ∧
         grids_ok rm' ∧ same_frame rm rm' ∧
         ∀ y' x', 0 <= y' -> 0 <= x' ->
           tile_at rm' y' x' = if decide (y' = y ∧ x' = x)
                               then decoded_tile raw (width rm) y x
                               else tile_at rm y' x'.
Proof.
  intros (Hsb & Hrt & Hth) Hy Hx Hlen. unfold height_cell, decoded_tile, tile_value.
  set (index := (y * width rm + x) * 2).
  assert (0 <= index) by (subst index; nia).
  assert (index + 2 <= Py.len raw) by (subst index; nia).
  rewrite gtb_false by done.
  destruct (unpack_h_some (Py.slice raw index (index + 2))) as (v & ->).
  { rewrite slice_length by lia. lia. }
  destruct (setitem2_index2 _ _ _ y x (negb (Z.land v STACKING_BLOCKED_MASK =? 0))
              Hsb Hy Hx) as (sb & -> & Hsb' & Hsbi).
  destruct (setitem2_index2 _ _ _ y x (Z.land v ROOM_TILE_MASK =? 0)
              Hrt Hy Hx) as (rt & Hrt1 & Hrt' & Hrti).
  destruct (setitem2_index2 _ _ _ y x (Z.land v 16383 # 256)%Q
              Hth Hy Hx) as (th & Hth1 & Hth' & Hthi).
  cbn [is_room_tile tile_heights set_is_room_tile set_stacking_blocked].
  rewrite Hrt1.
  cbn [is_room_tile tile_heights set_is_room_tile set_stacking_blocked].
  rewrite Hth1.
  eexists. split; [done|].
  split; [repeat split; cbn; done || apply Hsb' || apply Hrt' || apply Hth'|].
  split; [by repeat split|].
  intros y' x' Hy' Hx'. unfold tile_at, tile_flags.
  cbn [stacking_blocked is_room_tile tile_heights set_tile_heights set_is_room_tile
         set_stacking_blocked].
  rewrite Hsbi, Hrti, Hthi by done. by case_decide.
Qed.

Lemma height_row_tiles raw rm0 y xs rm :
  grids_ok rm -> same_frame rm0 rm -> 0 <= y < height rm0 ->
  Forall (fun x => 0 <= x < width rm0) xs ->
  width rm0 * height rm0 * 2 <= Py.len raw ->
  let r := height_row raw (width rm0) rm y xs in
  r.2 = true ∧ grids_ok r.1 ∧ same_frame rm0 r.1 ∧
  ∀ y' x', 0 <= y' -> 0 <= x' ->
    tile_at r.1 y' x' = if decide (y' = y ∧ x' ∈ xs)
                        then decoded_tile raw (width rm0) y' x'
                        else tile_at rm y' x'.
Proof.
  intros Hok Hfr Hy Hxs Hlen. revert rm Hok Hfr.
  induction xs as [|x xs IH]; intros rm Hok Hfr.
  - cbn [height_row fst snd]. split; [done|]. split; [done|]. split; [done|].
    intros y' x' _ _. rewrite decide_False; [done|]. by intros [_ ?%elem_of_nil].
  - inversion Hxs as [|? ? Hx Hxs']; subst.
    pose proof Hfr as (Hw & Hh & Hrest).
    destruct (height_cell_tiles raw rm y x Hok ltac:(lia) ltac:(lia) ltac:(by rewrite Hw, Hh))
      as (rm1 & Hc & Hok1 & Hfr1 & Ht1).
    cbn [height_row]. rewrite <- Hw, Hc, Hw.
    destruct (IH Hxs' rm1 Hok1) as (Hf & Hok2 & Hfr2 & Ht2).
    { eapply same_frame_trans; [|done]. done. }
    split; [done|]. split; [done|]. split; [done|].
    intros y' x' Hy' Hx'. rewrite Ht2, Ht1 by done. rewrite Hw.
    destruct (decide (y' = y)) as [->|Hne].
    + destruct (decide (x' ∈ xs)) as [Hin|Hnin].
      * rewrite !decide_True; [done| |done]. split; [done|by right].
      * rewrite (decide_False (P := y = y ∧ x' ∈ xs)) by tauto.
        destruct (decide (x' = x)) as [->|Hnx].
        -- rewrite !decide_True; [done| |done]. split; [done|by left].
        -- rewrite !decide_False; [done| |tauto].
           intros [_ [?|?]%elem_of_cons]; done.
    + rewrite !decide_False; tauto.
Qed.

Lemma height_rows_tiles raw rm0 ys rm :
  grids_ok rm -> same_frame rm0 rm ->
  Forall (fun y => 0 <= y < height rm0) ys ->
  width rm0 * height rm0 * 2 <= Py.len raw ->
  let r := height_rows raw (width rm0) rm ys in
  r.2 = true ∧ grids_ok r.1 ∧ same_frame rm0 r.1 ∧
  ∀ y' x', 0 <= y' -> 0 <= x' ->
    tile_at r.1 y' x' = if decide (y' ∈ ys ∧ x' ∈ Py.range (width rm0))
                        then decoded_tile raw (width rm0) y' x'
                        else tile_at rm y' x'.
Proof.
  intros Hok Hfr Hys Hlen. revert rm Hok Hfr.
  induction ys as [|y ys IH]; intros rm Hok Hfr.
  - cbn [height_rows fst snd]. split; [done|]. split; [done|]. split; [done|].
    intros y' x' _ _. rewrite decide_False; [done|]. by intros [?%elem_of_nil _].
  - inversion Hys as [|? ? Hy Hys']; subst.
    destruct (height_row_tiles raw rm0 y (Py.range (width rm0)) rm Hok Hfr Hy
                (range_Forall _) Hlen) as (Hf1 & Hok1 & Hfr1 & Ht1).
    cbn [height_rows].
    destruct (height_row raw (width rm0) rm y (Py.range (width rm0))) as [rm1 []];
      cbn [fst snd] in *; [|done].
    destruct (IH Hys' rm1 Hok1 Hfr1) as (Hf & Hok2 & Hfr2 & Ht2).
    split; [done|]. split; [done|]. split; [done|].
    intros y' x' Hy' Hx'. rewrite Ht2, Ht1 by done.
    destruct (decide (x' ∈ Py.range (width rm0))) as [Hin|Hnin].
    + destruct (decide (y' ∈ ys)) as [Hiy|Hniy].
      * rewrite !decide_True; [done| |done]. split; [by right|done].
      * rewrite (decide_False (P := y' ∈ ys ∧ _)) by tauto.
        destruct (decide (y' = y)) as [->|Hny].
        -- rewrite !decide_True; [done| |done]. split; [by left|done].
        -- rewrite !decide_False; [done| |tauto].
           intros [[?|?]%elem_of_cons _]; done.
    + rewrite !decide_False; tauto.
Qed.

End HeightTiles.

Section HeightParse.

Import Room.

Lemma slice_of_prefix {A} (l : list A) n a b :
  0 <= a -> a <= b -> b <= n -> n <= Py.len l ->
  Py.slice (Py.slice l 0 n) a b = Py.slice l a b.
Proof.
  intros Ha Hab Hbn Hn.
  assert (Py.len (Py.slice l 0 n) = n) as Hl by (rewrite slice_length; lia).
  unfold Py.slice at 1. fold (Py.len (Py.slice l 0 n)). rewrite Hl.
  unfold Py.slice, Py.norm_bound, Py.len in *.
  rewrite !(proj2 (Z.ltb_ge _ 0)) by lia.
  rewrite !Z.min_l by lia. change (Z.to_nat 0) with 0%nat. rewrite drop_0.
  replace (Z.to_nat (n - 0)) with (Z.to_nat a + Z.to_nat (n - a))%nat by lia.
  rewrite <- take_drop_commute, take_take. f_equal. lia.
Qed.

Lemma parse_height_map_tiles payload rm :
  map_ok rm -> 0 < width rm -> 0 < height rm ->
  width rm * height rm * 2 <= Py.len payload ->
  let rm' := (parse_height_map payload rm).1 in
  same_frame rm rm' ∧
  ∀ y x, 0 <= y < height rm -> 0 <= x < width rm ->
    ∃ v, tile_value payload (width rm) y x = Some v ∧ tile_at rm' y x = tile_flags v.
Proof.
  intros [_ Hg] Hw Hh Hlen. unfold parse_height_map.
  rewrite (proj2 (Z.eqb_neq (width rm) 0)), (proj2 (Z.eqb_neq (height rm) 0)) by lia.
  cbn [orb]. set (expected := width rm * height rm * 2) in *.
  set (raw := if negb _ then _ else _).
  assert (Py.len raw = expected ∧
          ∀ a b, 0 <= a -> a <= b -> b <= expected -> Py.slice raw a b = Py.slice payload a b)
    as [Hraw Hslice].
  { subst raw. destruct (Py.len payload =? expected) eqn:E; cbn [negb].
    - apply Z.eqb_eq in E. done.
    - split; [rewrite slice_length; nia|]. intros a b Ha Hab Hb.
      by apply slice_of_prefix. }
  destruct (height_rows_tiles raw rm (Py.range (height rm)) rm Hg (same_frame_refl rm)
              (range_Forall _) ltac:(fold expected; lia)) as (Hf & Hok' & Hfr & Ht).
  destruct (height_rows raw (width rm) rm (Py.range (height rm))) as [rm' []];
    cbn [fst snd] in *; [|done].
  split; [done|]. intros y x Hy Hx.
  rewrite Ht by lia. rewrite decide_True by (split; by apply range_elem).
  unfold decoded_tile, tile_value.
  set (index := (y * width rm + x) * 2).
  assert (0 <= index) by (subst index; nia).
  assert (index + 2 <= expected) by (subst index expected; nia).
  rewrite Hslice by lia.
  destruct (unpack_h_some (Py.slice payload index (index + 2))) as (v & ->).
  { rewrite slice_length by lia. lia. }
  by exists v.
Qed.

End HeightParse.

(** X22. On a consistent map, a height-map payload that holds at least
    two bytes per tile sets, for every tile (x, y) of the grid, the three
    grid entries from the signed 16-bit value v at offset (y*width + x)*2:
    blocked iff bit 14 of v is set, room tile iff bit 9 is clear, height
    (v & 0x3FFF)/256.  Afterwards [get_tile_height] returns that height and
    [is_walkable] holds exactly on the tiles whose floor character is not
    'x' or 'X' and whose bit 14 is clear; bytes past the last tile are
    ignored. *)
Theorem height_map_tiles (payload : list Z) (rm : Room.RoomMap) (x y : Z)
  (Hok : Room.map_ok rm)
  (Hlen : Room.width rm * Room.height rm * 2 <= Py.len payload)
  (Hx : 0 <= x < Room.width rm) (Hy : 0 <= y < Room.height rm) :
  let rm' := (Room.parse_height_map payload rm).1 in
  ∃ v, Room.tile_value payload (Room.width rm) y x = Some v ∧
       Room.tile_at rm' y x = Room.tile_flags v ∧
       Room.get_tile_height rm' x y = Some (Z.land v 16383 # 256)%Q ∧
       Room.is_walkable rm' x y =
         (tile ← Py.index2 (Room.floor_map rm) y x;
          Some (negb (Py.eqb (Py.lower tile) [Room.x_char]) && (Z.land v 16384 =? 0))).
Proof.
  destruct (parse_height_map_tiles payload rm Hok ltac:(lia) ltac:(lia) Hlen)
    as ((Hw & Hh & Hfm & _) & Ht).
  destruct (Ht y x Hy Hx) as (v & Hv & Htile).
  intros rm'. fold rm' in Hw, Hh, Hfm, Htile. clearbody rm'.
  exists v. split; [done|]. split; [done|].
  unfold Room.tile_at, Room.tile_flags in Htile.
  injection Htile as Hsb Hrt Hth. split.
  - unfold Room.get_tile_height. rewrite Hw, Hh.
    rewrite (proj2 (Z.leb_le 0 x)), (proj2 (Z.ltb_lt x _)),
      (proj2 (Z.leb_le 0 y)), (proj2 (Z.ltb_lt y _)) by lia.
    done.
  - rewrite is_walkable_inside by lia. rewrite Hfm, Hsb.
    destruct (Py.index2 (Room.floor_map rm) y x) as [tile|]; [|done].
    cbn [mbind option_bind].
    change Room.STACKING_BLOCKED_MASK with 16384.
    destruct (Py.eqb _ _); [done|]. by destruct (_ =? 0).
Qed.

Lemma height_map_tiles_witness :
  let rm := (Room.parse_floor_height_map
               (Room.floor_payload (Py.lit "0x" ++ [Room.CR] ++ Py.lit "xx")) Room.new).1 in
  let payload := [64; 0; 0; 0; 2; 0; 0; 0; 9] in
  ∃ v, Room.tile_value payload (Room.width rm) 0 0 = Some v ∧
       Room.tile_at (Room.parse_height_map payload rm).1 0 0 = Room.tile_flags v ∧
       Room.get_tile_height (Room.parse_height_map payload rm).1 0 0
       = Some (Z.land v 16383 # 256)%Q ∧
       Room.is_walkable (Room.parse_height_map payload rm).1 0 0 =
         (tile ← Py.index2 (Room.floor_map rm) 0 0;
          Some (negb (Py.eqb (Py.lower tile) [Room.x_char]) && (Z.land v 16384 =? 0))).
Proof.
  intros rm payload.
  refine (height_map_tiles payload rm 0 0 _ _ _ _).
  - exact (parse_floor_map_ok
             (Room.floor_payload (Py.lit "0x" ++ [Room.CR] ++ Py.lit "xx")) Room.new eq_refl).
  - vm_compute. discriminate.
  - vm_compute. split; [discriminate|reflexivity].
  - vm_compute. split; [discriminate|reflexivity].
Defined.

(** * Further properties of the RSA helpers *)

Section RsaWire.

Import Rsa.

Lemma hex_digit_facts d :
  0 <= d < 16 ->
  Py.digit_value (Py.hex_digit d) = Some d ∧ Py.int_space (Py.hex_digit d) = false ∧
  (48 <= Py.hex_digit d <= 57 ∨ 97 <= Py.hex_digit d <= 102).
Proof.
  intros Hd.
  assert (d = 0 ∨ d = 1 ∨ d = 2 ∨ d = 3 ∨ d = 4 ∨ d = 5 ∨ d = 6 ∨ d = 7 ∨ d = 8
          ∨ d = 9 ∨ d = 10 ∨ d = 11 ∨ d = 12 ∨ d = 13 ∨ d = 14 ∨ d = 15) as Hcases by lia.
  assert (∀ v, Py.digit_value v = Some d -> Py.int_space v = false ->
               48 <= v <= 57 ∨ 97 <= v <= 102 ->
               Py.hex_digit d = v ->
               Py.digit_value (Py.hex_digit d) = Some d ∧
               Py.int_space (Py.hex_digit d) = false ∧
               (48 <= Py.hex_digit d <= 57 ∨ 97 <= Py.hex_digit d <= 102)) as Hv
    by (by intros v ? ? ? ->).
  repeat (destruct Hcases as [-> | Hcases];
          [eapply Hv; [| | |vm_compute; reflexivity]; [reflexivity | reflexivity | lia]|]).
  subst. eapply Hv; [| | |vm_compute; reflexivity]; [reflexivity | reflexivity | lia].
Qed.

Lemma byte_nibbles b : 0 <= b < 256 -> 0 <= b / 16 < 16 ∧ 0 <= b mod 16 < 16.
Proof. intros Hb. split; [split|]; try apply Z.mod_pos_bound; Z.div_mod_to_equations; lia. Qed.

Lemma hex_no_space bs :
  is_bytes bs -> Forall (fun c => Py.int_space c = false ∧ c < 127) (Py.hex bs).
Proof.
  induction 1 as [|b bs Hb Hbs IH]; [constructor|].
  destruct (byte_nibbles b Hb) as [Hh Hl].
  destruct (hex_digit_facts _ Hh) as (_ & Hsh & Hrh).
  destruct (hex_digit_facts _ Hl) as (_ & Hsl & Hrl).
  change (Py.hex (b :: bs)) with
    (Py.hex_digit (b / 16) :: Py.hex_digit (b mod 16) :: Py.hex bs).
  repeat constructor; done || lia.
Qed.

Lemma hex_length bs : Py.len (Py.hex bs) = 2 * Py.len bs.
Proof.
  induction bs as [|b bs IH]; [done|].
  change (Py.hex (b :: bs)) with
    (Py.hex_digit (b / 16) :: Py.hex_digit (b mod 16) :: Py.hex bs).
  unfold Py.len in *. cbn [length]. lia.
Qed.

Lemma int_digits_hex bs acc :
  is_bytes bs ->
  Py.int_digits 16 acc false (Py.hex bs)
  = Some (fold_left (fun a b => a * 256 + b) bs acc).
Proof.
  intros Hbs. revert acc. induction Hbs as [|b bs Hb Hbs IH]; intros acc; [done|].
  destruct (byte_nibbles b Hb) as [Hh Hl].
  destruct (hex_digit_facts _ Hh) as (Hvh & _ & Hrh).
  destruct (hex_digit_facts _ Hl) as (Hvl & _ & Hrl).
  change (Py.hex (b :: bs)) with
    (Py.hex_digit (b / 16) :: Py.hex_digit (b mod 16) :: Py.hex bs).
  cbn [Py.int_digits fold_left].
  rewrite (proj2 (Z.eqb_neq (Py.hex_digit (b / 16)) 95)) by lia.
  rewrite Hvh, (proj2 (Z.ltb_lt (b / 16) 16)) by lia.
  rewrite (proj2 (Z.eqb_neq (Py.hex_digit (b mod 16)) 95)) by lia.
  rewrite Hvl, (proj2 (Z.ltb_lt (b mod 16) 16)) by lia.
  rewrite IH. do 2 f_equal. Z.div_mod_to_equations; lia.
Qed.

(** [int(bs.hex(), 16)] is the big-endian value of [bs]. *)
Lemma int_hex bs : bs ≠ [] -> is_bytes bs -> Py.int 16 (Py.hex bs) = Some (from_bytes bs).
Proof.
  intros Hne Hbs. unfold Py.int.
  rewrite int_ascii_id
    by (eapply Forall_impl; [by apply hex_no_space|]; by intros c [_ ?]).
  rewrite int_strip_no_space
    by (eapply Forall_impl; [by apply hex_no_space|]; by intros c [? _]).
  pose proof (int_digits_hex bs 0 Hbs) as Hd.
  destruct bs as [|b bs]; [done|]. inversion Hbs as [|? ? Hb Hbs']; subst.
  destruct (byte_nibbles b Hb) as [Hh Hl].
  destruct (hex_digit_facts _ Hh) as (_ & _ & Hrh).
  destruct (hex_digit_facts _ Hl) as (_ & _ & Hrl).
  change (Py.hex (b :: bs)) with
    (Py.hex_digit (b / 16) :: Py.hex_digit (b mod 16) :: Py.hex bs) in *.
  cbv beta iota.
  rewrite (proj2 (Z.eqb_neq _ 43)), (proj2 (Z.eqb_neq _ 45)) by lia.
  assert (Py.int_prefix 16
            (Py.hex_digit (b / 16) :: Py.hex_digit (b mod 16) :: Py.hex bs)
          = Py.hex_digit (b / 16) :: Py.hex_digit (b mod 16) :: Py.hex bs) as ->.
  { unfold Py.int_prefix.
    rewrite (proj2 (Z.eqb_neq (Py.hex_digit (b mod 16)) 120)),
      (proj2 (Z.eqb_neq (Py.hex_digit (b mod 16)) 88)) by lia.
    by rewrite andb_false_r. }
  unfold Py.int_body. rewrite (proj2 (Z.eqb_neq _ 95)) by lia. exact Hd.
Qed.

Lemma fill_padding_enough rand acc ps_len :
  ps_len - Py.len acc <= Py.len (filter (fun b => b ≠ 0) rand) ->
  is_Some (fill_padding rand acc ps_len).
Proof.
  revert acc. induction rand as [|r rand IH]; intros acc Hn.
  - cbn [fill_padding]. destruct (Py.len acc <? ps_len) eqn:E; [|done].
    apply Z.ltb_lt in E. unfold Py.len in Hn. cbn in Hn. unfold Py.len in E. lia.
  - cbn [fill_padding]. destruct (Py.len acc <? ps_len) eqn:E; [|done].
    destruct (r =? 0) eqn:Er.
    + apply Z.eqb_eq in Er. subst r. apply IH.
      by rewrite filter_cons_False in Hn by (intros ?; done).
    + apply Z.eqb_neq in Er. apply IH.
      rewrite filter_cons_True in Hn by done.
      unfold Py.len in *. rewrite length_app. cbn [length] in *. lia.
Qed.

Lemma find_from_none b bs pos :
  Forall (fun c => c ≠ b) bs -> Py.find_from b bs pos = None.
Proof.
  intros Hbs. revert pos. induction Hbs as [|c bs Hc Hbs IH]; intros pos; [done|].
  cbn [Py.find_from]. rewrite (proj2 (Z.eqb_neq c b)) by done. apply IH.
Qed.

Lemma unpad_block_no_separator b0 b1 ps :
  Forall (fun b => b ≠ 0) ps -> unpad_block ([b0; b1] ++ ps) = None.
Proof.
  intros Hps. unfold unpad_block, Py.bytes_index.
  change (drop (Z.to_nat 2) ([b0; b1] ++ ps)) with ps.
  by rewrite find_from_none.
Qed.

Lemma unpad_block_empty_message b0 b1 ps :
  Forall (fun b => b ≠ 0) ps -> unpad_block ([b0; b1] ++ ps ++ [0]) = None.
Proof.
  intros Hps. unfold unpad_block, Py.bytes_index.
  change (drop (Z.to_nat 2) ([b0; b1] ++ ps ++ [0])) with (ps ++ 0 :: []).
  rewrite find_from_skip by done. cbn [mbind option_bind].
  assert (Py.slice_from ([b0; b1] ++ ps ++ [0]) (2 + Py.len ps + 1) = []) as ->.
  { unfold Py.slice_from, Py.norm_bound, Py.len.
    rewrite (proj2 (Z.ltb_ge _ 0)) by lia.
    rewrite !length_app. cbn [length].
    rewrite Z.min_l by lia. apply drop_ge. rewrite !length_app. cbn [length]. lia. }
  done.
Qed.

End RsaWire.

(** X23. Given enough non-zero random bytes, [_rsa_pad_and_encrypt]
    raises exactly when the message is longer than the key size minus 11;
    otherwise it returns a string of exactly twice the key size in
    characters, and [int(., 16)] of that string, which is the first step
    of [_rsa_verify_and_unpad], is a residue modulo n. *)
Theorem pad_and_encrypt_wire_format (k : Rsa.key) (m rand : list Z)
  (Hrand : Rsa.rsa_key_size k <= Py.len (filter (fun b => b ≠ 0) rand)) :
  (Py.len m <= Rsa.rsa_key_size k - 11 ->
   ∃ hex c,
     Rsa._rsa_pad_and_encrypt k m rand = Some hex ∧
     Py.len hex = 2 * Rsa.rsa_key_size k ∧
     Py.int 16 hex = Some c ∧ 0 <= c < Z.pos (Rsa.n k)) ∧
  (Rsa.rsa_key_size k - 11 < Py.len m -> Rsa._rsa_pad_and_encrypt k m rand = None).
Proof.
  assert (0 <= Py.len m) as Hm by (unfold Py.len; lia).
  pose proof (key_size_pos k) as Hsz. pose proof (key_size_bound k) as Hkb.
  split.
  - intros Hlen.
    destruct (fill_padding_enough rand [] (Rsa.rsa_key_size k - Py.len m - 3)) as [ps Hps].
    { change (Py.len (@nil Z)) with 0. lia. }
    set (c := Rsa.pow_mod (Rsa.from_bytes (Rsa.padded_message ps m)) (Rsa.e k)
                (Z.pos (Rsa.n k))).
    pose proof (pow_mod_range (Rsa.from_bytes (Rsa.padded_message ps m)) (Rsa.e k)
                  (Z.pos (Rsa.n k)) ltac:(lia)) as Hc. fold c in Hc.
    set (blk := Struct.be_encode (Z.to_nat (Rsa.rsa_key_size k)) c).
    exists (Py.hex blk), c.
    split; [|split; [|split; [|done]]].
    + eapply pad_and_encrypt_eq; [done | exact Hps | reflexivity |].
      apply to_bytes_in_range. fold c. lia.
    + rewrite hex_length. subst blk. rewrite len_be_encode. lia.
    + rewrite int_hex.
      * unfold Rsa.from_bytes. subst blk. rewrite be_decode_encode.
        rewrite Z2Nat.id by lia. by rewrite Z.mod_small by lia.
      * intros Hnil. apply (f_equal length) in Hnil. subst blk.
        rewrite be_encode_length in Hnil. cbn [length] in Hnil. lia.
      * apply be_encode_bytes.
  - intros Hlong. unfold Rsa._rsa_pad_and_encrypt.
    by rewrite (proj2 (Z.ltb_lt _ 8)) by lia.
Qed.

Lemma pad_and_encrypt_wire_format_witness :
  ∃ hex c,
    Rsa._rsa_pad_and_encrypt Rsa.toy_key (Py.lit "7") Rsa.rand_ff = Some hex ∧
    Py.len hex = 2 * Rsa.rsa_key_size Rsa.toy_key ∧
    Py.int 16 hex = Some c ∧ 0 <= c < Z.pos (Rsa.n Rsa.toy_key).
Proof.
  refine (proj1 (pad_and_encrypt_wire_format Rsa.toy_key (Py.lit "7") Rsa.rand_ff _) _).
  - vm_compute. discriminate.
  - vm_compute. discriminate.
Defined.

(** X24. [_rsa_verify_and_unpad] raises when the decrypted block has no
    zero byte from offset 2 on, and when its only such zero byte is the
    last byte of the block (the message is then empty and [int('')]
    raises). *)
Theorem verify_and_unpad_rejects (k : Rsa.key) (hex : Py.str) (ci b0 b1 : Z)
  (ps : list Z)
  (Hhex : Py.int 16 hex = Some ci)
  (Hps : Forall (fun b => b ≠ 0) ps)
  (Hblk : Rsa.to_bytes (Rsa.pow_mod ci (Rsa.e k) (Z.pos (Rsa.n k))) (Rsa.rsa_key_size k)
          = Some ([b0; b1] ++ ps) ∨
          Rsa.to_bytes (Rsa.pow_mod ci (Rsa.e k) (Z.pos (Rsa.n k))) (Rsa.rsa_key_size k)
          = Some ([b0; b1] ++ ps ++ [0])) :
  Rsa._rsa_verify_and_unpad k hex = None.
Proof.
  destruct Hblk as [Hblk|Hblk];
    rewrite (verify_and_unpad_eq k hex ci _ _ Hhex eq_refl Hblk).
  - by apply unpad_block_no_separator.
  - by apply unpad_block_empty_message.
Qed.

Lemma verify_and_unpad_rejects_witness :
  Rsa._rsa_verify_and_unpad Rsa.toy_key (Rsa.peer_hex 0 2 []) = None.
Proof.
  refine (verify_and_unpad_rejects Rsa.toy_key (Rsa.peer_hex 0 2 [])
            (default 0 (Py.int 16 (Rsa.peer_hex 0 2 []))) 0 2 (replicate 16 255)
            _ _ (or_intror _)).
  - vm_compute. reflexivity.
  - apply Forall_replicate. lia.
  - vm_compute. reflexivity.
Defined.

(** * Further properties of the room logic of the client *)

Section RoomClient.

Import Parsers Client.



End RoomClient.


(** The comparison of names is [str.lower()]'s: it maps the Kelvin sign
    U+212A to 'k', so a user whose name is "Knitty" spelt with that sign is
    taken for the administrator "knitty", and a users frame that lists them
    starts the quit-room thread; a name that differs from every
    administrator's in a letter does not. *)
Lemma kelvin_sign_is_lowered :
  let name := [Py.KELVIN_SIGN] ++ Py.lit "nitty" in
  let payload := Struct.be_encode 4 1 ++ Client.user_object_payload 7 name in
  let s := Client.set_admin_auto_leave true (Client.authenticated None) in
  Py.lower name = Py.lit "knitty" ∧
  Client.is_admin name = true ∧
  Parsers.name <$> Parsers.parse_users payload = [name] ∧
  Client.events (Client.handle_packet 0 Incoming.USERS payload s).1
    = [Client.Spawn Client.QuitRoomThread] ∧
  Client.is_admin (Py.lit "Knotty") = false.
Proof. by vm_compute. Qed.

(** X26. In room-aware mode, on a map whose grids have its dimensions,
    one pass of the random walk either sends nothing or sends one
    move-avatar packet whose target is a tile on which [is_walkable]
    holds: the walker never asks to step on a wall, a blocked tile or a
    tile outside the grid. *)
Theorem room_aware_walk_targets_walkable (rx ry : Z) (pick : nat) (s : Client.Session)
  (Hok : Room.map_ok (Client.room_map s)) :
  let s' := Client._rand_walk_step true rx ry pick s in
  s' = s ∨
  ∃ x y packet,
    Room.is_walkable (Client.room_map s) x y = Some true ∧
    compose_move_avatar x y = Some packet ∧
    s' = Client.send_packet false packet s.
Proof.
  intros s'. subst s'. unfold Client._rand_walk_step. cbn [negb].
  destruct (Room.is_valid (Client.room_map s)); [|by left].
  destruct (walkable_tiles_spec _ Hok) as (_ & tiles & -> & Htiles).
  destruct tiles as [|tile tiles]; [by left|].
  destruct ((tile :: tiles) !! (pick mod length (tile :: tiles))%nat) as [[x y]|] eqn:El;
    [|by left].
  destruct (compose_move_avatar x y) as [packet|] eqn:Ep; [|by left].
  right. exists x, y, packet. split; [|done].
  apply Htiles. by eapply list_elem_of_lookup_2.
Qed.

Lemma room_aware_walk_targets_walkable_witness :
  let rm := (Room.parse_floor_height_map
               (Room.floor_payload (Py.lit "0x" ++ [Room.CR] ++ Py.lit "xx")) Room.new).1 in
  let s := Client.set_room_map rm (Client.authenticated None) in
  Client._rand_walk_step true 0 0 5 s = s ∨
  ∃ x y packet,
    Room.is_walkable (Client.room_map s) x y = Some true ∧
    compose_move_avatar x y = Some packet ∧
    Client._rand_walk_step true 0 0 5 s = Client.send_packet false packet s.
Proof.
  intros rm s.
  refine (room_aware_walk_targets_walkable 0 0 5 s _).
  exact (parse_floor_map_ok
           (Room.floor_payload (Py.lit "0x" ++ [Room.CR] ++ Py.lit "xx")) Room.new eq_refl).
Defined.

Section RoomInvariant.

Import Parsers Client.

Lemma room_map_disconnect il s : room_map (disconnect il s) = room_map s.
Proof. unfold disconnect, report_status. destruct s as [[sk|] ? ? ? []], il; reflexivity. Qed.

Lemma room_map_send_packet il p s : room_map (send_packet il p s) = room_map s.
Proof.
  unfold send_packet.
  destruct (connected s); [|done]. destruct (sock s) as [sk|]; [|done].
  destruct (HabboPacket.get_bytes p) as [raw|];
    [|by rewrite (proj2 (proj2 (proj2 (proj2 (proj2 (send_failed_shape il s))))))].
  destruct (outgoing_cipher s) as [c|].
  - destruct (ArcFour.encrypt c raw) as [c' enc]. unfold sendall.
    destruct (broken sk);
      [rewrite (proj2 (proj2 (proj2 (proj2 (proj2 (send_failed_shape il _))))))|];
      by destruct s.
  - unfold sendall.
    destruct (broken sk);
      [rewrite (proj2 (proj2 (proj2 (proj2 (proj2 (send_failed_shape il _))))))|];
      by destruct s.
Qed.

Lemma room_map_add_users us s : room_map (fold_left add_user us s) = room_map s.
Proof.
  revert s. induction us as [|u us IH]; intros s; [done|].
  cbn [fold_left]. rewrite IH. unfold add_user.
  repeat match goal with |- context [if ?c then _ else _] => destruct c end;
    by destruct s.
Qed.

Lemma handle_packet_map_ok now packet_id payload s :
  Room.map_ok (room_map s) ->
  (handle_packet now packet_id payload s).2 = None ->
  Room.map_ok (room_map (handle_packet now packet_id payload s).1).
Proof.
  intros Hok. unfold handle_packet.
  repeat match goal with
         | |- context [if ?c =? ?d then _ else _] => destruct (c =? d)
         end.
  - destruct (Buffer.read_integer _) as [count buf].
    destruct (repeat_read _ _ _ _) as [buf' users]. by destruct s.
  - destruct (Buffer.read_integer _) as [idx buf].
    destruct (Buffer.read_string _) as [msg buf'].
    destruct (_ !! _); [|done]. by destruct s.
  - unfold _handle_disconnect_reason. destruct (Struct.unpack_i payload); [|done].
    destruct (_ || _); [done|]. by destruct s.
  - done.
  - destruct compose_pong; [|done]. cbn [fst]. by rewrite room_map_send_packet.
  - by destruct s.
  - cbn [fst]. by rewrite room_map_add_users.
  - unfold on_user_object. cbn [fst].
    match goal with |- context [if ?c then _ else _] => destruct c end; by destruct s.
  - destruct (compose_update_home_room _); [|done]. cbn [fst].
    by rewrite room_map_send_packet.
  - by destruct s.
  - unfold on_floor_height_map.
    pose proof (parse_floor_map_ok payload
                  (room_map (set_in_room_event true s))) as HF.
    destruct (Room.parse_floor_height_map _ _) as [rm [ex|]]; [done|].
    specialize (HF eq_refl). cbn [fst] in HF.
    destruct s as [? ? ? ? ? ? ? [[|b bs]|] ? ? ? ? ? ? ? ? ? ?]; cbn in *; try done.
    pose proof (parse_height_map_ok (b :: bs) rm (proj2 HF)) as (_ & Hg & Hfr).
    destruct (Room.parse_height_map _ _) as [rm' [ex|]]; [done|]. cbn in *.
    intros _. split; [|done]. destruct HF as [HF _].
    destruct Hfr as (-> & -> & -> & _). done.
  - unfold on_height_map. destruct (_ >? _).
    + pose proof (parse_height_map_ok payload (room_map s) (proj2 Hok)) as (_ & Hg & Hfr).
      destruct (Room.parse_height_map _ _) as [rm ex]. cbn [fst snd] in *.
      intros _. destruct s; cbn in *. split; [|done]. destruct Hok as [HF _].
      destruct Hfr as (-> & -> & -> & _). done.
    + by destruct s.
  - destruct (Py.int 10 _); [|done]. by destruct s.
  - done.
Qed.

End RoomInvariant.

(** X27. The listener keeps the room map consistent: starting from a map
    whose four grids have its dimensions (as the empty map of a new session
    has), after any sequence of frames the map of a listener that is still
    in its loop again has all four grids at its dimensions, so that
    [is_walkable] and [get_walkable_tiles] cannot raise on it. *)
Theorem room_map_stays_consistent (incoming : list Client.received) (s : Client.Session)
  (Hok : Room.map_ok (Client.room_map s)) :
  let r := Client._listen_for_packets incoming s in
  r.2 = false -> Room.map_ok (Client.room_map r.1).
Proof.
  revert s Hok. induction incoming as [|f incoming IH]; intros s Hok.
  - cbn [Client._listen_for_packets]. by destruct (Client.connected s).
  - cbn [Client._listen_for_packets]. destruct (Client.connected s); [|done].
    destruct f as [now packet_id payload| |]; [|done..].
    pose proof (handle_packet_map_ok now packet_id payload s Hok) as Hh.
    destruct (Client.handle_packet now packet_id payload s) as [s' [ex|]]; [done|].
    apply IH. by apply Hh.
Qed.

Lemma room_map_stays_consistent_witness :
  Room.map_ok
    (Client.room_map
       (Client._listen_for_packets
          [Client.Frame 0 Incoming.HEIGHT_MAP [64; 0; 0; 0; 2; 0; 0; 0];
           Client.Frame 1 Incoming.FLOOR_HEIGHT_MAP
             (Room.floor_payload (Py.lit "0x" ++ [Room.CR] ++ Py.lit "xx"))]
          (Client.authenticated None)).1).
Proof.
  apply (room_map_stays_consistent
           [Client.Frame 0 Incoming.HEIGHT_MAP [64; 0; 0; 0; 2; 0; 0; 0];
            Client.Frame 1 Incoming.FLOOR_HEIGHT_MAP
              (Room.floor_payload (Py.lit "0x" ++ [Room.CR] ++ Py.lit "xx"))]
           (Client.authenticated None)).
  - repeat split; by constructor.
  - vm_compute. reflexivity.
Defined.
